(** * pvcast: the /clearsky endpoint

    A shallow embedding of [src/pvcast/webserver/routers/clearsky.py] (the
    [post] handler) together with the part of pandas it drives: a frame whose
    columns are declared up front under two-level keys, column assignment
    with index alignment, row sums that skip missing values, running sums,
    the NaN check, rounding, and the nested view returned to the client.

    Numbers: a float cell is a rational ([Q]) or missing ([None], pandas'
    NaN); infinities are not represented, and sums are exact (no rounding
    error, no overflow), so statements about sums are stated up to [Qeq]
    and speak of series of finite values.  Every column carries its dtype:
    [round(0)] rounds the float64 columns to the nearest integer, ties to
    even, as numpy does, and [astype(int)] truncates what is left in the
    object columns. *)

From Stdlib Require Import List String Ascii Bool Arith ZArith QArith Lia Lqa.
Import ListNotations.
Local Open Scope string_scope.
Local Open Scope list_scope.
Local Close Scope Q_scope.

Set Implicit Arguments.

(* ------------------------------------------------------------------ *)
(** ** Python values: exceptions as results, str.lower, ordered dicts *)

Module Py.

Inductive Result (E A : Type) : Type :=
| Ok (a : A)
| Raise (e : E).
Arguments Ok {E A} a.
Arguments Raise {E A} e.

Definition bind {E A B} (r : Result E A) (k : A -> Result E B) : Result E B :=
  match r with
  | Ok a => k a
  | Raise e => Raise e
  end.

Definition is_ok {E A} (r : Result E A) : bool :=
  match r with Ok _ => true | Raise _ => false end.

(** [for x in xs: st = body st x], stopping at the first exception. *)
Fixpoint for_each {E S X} (body : S -> X -> Result E S) (xs : list X) (st : S)
  : Result E S :=
  match xs with
  | [] => Ok st
  | x :: rest => bind (body st x) (for_each body rest)
  end.

(** [str.lower] on ASCII letters. *)
Definition lower_ascii (c : ascii) : ascii :=
  let n := nat_of_ascii c in
  if (65 <=? n)%nat && (n <=? 90)%nat then ascii_of_nat (n + 32) else c.

Fixpoint lower (s : string) : string :=
  match s with
  | EmptyString => EmptyString
  | String c rest => String (lower_ascii c) (lower rest)
  end.

(** A [dict] with string keys keeps its keys in insertion order; assigning
    to a key that is present replaces the value where it stands. *)
Definition dict (V : Type) : Type := list (string * V).

Fixpoint dict_get {V} (k : string) (d : dict V) : option V :=
  match d with
  | [] => None
  | (k', v) :: rest => if String.eqb k k' then Some v else dict_get k rest
  end.

Fixpoint dict_set {V} (k : string) (v : V) (d : dict V) : dict V :=
  match d with
  | [] => [(k, v)]
  | (k', v') :: rest =>
      if String.eqb k k' then (k', v) :: rest else (k', v') :: dict_set k v rest
  end.

Definition dict_keys {V} (d : dict V) : list string := map fst d.

Definition dict_of_items {V} (items : list (string * V)) : dict V :=
  fold_left (fun d kv => dict_set (fst kv) (snd kv) d) items [].

End Py.

Import Py.

Declare Scope py_scope.
Delimit Scope py_scope with py.
Notation "x <- c ;; k" := (bind c (fun x => k))
  (at level 61, c at next level, right associativity) : py_scope.
Local Open Scope py_scope.

(* ------------------------------------------------------------------ *)
(** ** pandas: series and frames *)

Module Pandas.

(** A float cell; [None] is NaN. *)
Definition cell : Type := option Q.

Definition is_nan (c : cell) : bool :=
  match c with None => true | Some _ => false end.

Definition nan_to_zero (c : cell) : Q :=
  match c with Some q => q | None => 0%Q end.

(** A series: labels with their values, in order. *)
Definition Series (L : Type) : Type := list (L * cell).

Definition labels {L} (s : Series L) : list L := map fst s.
Definition values {L} (s : Series L) : list cell := map snd s.

(** [s.index = s.index.map(f)] *)
Definition relabel {L M} (f : L -> M) (s : Series L) : Series M :=
  map (fun e => (f (fst e), snd e)) s.

(** A column key of the two-level column index: [(type, plant)]. *)
Definition ColKey : Type := (string * string)%type.

Definition key_eqb (a b : ColKey) : bool :=
  String.eqb (fst a) (fst b) && String.eqb (snd a) (snd b).

(** The dtype of a column: [float64], or [object] (a column that holds
    Python objects, as every column of a frame built from column labels
    alone does). *)
Inductive dtype : Type := Float64 | Object.

Record DataFrame : Type := mkDF {
  df_index : list string;
  df_columns : list (ColKey * list cell);
  df_dtypes : list (ColKey * dtype)
}.

Definition df_keys (df : DataFrame) : list ColKey := map fst (df_columns df).

Inductive Exception : Type :=
| DuplicateLabels            (* ValueError: cannot reindex on an axis with duplicate labels *)
| KeyError (k : string)
| NaNValues (df : DataFrame) (* ValueError raised by the handler *)
| IntCastingNaN              (* astype(int) on a NaN of a float64 column *)
| NaNToInteger               (* ValueError: cannot convert float NaN to integer *)
| OverflowError              (* Python int too large to convert to C long *)
| UnboundLocalError (name : string)
| IndexError.

Definition R (A : Type) : Type := Result Exception A.

Fixpoint labels_eqb (a b : list string) : bool :=
  match a, b with
  | [], [] => true
  | x :: a', y :: b' => String.eqb x y && labels_eqb a' b'
  | _, _ => false
  end.

Fixpoint is_unique (l : list string) : bool :=
  match l with
  | [] => true
  | x :: rest => negb (existsb (String.eqb x) rest) && is_unique rest
  end.

(** The value a series holds at a label, NaN when the label is absent. *)
Fixpoint series_get (l : string) (s : Series string) : cell :=
  match s with
  | [] => None
  | (l', v) :: rest => if String.eqb l l' then v else series_get l rest
  end.

(** [pd.DataFrame(columns=cols)]: the columns are there, of dtype
    [object]; no row is. *)
Definition empty_frame (cols : list ColKey) : DataFrame :=
  mkDF [] (map (fun k => (k, [])) cols) (map (fun k => (k, Object)) cols).

(** [DataFrame._ensure_valid_index]: a frame without rows takes the index
    of the first non-empty series assigned to it; its columns, which hold
    nothing, are filled with NaN along the new index and keep their
    dtype. *)
Definition ensure_valid_index (df : DataFrame) (value : Series string) : DataFrame :=
  match df_index df, value with
  | [], _ :: _ =>
      mkDF (labels value)
           (map (fun c => (fst c, repeat (@None Q) (List.length value))) (df_columns df))
           (df_dtypes df)
  | _, _ => df
  end.

(** [_reindex_for_setitem]: the values as they are when the series carries
    the frame's index (or the frame has none), else the series aligned on
    the frame's index, which needs unique labels in the series. *)
Definition reindex_for_setitem (value : Series string) (df : DataFrame)
  : R (list cell) :=
  if labels_eqb (labels value) (df_index df) || (List.length (df_index df) =? 0)%nat
  then Ok (values value)
  else if is_unique (labels value)
       then Ok (map (fun l => series_get l value) (df_index df))
       else Raise DuplicateLabels.

(** Writing one column: the column under the key takes the values; a key
    that is not a column yet is appended.  The keys of the frames of the
    handler are distinct unless a plant is itself called ["Total"] in
    "all" mode; with a key that labels several columns pandas broadcasts
    the values to each of them, which is what is written here, save for a
    series that has as many rows as the key has columns, which pandas
    spreads over the columns instead: that case is outside this model,
    and the statements about frames with a [Total] column exclude a plant
    of that name. *)
Definition set_column (key : ColKey) (vals : list cell)
           (cols : list (ColKey * list cell)) : list (ColKey * list cell) :=
  if existsb (fun c => key_eqb key (fst c)) cols
  then map (fun c => if key_eqb key (fst c) then (fst c, vals) else c) cols
  else cols ++ [(key, vals)].

(** The column under the key takes the dtype of the series written. *)
Definition set_dtype (key : ColKey) (dt : dtype)
           (dts : list (ColKey * dtype)) : list (ColKey * dtype) :=
  if existsb (fun c => key_eqb key (fst c)) dts
  then map (fun c => if key_eqb key (fst c) then (fst c, dt) else c) dts
  else dts ++ [(key, dt)].

(** [df[key] = value] for a series [value] of dtype [dt]. *)
Definition setitem (df : DataFrame) (key : ColKey) (value : Series string)
           (dt : dtype) : R DataFrame :=
  let df1 := ensure_valid_index df value in
  vals <- reindex_for_setitem value df1 ;;
  Ok (mkDF (df_index df1) (set_column key vals (df_columns df1))
           (set_dtype key dt (df_dtypes df1))).

(** The dtype of the column under a key ([object] for a key that labels
    no column). *)
Fixpoint lookup_dtype (key : ColKey) (dts : list (ColKey * dtype)) : dtype :=
  match dts with
  | [] => Object
  | (k, dt) :: rest => if key_eqb key k then dt else lookup_dtype key rest
  end.

Definition dtype_of (df : DataFrame) (key : ColKey) : dtype :=
  lookup_dtype key (df_dtypes df).

Definition is_float64 (dt : dtype) : bool :=
  match dt with Float64 => true | Object => false end.

(** The dtype of [df[top].sum(axis=1)]: [float64] when every column under
    [top] is, [object] as soon as one of them is. *)
Definition sum_dtype (df : DataFrame) (top : string) : dtype :=
  if forallb (fun c => is_float64 (snd c))
             (filter (fun c => String.eqb top (fst (fst c))) (df_dtypes df))
  then Float64 else Object.

(** [df[top]]: the columns whose first level is [top], in frame order. *)
Definition getitem_level0 (df : DataFrame) (top : string)
  : R (list (string * list cell)) :=
  match filter (fun c => String.eqb top (fst (fst c))) (df_columns df) with
  | [] => Raise (KeyError top)
  | sub => Ok (map (fun c => (snd (fst c), snd c)) sub)
  end.

(** Sum of a row that skips NaN (an all-NaN row sums to 0). *)
Definition nansum (row : list cell) : Q :=
  fold_right (fun c acc => (nan_to_zero c + acc)%Q) 0%Q row.

(** [sub.sum(axis=1)]: one sum per row of the index. *)
Definition sum_axis1 (index : list string) (sub : list (string * list cell))
  : Series string :=
  map (fun i => (nth i index "", Some (nansum (map (fun c => nth i (snd c) None) sub))))
      (seq 0 (List.length index)).

(** [Series.cumsum()]: the running sum; a NaN stays NaN and is skipped. *)
Fixpoint cumsum_from (acc : Q) (l : list cell) : list cell :=
  match l with
  | [] => []
  | None :: rest => None :: cumsum_from acc rest
  | Some x :: rest => Some (acc + x)%Q :: cumsum_from (acc + x)%Q rest
  end.

Definition cumsum {L} (s : Series L) : Series L :=
  combine (labels s) (cumsum_from 0%Q (values s)).

(** [df.isnull().values.any()] *)
Definition isnull_any (df : DataFrame) : bool :=
  existsb (fun c => existsb is_nan (snd c)) (df_columns df).

(** [round(0)] of numpy: nearest integer, ties to the even one. *)
Definition round_half_even (q : Q) : Z :=
  let n := Qnum q in
  let d := Zpos (Qden q) in
  let f := (n / d)%Z in
  let r := (n mod d)%Z in
  match (2 * r ?= d)%Z with
  | Lt => f
  | Gt => (f + 1)%Z
  | Eq => if Z.even f then f else (f + 1)%Z
  end.

(** Python's [int(x)] of a float: the integer part, towards zero. *)
Definition truncate (q : Q) : Z := Z.quot (Qnum q) (Zpos (Qden q)).

(** The range of [int64]. *)
Definition int64_min : Z := (- 2 ^ 63)%Z.
Definition int64_max : Z := (2 ^ 63 - 1)%Z.

Definition in_int64 (z : Z) : bool :=
  (int64_min <=? z)%Z && (z <=? int64_max)%Z.

(** The frame after [round(0).astype(int)]. *)
Record IntFrame : Type := mkIF {
  if_index : list string;
  if_columns : list (ColKey * list Z)
}.

(** One cell through [round(0).astype(int)].  [round] rounds the float64
    columns and leaves the object columns alone.  [astype(int)] casts a
    float64 column as a block: a NaN is refused, and a rounded value
    outside [int64] comes out as the least [int64] (numpy leaves this cast
    to the platform; this is what x86-64 gives).  An object column is cast
    value by value with [int(x)], which truncates and refuses a NaN, and a
    result outside [int64] is refused. *)
Definition cell_to_int (dt : dtype) (c : cell) : R Z :=
  match dt, c with
  | Float64, None => Raise IntCastingNaN
  | Float64, Some q =>
      let z := round_half_even q in
      Ok (if in_int64 z then z else int64_min)
  | Object, None => Raise NaNToInteger
  | Object, Some q =>
      let z := truncate q in
      if in_int64 z then Ok z else Raise OverflowError
  end.

Fixpoint cells_to_int (dt : dtype) (l : list cell) : R (list Z) :=
  match l with
  | [] => Ok []
  | c :: rest =>
      z <- cell_to_int dt c ;;
      zs <- cells_to_int dt rest ;;
      Ok (z :: zs)
  end.

Fixpoint columns_to_int (dts : list (ColKey * dtype))
         (cols : list (ColKey * list cell)) : R (list (ColKey * list Z)) :=
  match cols with
  | [] => Ok []
  | (k, col) :: rest =>
      zs <- cells_to_int (lookup_dtype k dts) col ;;
      rest' <- columns_to_int dts rest ;;
      Ok ((k, zs) :: rest')
  end.

Definition round_astype_int (df : DataFrame) : R IntFrame :=
  cols <- columns_to_int (df_dtypes df) (df_columns df) ;;
  Ok (mkIF (df_index df) cols).

(** Reading a column and a cell of a frame. *)
Fixpoint column (key : ColKey) (cols : list (ColKey * list cell))
  : option (list cell) :=
  match cols with
  | [] => None
  | (k, col) :: rest => if key_eqb key k then Some col else column key rest
  end.

Definition df_cell (df : DataFrame) (key : ColKey) (i : nat) : cell :=
  match column key (df_columns df) with
  | Some col => nth i col None
  | None => None
  end.

End Pandas.

Import Pandas.

(* ------------------------------------------------------------------ *)
(** ** The handler [post] of routers/clearsky.py *)

Module Clearsky.

Section Handler.

(** Timestamps and the [Interval] enumeration come from outside the
    router; [strftime] stands for formatting one timestamp with
    ["%Y-%m-%dT%H:%M:%S%z"]. *)
Variable Timestamp : Type.
Variable Interval : Type.
Variable strftime : Timestamp -> string.

(** [ForecastResult]: the two series the handler reads, both of dtype
    [float64]. *)
Record ForecastResult : Type := mkForecast {
  ac_power : Series Timestamp;
  ac_energy : Series Timestamp
}.

(** A plant, seen through [pvplant.clearsky.run(weather_df=datetimes)]. *)
Record PVPlantModel : Type := mkPlant {
  clearsky_run : list Timestamp -> ForecastResult
}.

Record PVSystemManager : Type := mkManager {
  location_tz : string;
  pv_plants : dict PVPlantModel
}.

Record WeatherAPI : Type := mkWeather {
  start_forecast : Timestamp;
  end_forecast : Timestamp;
  get_source_dates : Timestamp -> Timestamp -> Interval -> list Timestamp
}.

Record StartEndRequest : Type := mkStartEnd {
  se_start : Timestamp;
  se_end : Timestamp
}.

Record ClearskyModel : Type := mkModel {
  cm_interval : Interval;
  cm_start : string;
  cm_end : string;
  cm_timezone : string;
  cm_result : dict (dict (dict Z))
}.

(** What the handler writes to [_LOGGER]. *)
Inductive LogRecord : Type :=
| InfoNoStartEnd
| InfoEstimating (pv_plant : string)
| ErrorNoPVSystem (plant_name : string).

(** Modelled from the spec: [PVSystemManager.get_pv_plant] (model/model.py
    is not among the sources) is the registry lookup
    [PlantRegistry.get(name) -> Plant | NotFound] over [pv_plants];
    [None] is the [KeyError] the handler catches. *)
Definition get_pv_plant (mngr : PVSystemManager) (name : string)
  : option PVPlantModel :=
  dict_get name (pv_plants mngr).

(** Lines 50-54: the arguments handed to [get_source_dates]. *)
Definition source_dates_args (weather_api : WeatherAPI)
           (start_end : option StartEndRequest) (interval : Interval)
  : Timestamp * Timestamp * Interval :=
  match start_end with
  | None => (start_forecast weather_api, end_forecast weather_api, interval)
  | Some se => (se_start se, se_end se, interval)
  end.

Definition build_datetimes (weather_api : WeatherAPI)
           (start_end : option StartEndRequest) (interval : Interval)
  : list Timestamp :=
  let '(s, e, i) := source_dates_args weather_api start_end interval in
  get_source_dates weather_api s e i.

(** Lines 57-58. *)
Definition is_all (plant_name : string) : bool :=
  String.eqb (lower plant_name) "all".

Definition resolve_plant_names (mngr : PVSystemManager) (plant_name : string)
  : list string :=
  if is_all plant_name then dict_keys (pv_plants mngr) else [plant_name].

(** Lines 61-66: the column keys, before any plant is looked at. *)
Definition build_columns (all_arg : bool) (pv_plant_names : list string)
  : list ColKey :=
  map (fun pv_plant => ("watt", pv_plant)) pv_plant_names
  ++ map (fun pv_plant => ("watt_hours", pv_plant)) pv_plant_names
  ++ map (fun pv_plant => ("watt_hours_cumsum", pv_plant)) pv_plant_names
  ++ (if all_arg then [("watt_hours", "Total")] else [])
  ++ (if all_arg then [("watt_hours_cumsum", "Total")] else [])
  ++ (if all_arg then [("watt", "Total")] else []).

(** The handler's locals that outlive one turn of the loop: the frame,
    [ac_power] (unbound until a plant was found) and the log.  An
    exception ends the request; what was logged before it is not kept. *)
Record Locals : Type := mkLocals {
  result_df : DataFrame;
  ac_power_var : option (Series string);
  log : list LogRecord
}.

(** Lines 84-90: the two series of a plant, timestamps as strings. *)
Definition power_series (pvplant : PVPlantModel) (datetimes : list Timestamp)
  : Series string :=
  relabel strftime (ac_power (clearsky_run pvplant datetimes)).

Definition energy_series (pvplant : PVPlantModel) (datetimes : list Timestamp)
  : Series string :=
  relabel strftime (ac_energy (clearsky_run pvplant datetimes)).

(** Lines 73-95: one turn of the loop. *)
Definition loop_body (mngr : PVSystemManager) (datetimes : list Timestamp)
           (plant_name : string) (st : Locals) (pv_plant : string) : R Locals :=
  let log1 := log st ++ [InfoEstimating pv_plant] in
  match get_pv_plant mngr pv_plant with
  | None =>
      Ok (mkLocals (result_df st) (ac_power_var st)
                   (log1 ++ [ErrorNoPVSystem plant_name]))
  | Some pvplant =>
      let ac_power := power_series pvplant datetimes in
      let ac_energy := energy_series pvplant datetimes in
      df1 <- setitem (result_df st) ("watt", pv_plant) ac_power Float64 ;;
      df2 <- setitem df1 ("watt_hours", pv_plant) ac_energy Float64 ;;
      df3 <- setitem df2 ("watt_hours_cumsum", pv_plant) (cumsum ac_energy) Float64 ;;
      Ok (mkLocals df3 (Some ac_power) log1)
  end.

Definition run_plants (mngr : PVSystemManager) (datetimes : list Timestamp)
           (plant_name : string) (pv_plant_names : list string) (st : Locals)
  : R Locals :=
  for_each (loop_body mngr datetimes plant_name) pv_plant_names st.

(** Lines 99-101: one [Total] column. *)
Definition add_total (metric : string) (df : DataFrame) : R DataFrame :=
  sub <- getitem_level0 df metric ;;
  setitem df (metric, "Total") (sum_axis1 (df_index df) sub) (sum_dtype df metric).

(** Lines 98-101. *)
Definition add_totals (all_arg : bool) (df : DataFrame) : R DataFrame :=
  if all_arg then
    df1 <- add_total "watt" df ;;
    df2 <- add_total "watt_hours" df1 ;;
    add_total "watt_hours_cumsum" df2
  else Ok df.

(** Lines 104-105. *)
Definition check_nan (df : DataFrame) : R DataFrame :=
  if isnull_any df then Raise (NaNValues df) else Ok df.

(** Lines 47-101: the table with its totals, before the NaN check. *)
Definition aggregate (plant_name : string) (mngr : PVSystemManager)
           (weather_api : WeatherAPI) (start_end : option StartEndRequest)
           (interval : Interval) : R Locals :=
  let log0 := match start_end with None => [InfoNoStartEnd] | Some _ => [] end in
  let datetimes := build_datetimes weather_api start_end interval in
  let all_arg := is_all plant_name in
  let pv_plant_names := resolve_plant_names mngr plant_name in
  let cols := build_columns all_arg pv_plant_names in
  st <- run_plants mngr datetimes plant_name pv_plant_names
                   (mkLocals (empty_frame cols) None log0) ;;
  df <- add_totals all_arg (result_df st) ;;
  Ok (mkLocals df (ac_power_var st) (log st)).

(** Lines 47-105: the table once the NaN check has passed. *)
Definition assemble (plant_name : string) (mngr : PVSystemManager)
           (weather_api : WeatherAPI) (start_end : option StartEndRequest)
           (interval : Interval) : R Locals :=
  st <- aggregate plant_name mngr weather_api start_end interval ;;
  df <- check_nan (result_df st) ;;
  Ok (mkLocals df (ac_power_var st) (log st)).

(** [result_df.T]: one row per column key, its values under the
    timestamps. *)
Definition transpose (f : IntFrame) : list (ColKey * list (string * Z)) :=
  map (fun c => (fst c, combine (if_index f) (snd c))) (if_columns f).

(** Modelled from the spec: one row of the transposed table entering the
    nested view of [multi_idx_to_nested_dict] (routers/helpers.py is not
    among the sources): its timestamps and values go under its plant, under
    its type. *)
Definition nest_row (acc : dict (dict (dict Z))) (row : ColKey * list (string * Z))
  : dict (dict (dict Z)) :=
  let inner := match dict_get (fst (fst row)) acc with
               | Some d => d
               | None => []
               end in
  dict_set (fst (fst row))
           (dict_set (snd (fst row)) (dict_of_items (snd row)) inner) acc.

(** Modelled from the spec: [multi_idx_to_nested_dict] (routers/helpers.py
    is not among the sources) folds the transposed table into
    type -> plant -> timestamp -> value, keys entering each level in the
    order the rows come. *)
Definition multi_idx_to_nested_dict (rows : list (ColKey * list (string * Z)))
  : dict (dict (dict Z)) :=
  fold_left nest_row rows [].

(** [s.index[0]] and [s.index[-1]] of a local that may be unbound. *)
Definition index_first (name : string) (s : option (Series string)) : R string :=
  match s with
  | None => Raise (UnboundLocalError name)
  | Some [] => Raise IndexError
  | Some (e :: _) => Ok (fst e)
  end.

Definition index_last (name : string) (s : option (Series string)) : R string :=
  match s with
  | None => Raise (UnboundLocalError name)
  | Some [] => Raise IndexError
  | Some (e :: rest) => Ok (fst (last rest e))
  end.

(** Lines 108-122. *)
Definition respond (mngr : PVSystemManager) (interval : Interval) (st : Locals)
  : R ClearskyModel :=
  ints <- round_astype_int (result_df st) ;;
  let result := multi_idx_to_nested_dict (transpose ints) in
  first <- index_first "ac_power" (ac_power_var st) ;;
  final <- index_last "ac_power" (ac_power_var st) ;;
  Ok (mkModel interval first final (location_tz mngr) result).

Definition post (plant_name : string) (mngr : PVSystemManager)
           (weather_api : WeatherAPI) (start_end : option StartEndRequest)
           (interval : Interval) : R ClearskyModel :=
  st <- assemble plant_name mngr weather_api start_end interval ;;
  respond mngr interval st.

End Handler.

End Clearsky.

Import Clearsky.

(* ------------------------------------------------------------------ *)
(** ** The laws the table is measured against, in the spec's words *)

Module Spec.

Definition metrics : list string := ["watt"; "watt_hours"; "watt_hours_cumsum"].

(** Equality of cells, numbers taken up to [Qeq]. *)
Definition cell_eq (a b : cell) : Prop :=
  match a, b with
  | Some x, Some y => (x == y)%Q
  | None, None => True
  | _, _ => False
  end.

(** The sum of a list of numbers. *)
Definition sumQ (l : list Q) : Q := fold_right Qplus 0%Q l.

(** The sum over the plants of [m[p][t]]: defined when every term is. *)
Fixpoint sum_cells (l : list cell) : cell :=
  match l with
  | [] => Some 0%Q
  | c :: rest =>
      match c, sum_cells rest with
      | Some x, Some s => Some (x + s)%Q
      | _, _ => None
      end
  end.

Definition plant_sum (df : DataFrame) (metric : string) (plants : list string)
           (i : nat) : cell :=
  sum_cells (map (fun p => df_cell df (metric, p) i) plants).

(** The sum of a column over the positions up to [k]. *)
Fixpoint sum_upto (df : DataFrame) (key : ColKey) (k : nat) : cell :=
  match k with
  | O => sum_cells [df_cell df key 0]
  | S j => sum_cells [sum_upto df key j; df_cell df key (S j)]
  end.

(** The cumulative sum just before position [k]; 0 before the first. *)
Definition cumsum_before (df : DataFrame) (plant : string) (k : nat) : cell :=
  match k with
  | O => Some 0%Q
  | S j => df_cell df ("watt_hours_cumsum", plant) j
  end.

(** Some cell of some column of the table is missing. *)
Definition has_missing (df : DataFrame) : Prop :=
  exists key col i,
    In (key, col) (df_columns df) /\ (i < List.length col)%nat /\ nth i col None = None.

(** Keys in the order of their first occurrence. *)
Definition add_key (acc : list string) (x : string) : list string :=
  if existsb (String.eqb x) acc then acc else acc ++ [x].

Definition first_occurrences (l : list string) : list string :=
  fold_left add_key l [].

(** The keys under one type of a nested view, none when the type has
    not appeared. *)
Definition keys_under {V} (metric : string) (d : dict (dict V)) : list string :=
  match dict_get metric d with
  | Some by_plant => dict_keys by_plant
  | None => []
  end.

(** The sum of [f j] over [j <= k]. *)
Fixpoint sum_to (f : nat -> Q) (k : nat) : Q :=
  match k with
  | O => f 0%nat
  | S j => (sum_to f j + f (S j))%Q
  end.

(** The plants listed under one type of the column index. *)
Definition plants_under (metric : string) (cols : list ColKey) : list string :=
  map snd (filter (fun k => String.eqb metric (fst k)) cols).

(** The last name of the list that the registry knows: the plant whose
    series the loop handled last. *)
Definition last_processed {Timestamp : Type} (mngr : PVSystemManager Timestamp)
           (names : list string) (before : option string) : option string :=
  fold_left (fun acc p => match get_pv_plant mngr p with
                          | Some _ => Some p
                          | None => acc
                          end) names before.

(** Running sums of integers, for the values of a response. *)
Fixpoint running_sums (acc : Z) (l : list Z) : list Z :=
  match l with
  | [] => []
  | x :: rest => (acc + x)%Z :: running_sums (acc + x)%Z rest
  end.

(** The values listed under [result[metric][plant]]. *)
Definition response_values (result : dict (dict (dict Z))) (metric plant : string)
  : list Z :=
  match dict_get metric result with
  | Some by_plant =>
      match dict_get plant by_plant with
      | Some by_time => map snd by_time
      | None => []
      end
  | None => []
  end.

End Spec.

Import Spec.

(* ------------------------------------------------------------------ *)
(** ** Invariants of the frame while the handler runs *)

Module Inv.

(** Every column is as long as the index. *)
Definition well_formed (df : DataFrame) : Prop :=
  Forall (fun c => List.length (snd c) = List.length (df_index df)) (df_columns df).

(** Columns under one key hold the same values, so reading by key agrees
    with reading by position. *)
Definition coherent (cols : list (ColKey * list cell)) : Prop :=
  forall c, In c cols -> column (fst c) cols = Some (snd c).

(** A series as a column of a frame with the given index. *)
Definition align (s : Series string) (index : list string) : list cell :=
  if labels_eqb (labels s) index then values s
  else map (fun l => series_get l s) index.

(** The column under [key] is what assigning [s] to it left there. *)
Definition written (key : ColKey) (s : Series string) (df : DataFrame) : Prop :=
  column key (df_columns df) = Some (align s (df_index df))
  /\ (df_index df = [] -> s = []).

(** No cell under [key] holds a value. *)
Definition unfilled (key : ColKey) (df : DataFrame) : Prop :=
  forall i, df_cell df key i = None.

(** The three columns of one plant are declared. *)
Definition declared (pv_plant : string) (df : DataFrame) : Prop :=
  forall metric, In metric metrics -> In (metric, pv_plant) (df_keys df).

(** What one found plant leaves in its three columns. *)
Definition plant_written {Timestamp : Type} (strftime : Timestamp -> string)
           (datetimes : list Timestamp) (pvplant : PVPlantModel Timestamp)
           (pv_plant : string) (df : DataFrame) : Prop :=
  written ("watt", pv_plant) (power_series strftime pvplant datetimes) df
  /\ written ("watt_hours", pv_plant) (energy_series strftime pvplant datetimes) df
  /\ written ("watt_hours_cumsum", pv_plant)
             (cumsum (energy_series strftime pvplant datetimes)) df.

(** Two states of the locals that differ in the log only. *)
Definition same_data (a b : Locals) : Prop :=
  result_df a = result_df b /\ ac_power_var a = ac_power_var b.

Definition same_outcome (a b : R Locals) : Prop :=
  match a, b with
  | Ok x, Ok y => same_data x y
  | Raise e, Raise e' => e = e'
  | _, _ => False
  end.

(** The three columns of one plant are of dtype [float64]. *)
Definition plant_float64 (pv_plant : string) (df : DataFrame) : Prop :=
  forall metric, In metric metrics -> dtype_of df (metric, pv_plant) = Float64.

(** The [Total] columns have their dtype entry, and it is [object]. *)
Definition total_object (df : DataFrame) : Prop :=
  forall metric, In metric metrics ->
    In (metric, "Total") (map fst (df_dtypes df))
    /\ dtype_of df (metric, "Total") = Object.

End Inv.

Import Inv.

(* ------------------------------------------------------------------ *)
(** ** Reading the rounded frame and the log *)

Module Report.

(** Reading a column and a cell of the frame after [round(0).astype(int)]. *)
Fixpoint int_column (key : ColKey) (cols : list (ColKey * list Z))
  : option (list Z) :=
  match cols with
  | [] => None
  | (k, col) :: rest => if key_eqb key k then Some col else int_column key rest
  end.

Definition if_cell (f : IntFrame) (key : ColKey) (i : nat) : option Z :=
  match int_column key (if_columns f) with
  | Some col => nth_error col i
  | None => None
  end.

(** The rounded cumulative sum just before position [k]; 0 before the
    first. *)
Definition int_cumsum_before (f : IntFrame) (plant : string) (k : nat) : option Z :=
  match k with
  | O => Some 0%Z
  | S j => if_cell f ("watt_hours_cumsum", plant) j
  end.

(** The cell a series gives to row [i] of a frame with the given index:
    its own value there when it carries the index, else its value at the
    label of the row, NaN when it has none. *)
Definition aligned_cell (s : Series string) (index : list string) (i : nat) : cell :=
  if labels_eqb (labels s) index then nth i (values s) None
  else series_get (nth i index "") s.

(** The line logged before the loop (line 51). *)
Definition first_log {Timestamp : Type} (start_end : option (StartEndRequest Timestamp))
  : list LogRecord :=
  match start_end with
  | None => [InfoNoStartEnd]
  | Some _ => []
  end.

(** The lines the loop logs for a list of names (lines 74 and 80). *)
Definition loop_log {Timestamp : Type} (mngr : PVSystemManager Timestamp)
           (plant_name : string) (names : list string) : list LogRecord :=
  flat_map (fun pv_plant =>
              InfoEstimating pv_plant
              :: match get_pv_plant mngr pv_plant with
                 | Some _ => []
                 | None => [ErrorNoPVSystem plant_name]
                 end) names.

End Report.

Import Report.

(* ------------------------------------------------------------------ *)
(** ** Concrete requests *)

Module Examples.

Inductive Every : Type := H1 | M15.

(** Timestamps are hours of 2023-06-01, UTC. *)
Definition digit (n : nat) : ascii := ascii_of_nat (48 + n mod 10).

Definition hour_stamp (n : nat) : string :=
  "2023-06-01T" ++ String (digit (n / 10)) (String (digit n) ":00:00+0000").

Definition t0 : string := "2023-06-01T00:00:00+0000".
Definition t1 : string := "2023-06-01T01:00:00+0000".
Definition t6 : string := "2023-06-01T06:00:00+0000".

Definition q (n : Z) (d : positive) : cell := Some (Qmake n d).

(** A plant that answers every timestamp it is asked for. *)
Definition plant (power energy : nat -> cell) : PVPlantModel nat :=
  mkPlant (fun datetimes =>
             mkForecast (map (fun t => (t, power t)) datetimes)
                        (map (fun t => (t, energy t)) datetimes)).

(** The forecast window is hours 0 and 1; an explicit window is the hours
    from its start up to its end. *)
Definition weather : WeatherAPI nat Every :=
  mkWeather 0 2 (fun s e _ => seq s (e - s)).

(** 100 W then 200 W, half a watt-hour each hour. *)
Definition plant_A : PVPlantModel nat :=
  plant (fun t => q (100 * (Z.of_nat t + 1)) 1) (fun _ => q 1 2).

(** 50 W then 150 W, 1/2 Wh then 3/2 Wh. *)
Definition plant_B : PVPlantModel nat :=
  plant (fun t => q (50 + 100 * Z.of_nat t) 1) (fun t => q (1 + 2 * Z.of_nat t) 2).

(** A plant whose power series has a gap at hour 1. *)
Definition plant_G : PVPlantModel nat :=
  plant (fun t => if (t =? 1)%nat then None else q 100 1) (fun _ => q 1 2).

(** A plant whose series start one timestamp late. *)
Definition plant_L : PVPlantModel nat :=
  mkPlant (fun datetimes =>
             mkForecast (map (fun t => (t, q 100 1)) (tl datetimes))
                        (map (fun t => (t, q 1 1)) (tl datetimes))).

Definition one_plant : PVSystemManager nat :=
  mkManager "UTC" [("A", plant_A)].

Definition two_plants : PVSystemManager nat :=
  mkManager "UTC" [("A", plant_A); ("B", plant_B)].

Definition gappy : PVSystemManager nat :=
  mkManager "UTC" [("G", plant_G)].

Definition late : PVSystemManager nat :=
  mkManager "UTC" [("L", plant_L)].

Definition no_locals : Locals := mkLocals (mkDF [] [] []) None [].

(** The table of [POST /All/H1] over plants A and B, once checked. *)
Definition all_table : Locals :=
  Eval vm_compute in
    match assemble hour_stamp "All" two_plants weather None H1 with
    | Ok st => st
    | Raise _ => no_locals
    end.

(** The response to [POST /All/H1] over plants A and B. *)
Definition all_response : ClearskyModel Every :=
  mkModel H1 t0 t1 "UTC"
    [("watt",
      [("A", [(t0, 100); (t1, 200)]);
       ("B", [(t0, 50); (t1, 150)]);
       ("Total", [(t0, 150); (t1, 350)])]);
     ("watt_hours",
      [("A", [(t0, 0); (t1, 0)]);
       ("B", [(t0, 0); (t1, 2)]);
       ("Total", [(t0, 1); (t1, 2)])]);
     ("watt_hours_cumsum",
      [("A", [(t0, 0); (t1, 1)]);
       ("B", [(t0, 0); (t1, 2)]);
       ("Total", [(t0, 1); (t1, 3)])])]%Z.

(** The response to [POST /all/H1] over plant A alone: energies of one
    half each round to 0, their running sum 1/2, 1 rounds to 0, 1. *)
Definition half_response : ClearskyModel Every :=
  mkModel H1 t0 t1 "UTC"
    [("watt",
      [("A", [(t0, 100); (t1, 200)]);
       ("Total", [(t0, 100); (t1, 200)])]);
     ("watt_hours",
      [("A", [(t0, 0); (t1, 0)]);
       ("Total", [(t0, 0); (t1, 0)])]);
     ("watt_hours_cumsum",
      [("A", [(t0, 0); (t1, 1)]);
       ("Total", [(t0, 0); (t1, 1)])])]%Z.

(** The response to [POST /L/H1] for the window of hours 5 and 6: the
    series of the plant start at hour 6. *)
Definition late_response : ClearskyModel Every :=
  mkModel H1 t6 t6 "UTC"
    [("watt", [("L", [(t6, 100)])]);
     ("watt_hours", [("L", [(t6, 1)])]);
     ("watt_hours_cumsum", [("L", [(t6, 1)])])]%Z.

(** The table of [POST /G/H1] before the NaN check. *)
Definition gappy_table : Locals :=
  Eval vm_compute in
    match aggregate hour_stamp "G" gappy weather None H1 with
    | Ok st => st
    | Raise _ => no_locals
    end.

(** The table of [POST /All/H1] over plants A and B, rounded. *)
Definition all_ints : IntFrame :=
  Eval vm_compute in
    match round_astype_int (result_df all_table) with
    | Ok ints => ints
    | Raise _ => mkIF [] []
    end.

(** A plant without any timestamp in its series. *)
Definition plant_E : PVPlantModel nat :=
  mkPlant (fun _ => mkForecast [] []).

Definition silent : PVSystemManager nat :=
  mkManager "UTC" [("E", plant_E)].

(** A plant that stamps every row with the first timestamp it is asked
    for. *)
Definition plant_D : PVPlantModel nat :=
  mkPlant (fun datetimes =>
             mkForecast (map (fun _ => (hd 0%nat datetimes, q 100 1)) datetimes)
                        (map (fun _ => (hd 0%nat datetimes, q 1 1)) datetimes)).

Definition stuck : PVSystemManager nat :=
  mkManager "UTC" [("A", plant_A); ("D", plant_D)].

(** The table of [POST /A/H1] before the NaN check. *)
Definition single_table : Locals :=
  Eval vm_compute in
    match aggregate hour_stamp "A" one_plant weather None H1 with
    | Ok st => st
    | Raise _ => no_locals
    end.

Definition t5 : string := "2023-06-01T05:00:00+0000".

(** Plant L, whose series start one timestamp late, is registered before
    plant A. *)
Definition late_first : PVSystemManager nat :=
  mkManager "UTC" [("L", plant_L); ("A", plant_A)].

(** The table of [POST /All/H1] for the window of hours 5 and 6 over
    plants L and A, once checked: its only row is hour 6, the first
    timestamp of L. *)
Definition late_first_table : Locals :=
  Eval vm_compute in
    match assemble hour_stamp "All" late_first weather (Some (mkStartEnd 5 7)) H1 with
    | Ok st => st
    | Raise _ => no_locals
    end.

(** The response to that request: it starts at hour 5, which is no row of
    the table; plant A's energy of 1/2 rounds to 0 next to a running sum
    of 1, and the [Total] energy of 3/2 is cut to 1. *)
Definition late_first_response : ClearskyModel Every :=
  mkModel H1 t5 t6 "UTC"
    [("watt",
      [("L", [(t6, 100)]); ("A", [(t6, 700)]); ("Total", [(t6, 800)])]);
     ("watt_hours",
      [("L", [(t6, 1)]); ("A", [(t6, 0)]); ("Total", [(t6, 1)])]);
     ("watt_hours_cumsum",
      [("L", [(t6, 1)]); ("A", [(t6, 1)]); ("Total", [(t6, 2)])])]%Z.

(** That table, rounded. *)
Definition late_first_ints : IntFrame :=
  Eval vm_compute in
    match round_astype_int (result_df late_first_table) with
    | Ok ints => ints
    | Raise _ => mkIF [] []
    end.

End Examples.

Import Examples.

(* ------------------------------------------------------------------ *)
(** * Properties *)

Unset Implicit Arguments.

(** ** Keys, labels and columns *)

Lemma key_eqb_eq (a b : ColKey) : key_eqb a b = true <-> a = b.
Proof.
  destruct a as [a1 a2], b as [b1 b2]; unfold key_eqb; simpl.
  rewrite andb_true_iff, !String.eqb_eq.
  split; [intros [-> ->]; reflexivity | intros E; inversion E; auto].
Qed.

Lemma key_eqb_refl (a : ColKey) : key_eqb a a = true.
Proof. apply key_eqb_eq; reflexivity. Qed.

Lemma key_eqb_neq (a b : ColKey) : key_eqb a b = false <-> a <> b.
Proof.
  rewrite <- key_eqb_eq. destruct (key_eqb a b); split; congruence.
Qed.

Lemma key_eqb_sym (a b : ColKey) : key_eqb a b = key_eqb b a.
Proof.
  destruct (key_eqb a b) eqn:E.
  - apply key_eqb_eq in E; subst; symmetry; apply key_eqb_refl.
  - symmetry; apply key_eqb_neq; apply key_eqb_neq in E; congruence.
Qed.

Lemma labels_eqb_eq (a b : list string) : labels_eqb a b = true <-> a = b.
Proof.
  revert b; induction a as [|x a IH]; intros [|y b]; simpl;
    try (split; intros; (reflexivity || discriminate)).
  rewrite andb_true_iff, String.eqb_eq, IH.
  split; [intros [-> ->]; reflexivity | intros E; inversion E; auto].
Qed.

Lemma labels_eqb_refl (a : list string) : labels_eqb a a = true.
Proof. apply labels_eqb_eq; reflexivity. Qed.

Lemma map_const_repeat {A B} (b : B) (l : list A) :
  map (fun _ => b) l = repeat b (List.length l).
Proof. induction l; simpl; congruence. Qed.

Lemma nth_repeat_none (n i : nat) : nth i (repeat (@None Q) n) None = None.
Proof.
  revert i; induction n; intros [|i]; simpl; auto.
Qed.

Lemma map_nth_seq {A} (d : A) (l : list A) :
  map (fun i => nth i l d) (seq 0 (List.length l)) = l.
Proof.
  induction l as [|x l IH]; simpl; [reflexivity|].
  f_equal. rewrite <- seq_shift, map_map. exact IH.
Qed.

Lemma column_in_keys (key : ColKey) (cols : list (ColKey * list cell)) :
  existsb (fun c => key_eqb key (fst c)) cols = true <-> In key (map fst cols).
Proof.
  rewrite existsb_exists, in_map_iff. split.
  - intros [c [Hin E]]. apply key_eqb_eq in E. exists c; auto.
  - intros [c [E Hin]]. exists c; split; auto. apply key_eqb_eq; auto.
Qed.

Lemma column_some_iff (key : ColKey) (cols : list (ColKey * list cell)) :
  (exists col, column key cols = Some col) <-> In key (map fst cols).
Proof.
  induction cols as [|[k col] cols IH]; simpl.
  - split; [intros [? H]; discriminate | tauto].
  - destruct (key_eqb key k) eqn:E.
    + apply key_eqb_eq in E; subst. split; eauto.
    + apply key_eqb_neq in E. rewrite IH. split; [tauto|]. intros [H|H]; congruence.
Qed.

Lemma column_reset (key : ColKey) (v : list cell) (cols : list (ColKey * list cell)) :
  column key (map (fun c => (fst c, v)) cols)
  = option_map (fun _ => v) (column key cols).
Proof.
  induction cols as [|[k col] cols IH]; simpl; [reflexivity|].
  destruct (key_eqb key k); simpl; auto.
Qed.

Lemma column_set_same (key : ColKey) vals (cols : list (ColKey * list cell)) :
  In key (map fst cols) -> column key (set_column key vals cols) = Some vals.
Proof.
  intros Hin. unfold set_column.
  rewrite (proj2 (column_in_keys key cols) Hin).
  induction cols as [|[k col] cols IH]; simpl in *; [tauto|].
  destruct (key_eqb key k) eqn:E; simpl; rewrite E; [reflexivity|].
  apply IH. destruct Hin as [H|H]; [|exact H].
  apply key_eqb_neq in E; congruence.
Qed.

Lemma column_set_other (k key : ColKey) vals (cols : list (ColKey * list cell)) :
  key_eqb k key = false -> column k (set_column key vals cols) = column k cols.
Proof.
  intros Hk. unfold set_column.
  destruct (existsb _ cols).
  - induction cols as [|[k' col] cols IH]; simpl; [reflexivity|].
    destruct (key_eqb key k') eqn:E; simpl.
    + apply key_eqb_eq in E; subst k'. rewrite Hk. exact IH.
    + destruct (key_eqb k k'); auto.
  - induction cols as [|[k' col] cols IH]; simpl.
    + rewrite Hk; reflexivity.
    + destruct (key_eqb k k'); auto.
Qed.

Lemma keys_set_column (key : ColKey) vals (cols : list (ColKey * list cell)) :
  In key (map fst cols) -> map fst (set_column key vals cols) = map fst cols.
Proof.
  intros Hin. unfold set_column.
  rewrite (proj2 (column_in_keys key cols) Hin).
  rewrite map_map. apply map_ext. intros c. destruct (key_eqb key (fst c)); reflexivity.
Qed.

(** ** Column assignment *)

Lemma ensure_valid_index_cases (df : DataFrame) (s : Series string) :
  (df_index df = [] /\ s <> [] /\
   ensure_valid_index df s
   = mkDF (labels s)
          (map (fun c => (fst c, repeat (@None Q) (List.length s))) (df_columns df))
          (df_dtypes df))
  \/ ((df_index df <> [] \/ s = []) /\ ensure_valid_index df s = df).
Proof.
  unfold ensure_valid_index. destruct (df_index df) as [|l idx] eqn:E.
  - destruct s as [|e s].
    + right; split; [right|]; reflexivity.
    + left; repeat split; discriminate.
  - right; split; [left; discriminate | reflexivity].
Qed.

Lemma labels_nil {L} (s : Series L) : labels s = [] -> s = [].
Proof. destruct s; simpl; [reflexivity | discriminate]. Qed.

Lemma reindex_is_align (df : DataFrame) (s : Series string) (vals : list cell) :
  reindex_for_setitem s (ensure_valid_index df s) = Ok vals ->
  vals = align s (df_index (ensure_valid_index df s)).
Proof.
  unfold reindex_for_setitem, align.
  destruct (labels_eqb (labels s) (df_index (ensure_valid_index df s))) eqn:E; simpl.
  - congruence.
  - destruct (df_index (ensure_valid_index df s)) as [|l idx] eqn:Ei; simpl.
    + exfalso.
      destruct (ensure_valid_index_cases df s) as [(_ & Hs & Hev) | ([Hd | Hs] & Hev)];
        rewrite Hev in Ei; simpl in Ei.
      * apply labels_nil in Ei; contradiction.
      * contradiction.
      * subst s; simpl in E; discriminate.
    + destruct (is_unique (labels s)); [congruence | discriminate].
Qed.

Lemma align_nil (index : list string) :
  align [] index = repeat None (List.length index).
Proof.
  unfold align. destruct index as [|l index]; simpl; [reflexivity|].
  f_equal. apply map_const_repeat.
Qed.

Lemma setitem_ok (df : DataFrame) {dt : dtype} key s df' :
  setitem df key s dt = Ok df' ->
  df_index df' = df_index (ensure_valid_index df s) /\
  df_columns df'
  = set_column key (align s (df_index (ensure_valid_index df s)))
               (df_columns (ensure_valid_index df s)).
Proof.
  unfold setitem.
  destruct (reindex_for_setitem s (ensure_valid_index df s)) as [vals|e] eqn:E; simpl;
    [|discriminate].
  intros H; inversion H; subst df'; simpl.
  rewrite (reindex_is_align _ _ _ E). auto.
Qed.

Lemma setitem_index (df : DataFrame) {dt : dtype} key s df' :
  setitem df key s dt = Ok df' ->
  df_index df' = match df_index df with [] => labels s | _ :: _ => df_index df end.
Proof.
  intros H. apply setitem_ok in H. destruct H as [Hi _]. rewrite Hi.
  destruct (ensure_valid_index_cases df s) as [(Hd & _ & Hev) | ([Hd | Hs] & Hev)];
    rewrite Hev; simpl.
  - rewrite Hd; reflexivity.
  - destruct (df_index df); [contradiction | reflexivity].
  - subst s. destruct (df_index df); reflexivity.
Qed.

Lemma keys_ensure_valid_index (df : DataFrame) s :
  df_keys (ensure_valid_index df s) = df_keys df.
Proof.
  destruct (ensure_valid_index_cases df s) as [(_ & _ & Hev) | (_ & Hev)];
    rewrite Hev; [|reflexivity].
  unfold df_keys; simpl. rewrite map_map. reflexivity.
Qed.

Lemma setitem_keys (df : DataFrame) {dt : dtype} key s df' :
  setitem df key s dt = Ok df' -> In key (df_keys df) -> df_keys df' = df_keys df.
Proof.
  intros H Hin. apply setitem_ok in H. destruct H as [_ Hc].
  unfold df_keys at 1. rewrite Hc, keys_set_column.
  - apply keys_ensure_valid_index.
  - fold (df_keys (ensure_valid_index df s)). rewrite keys_ensure_valid_index. exact Hin.
Qed.

Lemma setitem_written (df : DataFrame) {dt : dtype} key s df' :
  setitem df key s dt = Ok df' -> In key (df_keys df) -> written key s df'.
Proof.
  intros H Hin. pose proof (setitem_index _ _ _ _ H) as Hidx.
  apply setitem_ok in H. destruct H as [Hi Hc]. split.
  - rewrite Hc, Hi. apply column_set_same.
    fold (df_keys (ensure_valid_index df s)). rewrite keys_ensure_valid_index. exact Hin.
  - rewrite Hidx. destruct (df_index df); [apply labels_nil | discriminate].
Qed.

Lemma setitem_keeps_written (df : DataFrame) {dt : dtype} key s df' k s0 :
  setitem df key s dt = Ok df' -> key_eqb k key = false ->
  written k s0 df -> written k s0 df'.
Proof.
  intros H Hk [Hcol Hnil]. apply setitem_ok in H. destruct H as [Hi Hc].
  unfold written. rewrite Hc, Hi, column_set_other by exact Hk.
  destruct (ensure_valid_index_cases df s) as [(Hd & Hs & Hev) | (_ & Hev)];
    rewrite Hev; simpl; [|split; assumption].
  split.
  - rewrite column_reset, Hcol; simpl. rewrite (Hnil Hd), align_nil.
    unfold labels. rewrite length_map. reflexivity.
  - intros El. apply labels_nil in El. contradiction.
Qed.

Lemma setitem_keeps_unfilled (df : DataFrame) {dt : dtype} key s df' k :
  setitem df key s dt = Ok df' -> key_eqb k key = false ->
  unfilled k df -> unfilled k df'.
Proof.
  intros H Hk Hu i. apply setitem_ok in H. destruct H as [Hi Hc].
  unfold df_cell. rewrite Hc, column_set_other by exact Hk.
  destruct (ensure_valid_index_cases df s) as [(Hd & Hs & Hev) | (_ & Hev)];
    rewrite Hev; simpl; [|apply Hu].
  rewrite column_reset. destruct (column k (df_columns df)); simpl; [|reflexivity].
  apply nth_repeat_none.
Qed.

Lemma length_align (s : Series string) (index : list string) :
  List.length (align s index) = List.length index.
Proof.
  unfold align. destruct (labels_eqb (labels s) index) eqn:E.
  - apply labels_eqb_eq in E. rewrite <- E. unfold values, labels.
    rewrite !length_map. reflexivity.
  - apply length_map.
Qed.

Lemma well_formed_ensure_valid_index (df : DataFrame) s :
  well_formed df -> well_formed (ensure_valid_index df s).
Proof.
  intros Hwf.
  destruct (ensure_valid_index_cases df s) as [(_ & _ & Hev) | (_ & Hev)];
    rewrite Hev; [|exact Hwf].
  unfold well_formed; simpl. apply Forall_forall. intros c Hc.
  apply in_map_iff in Hc. destruct Hc as [c0 [<- _]]; simpl.
  unfold labels. rewrite repeat_length, length_map. reflexivity.
Qed.

Lemma setitem_well_formed (df : DataFrame) {dt : dtype} key s df' :
  setitem df key s dt = Ok df' -> well_formed df -> well_formed df'.
Proof.
  intros H Hwf. apply setitem_ok in H. destruct H as [Hi Hc].
  apply (well_formed_ensure_valid_index df s) in Hwf.
  unfold well_formed in *. rewrite Hc, Hi.
  set (df1 := ensure_valid_index df s) in *.
  rewrite Forall_forall in Hwf. apply Forall_forall. intros c Hin.
  unfold set_column in Hin.
  destruct (existsb _ (df_columns df1)).
  - apply in_map_iff in Hin. destruct Hin as [c0 [<- Hin]].
    destruct (key_eqb key (fst c0)); simpl; [apply length_align | apply Hwf; exact Hin].
  - apply in_app_or in Hin. destruct Hin as [Hin | [<- | []]];
      [apply Hwf; exact Hin | apply length_align].
Qed.

Lemma column_app_notin (key : ColKey) (cols more : list (ColKey * list cell)) :
  ~ In key (map fst cols) -> column key (cols ++ more) = column key more.
Proof.
  induction cols as [|[k col] cols IH]; simpl; intros Hn; [reflexivity|].
  destruct (key_eqb key k) eqn:E.
  - apply key_eqb_eq in E. exfalso; apply Hn; left; congruence.
  - apply IH. tauto.
Qed.

Lemma coherent_reset (v : list cell) (cols : list (ColKey * list cell)) :
  coherent (map (fun c => (fst c, v)) cols).
Proof.
  intros c Hin. apply in_map_iff in Hin. destruct Hin as [c0 [<- Hin]]; simpl.
  rewrite column_reset.
  destruct (proj2 (column_some_iff (fst c0) cols) (in_map fst _ _ Hin)) as [col ->].
  reflexivity.
Qed.

Lemma coherent_set_column (key : ColKey) vals (cols : list (ColKey * list cell)) :
  coherent cols -> coherent (set_column key vals cols).
Proof.
  intros Hco c Hin.
  destruct (existsb (fun c0 => key_eqb key (fst c0)) cols) eqn:Ex.
  - assert (Hk : In key (map fst cols)) by (apply column_in_keys; exact Ex).
    unfold set_column in Hin. rewrite Ex in Hin.
    apply in_map_iff in Hin. destruct Hin as [c0 [<- Hin]].
    destruct (key_eqb key (fst c0)) eqn:E; simpl.
    + apply key_eqb_eq in E. rewrite <- E. apply column_set_same; exact Hk.
    + rewrite column_set_other by (rewrite key_eqb_sym; exact E). apply Hco; exact Hin.
  - assert (Hk : ~ In key (map fst cols)).
    { intros H. apply column_in_keys in H. congruence. }
    unfold set_column in *. rewrite Ex in *.
    apply in_app_or in Hin. destruct Hin as [Hin | [<- | []]].
    + assert (Hne : key_eqb (fst c) key = false).
      { apply key_eqb_neq. intros E. apply Hk. rewrite <- E. apply in_map; exact Hin. }
      pose proof (Hco c Hin) as Hc. revert Hc. clear - Hne.
      induction cols as [|[k col] cols IH]; simpl; [discriminate|].
      destruct (key_eqb (fst c) k); auto.
    + simpl. rewrite column_app_notin by exact Hk. simpl.
      rewrite key_eqb_refl. reflexivity.
Qed.

Lemma setitem_coherent (df : DataFrame) {dt : dtype} key s df' :
  setitem df key s dt = Ok df' -> coherent (df_columns df) -> coherent (df_columns df').
Proof.
  intros H Hco. apply setitem_ok in H. destruct H as [_ Hc]. rewrite Hc.
  apply coherent_set_column.
  destruct (ensure_valid_index_cases df s) as [(_ & _ & Hev) | (_ & Hev)];
    rewrite Hev; simpl; [apply coherent_reset | exact Hco].
Qed.

(** ** The loop over the plants *)

Section Loop.

Context {Timestamp : Type} (strftime : Timestamp -> string).
Variable mngr : PVSystemManager Timestamp.
Variable datetimes : list Timestamp.
Variable plant_name : string.

Let body := loop_body strftime mngr datetimes plant_name.
Let run := run_plants strftime mngr datetimes plant_name.

Lemma body_not_found st pv_plant :
  get_pv_plant mngr pv_plant = None ->
  body st pv_plant
  = Ok (mkLocals (result_df st) (ac_power_var st)
                 (log st ++ [InfoEstimating pv_plant; ErrorNoPVSystem plant_name])).
Proof.
  intros H. unfold body, loop_body. rewrite H, <- app_assoc. reflexivity.
Qed.

Lemma body_found st pv_plant pvplant st' :
  get_pv_plant mngr pv_plant = Some pvplant ->
  body st pv_plant = Ok st' ->
  exists df1 df2,
    setitem (result_df st) ("watt", pv_plant)
            (power_series strftime pvplant datetimes) Float64 = Ok df1
    /\ setitem df1 ("watt_hours", pv_plant)
               (energy_series strftime pvplant datetimes) Float64 = Ok df2
    /\ setitem df2 ("watt_hours_cumsum", pv_plant)
               (cumsum (energy_series strftime pvplant datetimes)) Float64
       = Ok (result_df st')
    /\ ac_power_var st' = Some (power_series strftime pvplant datetimes)
    /\ log st' = log st ++ [InfoEstimating pv_plant].
Proof.
  intros Hf. unfold body, loop_body. rewrite Hf.
  destruct (setitem (result_df st) _ _ _) as [df1|] eqn:E1; simpl; [|discriminate].
  destruct (setitem df1 _ _ _) as [df2|] eqn:E2; simpl; [|discriminate].
  destruct (setitem df2 _ _ _) as [df3|] eqn:E3; simpl; [|discriminate].
  intros H; inversion H; subst st'; simpl. exists df1, df2. auto.
Qed.

(** A property of the frame that every assignment to a declared column
    of a found plant keeps is kept by a turn of the loop. *)
Lemma body_keeps (P : DataFrame -> Prop) st pv_plant st' :
  (forall df metric s df',
      In metric metrics -> declared pv_plant df ->
      get_pv_plant mngr pv_plant <> None ->
      setitem df (metric, pv_plant) s Float64 = Ok df' -> P df -> P df') ->
  declared pv_plant (result_df st) ->
  body st pv_plant = Ok st' -> P (result_df st) -> P (result_df st').
Proof.
  intros Hstep Hdecl Hb HP.
  destruct (get_pv_plant mngr pv_plant) as [pvplant|] eqn:Hf.
  - destruct (body_found _ _ _ _ Hf Hb) as (df1 & df2 & E1 & E2 & E3 & _).
    assert (D1 : declared pv_plant df1).
    { intros m Hm. rewrite (setitem_keys _ _ _ _ E1); [apply Hdecl; exact Hm|].
      apply Hdecl; simpl; auto. }
    assert (D2 : declared pv_plant df2).
    { intros m Hm. rewrite (setitem_keys _ _ _ _ E2); [apply D1; exact Hm|].
      apply D1; simpl; auto. }
    assert (Hne : Some pvplant <> None) by discriminate.
    eapply Hstep; [| exact D2 | exact Hne | exact E3 |]; [simpl; auto|].
    eapply Hstep; [| exact D1 | exact Hne | exact E2 |]; [simpl; auto|].
    eapply Hstep; [| exact Hdecl | exact Hne | exact E1 | exact HP]; simpl; auto.
  - rewrite (body_not_found _ _ Hf) in Hb. inversion Hb; subst st'; exact HP.
Qed.

Lemma body_keys st pv_plant st' :
  declared pv_plant (result_df st) -> body st pv_plant = Ok st' ->
  df_keys (result_df st') = df_keys (result_df st).
Proof.
  intros Hdecl Hb.
  apply body_keeps with (P := fun df => df_keys df = df_keys (result_df st))
                        (st := st) (pv_plant := pv_plant); auto.
  intros df m s df' Hm Hd _ Hs Hk. rewrite (setitem_keys _ _ _ _ Hs); auto.
Qed.

Lemma run_keeps (P : DataFrame -> Prop) names :
  (forall pv_plant df metric s df',
      In pv_plant names -> In metric metrics -> declared pv_plant df ->
      get_pv_plant mngr pv_plant <> None ->
      setitem df (metric, pv_plant) s Float64 = Ok df' -> P df -> P df') ->
  forall st st',
    (forall p, In p names -> declared p (result_df st)) ->
    run names st = Ok st' -> P (result_df st) -> P (result_df st').
Proof.
  unfold run, run_plants.
  induction names as [|x names IH]; intros Hstep st st' Hdecl Hr HP; simpl in Hr.
  - inversion Hr; subst; exact HP.
  - destruct (loop_body strftime mngr datetimes plant_name st x) as [st1|] eqn:Hb;
      simpl in Hr; [|discriminate].
    assert (Hx : declared x (result_df st)) by (apply Hdecl; left; reflexivity).
    apply IH with (st := st1).
    + intros p df m s df' Hp. apply Hstep. right; exact Hp.
    + intros p Hp. unfold declared. rewrite (body_keys st x st1 Hx Hb).
      apply Hdecl; right; exact Hp.
    + exact Hr.
    + apply body_keeps with (P := P) (st := st) (pv_plant := x); auto.
      intros df m s df'. apply Hstep. left; reflexivity.
Qed.

End Loop.

Ltac other_plant :=
  apply key_eqb_neq; let E := fresh in intros E; inversion E; congruence.

Section LoopFacts.

Context {Timestamp : Type} (strftime : Timestamp -> string).
Variable mngr : PVSystemManager Timestamp.
Variable datetimes : list Timestamp.
Variable plant_name : string.

Let body := loop_body strftime mngr datetimes plant_name.
Let run := run_plants strftime mngr datetimes plant_name.

Lemma run_keys names st st' :
  (forall p, In p names -> declared p (result_df st)) ->
  run names st = Ok st' -> df_keys (result_df st') = df_keys (result_df st).
Proof.
  intros Hdecl Hr.
  apply run_keeps with (strftime := strftime) (mngr := mngr) (datetimes := datetimes)
    (plant_name := plant_name) (names := names) (st := st)
    (P := fun df => df_keys df = df_keys (result_df st)); auto.
  intros p df m s df' _ Hm Hd _ Hs Hk. rewrite (setitem_keys _ _ _ _ Hs); auto.
Qed.

Lemma run_well_formed names st st' :
  (forall p, In p names -> declared p (result_df st)) ->
  run names st = Ok st' -> well_formed (result_df st) -> well_formed (result_df st').
Proof.
  intros Hdecl Hr.
  apply run_keeps with (strftime := strftime) (mngr := mngr) (datetimes := datetimes)
    (plant_name := plant_name) (names := names) (st := st) (P := well_formed); auto.
  intros p df m s df' _ _ _ _ Hs. apply (setitem_well_formed _ _ _ _ Hs).
Qed.

Lemma run_coherent names st st' :
  (forall p, In p names -> declared p (result_df st)) ->
  run names st = Ok st' ->
  coherent (df_columns (result_df st)) -> coherent (df_columns (result_df st')).
Proof.
  intros Hdecl Hr.
  apply run_keeps with (strftime := strftime) (mngr := mngr) (datetimes := datetimes)
    (plant_name := plant_name) (names := names) (st := st)
    (P := fun df => coherent (df_columns df)); auto.
  intros p df m s df' _ _ _ _ Hs. apply (setitem_coherent _ _ _ _ Hs).
Qed.

(** A column that no found plant of the list owns stays without values. *)
Lemma run_unfilled k names st st' :
  (forall p, In p names -> declared p (result_df st)) ->
  (forall p, In p names -> get_pv_plant mngr p <> None -> snd k <> p) ->
  run names st = Ok st' -> unfilled k (result_df st) -> unfilled k (result_df st').
Proof.
  intros Hdecl Hk Hr.
  apply run_keeps with (strftime := strftime) (mngr := mngr) (datetimes := datetimes)
    (plant_name := plant_name) (names := names) (st := st) (P := unfilled k); auto.
  intros p df m s df' Hp _ _ Hf Hs. apply (setitem_keeps_unfilled _ _ _ _ _ Hs).
  apply key_eqb_neq. intros E. apply (Hk p Hp Hf). rewrite E. reflexivity.
Qed.

(** Once the frame has rows its index is settled. *)
Lemma run_index names st st' :
  (forall p, In p names -> declared p (result_df st)) ->
  run names st = Ok st' -> df_index (result_df st) <> [] ->
  df_index (result_df st') = df_index (result_df st).
Proof.
  intros Hdecl Hr Hne.
  apply run_keeps with (strftime := strftime) (mngr := mngr) (datetimes := datetimes)
    (plant_name := plant_name) (names := names) (st := st)
    (P := fun df => df_index df = df_index (result_df st)); auto.
  intros p df m s df' _ _ _ _ Hs Hi. rewrite (setitem_index _ _ _ _ Hs), Hi.
  destruct (df_index (result_df st)); [contradiction | reflexivity].
Qed.

Lemma body_written st pv_plant pvplant st' :
  get_pv_plant mngr pv_plant = Some pvplant ->
  declared pv_plant (result_df st) ->
  body st pv_plant = Ok st' ->
  plant_written strftime datetimes pvplant pv_plant (result_df st').
Proof.
  intros Hf Hdecl Hb.
  destruct (body_found _ _ _ _ _ _ _ _ Hf Hb) as (df1 & df2 & E1 & E2 & E3 & _).
  assert (K1 : df_keys df1 = df_keys (result_df st)).
  { apply (setitem_keys _ _ _ _ E1). apply Hdecl; simpl; auto. }
  assert (K2 : df_keys df2 = df_keys (result_df st)).
  { rewrite <- K1. apply (setitem_keys _ _ _ _ E2). rewrite K1. apply Hdecl; simpl; auto. }
  assert (W1 : written ("watt", pv_plant)
                       (power_series strftime pvplant datetimes) df1).
  { apply (setitem_written _ _ _ _ E1). apply Hdecl; simpl; auto. }
  assert (W2 : written ("watt_hours", pv_plant)
                       (energy_series strftime pvplant datetimes) df2).
  { apply (setitem_written _ _ _ _ E2). rewrite K1. apply Hdecl; simpl; auto. }
  split; [|split].
  - apply (setitem_keeps_written _ _ _ _ _ _ E3); [reflexivity|].
    apply (setitem_keeps_written _ _ _ _ _ _ E2); [reflexivity | exact W1].
  - apply (setitem_keeps_written _ _ _ _ _ _ E3); [reflexivity | exact W2].
  - apply (setitem_written _ _ _ _ E3). rewrite K2. apply Hdecl; simpl; auto.
Qed.

Lemma body_keeps_written st x st' p pvplant :
  p <> x -> declared x (result_df st) -> body st x = Ok st' ->
  plant_written strftime datetimes pvplant p (result_df st) ->
  plant_written strftime datetimes pvplant p (result_df st').
Proof.
  intros Hne Hdecl Hb.
  apply body_keeps with (strftime := strftime) (mngr := mngr) (datetimes := datetimes)
    (plant_name := plant_name) (st := st) (pv_plant := x)
    (P := plant_written strftime datetimes pvplant p); auto.
  intros df m s df' _ _ _ Hs (W1 & W2 & W3).
  split; [|split]; apply (setitem_keeps_written _ _ _ _ _ _ Hs); auto; other_plant.
Qed.

(** Every found plant of the list has its three series in the frame the
    loop ends with. *)
Lemma run_written names : forall st st' p pvplant,
  (forall x, In x names -> declared x (result_df st)) ->
  run names st = Ok st' ->
  get_pv_plant mngr p = Some pvplant ->
  In p names \/ plant_written strftime datetimes pvplant p (result_df st) ->
  plant_written strftime datetimes pvplant p (result_df st').
Proof.
  unfold run, run_plants.
  induction names as [|x names IH]; intros st st' p pvplant Hdecl Hr Hf Hp; simpl in Hr.
  - inversion Hr; subst. destruct Hp as [[]|Hp]; exact Hp.
  - destruct (loop_body strftime mngr datetimes plant_name st x) as [st1|] eqn:Hb;
      simpl in Hr; [|discriminate].
    assert (Hx : declared x (result_df st)) by (apply Hdecl; left; reflexivity).
    apply IH with (st := st1); auto.
    + intros y Hy. unfold declared. rewrite (body_keys strftime _ _ _ st x st1 Hx Hb).
      apply Hdecl; right; exact Hy.
    + destruct (string_dec p x) as [->|Hne].
      * right. apply (body_written st x pvplant st1 Hf Hx Hb).
      * destruct Hp as [[E|Hp]|Hp]; [congruence | left; exact Hp | right].
        apply (body_keeps_written st x st1 p pvplant Hne Hx Hb Hp).
Qed.

(** [ac_power] is bound to the power series of the plant handled last. *)
Lemma run_ac_power names : forall st st' before,
  run names st = Ok st' ->
  match before with
  | Some p => exists pvplant, get_pv_plant mngr p = Some pvplant
                /\ ac_power_var st = Some (power_series strftime pvplant datetimes)
  | None => ac_power_var st = None
  end ->
  match last_processed mngr names before with
  | Some p => exists pvplant, get_pv_plant mngr p = Some pvplant
                /\ ac_power_var st' = Some (power_series strftime pvplant datetimes)
  | None => ac_power_var st' = None
  end.
Proof.
  unfold run, run_plants, last_processed.
  induction names as [|x names IH]; intros st st' before Hr Hb; simpl in *.
  - inversion Hr; subst; exact Hb.
  - destruct (loop_body strftime mngr datetimes plant_name st x) as [st1|] eqn:Hx;
      simpl in Hr; [|discriminate].
    apply IH with (st := st1); [exact Hr|].
    destruct (get_pv_plant mngr x) as [pvplant|] eqn:Hf.
    + destruct (body_found strftime _ _ _ _ _ _ _ Hf Hx) as (_ & _ & _ & _ & _ & Hp & _).
      exists pvplant; auto.
    + rewrite (body_not_found strftime _ _ _ _ _ Hf) in Hx.
      inversion Hx; subst st1; simpl. exact Hb.
Qed.

Lemma body_same_data a b x :
  same_data a b -> same_outcome (body a x) (body b x).
Proof.
  intros [Hd Hp]. unfold body, loop_body. rewrite Hd, Hp.
  destruct (get_pv_plant mngr x) as [pvplant|]; [|split; reflexivity].
  destruct (setitem (result_df b) _ _ _) as [df1|]; simpl; [|reflexivity].
  destruct (setitem df1 _ _ _) as [df2|]; simpl; [|reflexivity].
  destruct (setitem df2 _ _ _) as [df3|]; simpl; [|reflexivity].
  split; reflexivity.
Qed.

Lemma run_same_data names : forall a b,
  same_data a b -> same_outcome (run names a) (run names b).
Proof.
  unfold run, run_plants.
  induction names as [|x names IH]; intros a b Hab; simpl; [exact Hab|].
  pose proof (body_same_data a b x Hab) as Hx. unfold body in Hx.
  destruct (loop_body strftime mngr datetimes plant_name a x) as [a1|ea];
    destruct (loop_body strftime mngr datetimes plant_name b x) as [b1|eb];
    simpl in *; try contradiction; auto.
Qed.

End LoopFacts.

Lemma for_each_app {E S X} (body : S -> X -> Result E S) (l1 l2 : list X) (st : S) :
  for_each body (l1 ++ l2) st = bind (for_each body l1 st) (for_each body l2).
Proof.
  revert st; induction l1 as [|x l1 IH]; intros st; simpl; [reflexivity|].
  destruct (body st x); simpl; auto.
Qed.

(** ** Row sums and the [Total] columns *)

Lemma labels_sum_axis1 (index : list string) sub :
  labels (sum_axis1 index sub) = index.
Proof.
  unfold labels, sum_axis1. rewrite map_map; simpl. apply map_nth_seq.
Qed.

Lemma nth_values_sum_axis1 (index : list string) sub i :
  (i < List.length index)%nat ->
  nth i (values (sum_axis1 index sub)) None
  = Some (nansum (map (fun c => nth i (snd c) None) sub)).
Proof.
  intros Hi. unfold values, sum_axis1. rewrite map_map; simpl.
  set (f := fun j => Some (nansum (map (fun c : string * list cell => nth j (snd c) None) sub))).
  rewrite (nth_indep _ None (f 0%nat)) by (rewrite length_map, length_seq; exact Hi).
  rewrite (map_nth f), seq_nth by exact Hi. reflexivity.
Qed.

Lemma ensure_valid_index_same (df : DataFrame) (s : Series string) :
  (df_index df = [] -> s = []) -> ensure_valid_index df s = df.
Proof.
  intros H.
  destruct (ensure_valid_index_cases df s) as [(Hd & Hs & _) | (_ & Hev)];
    [exfalso; auto | exact Hev].
Qed.

Lemma row_by_key (all_cols : list (ColKey * list cell)) (f : ColKey -> bool) (i : nat)
      (df : DataFrame) (cols : list (ColKey * list cell)) :
  df_columns df = all_cols -> coherent all_cols -> incl cols all_cols ->
  map (fun c => nth i (snd c) None) (filter (fun c => f (fst c)) cols)
  = map (fun k => df_cell df k i) (@filter ColKey f (map fst cols)).
Proof.
  intros Hdf Hco. induction cols as [|c cols IH]; intros Hincl; simpl; [reflexivity|].
  assert (Hrest : incl cols all_cols) by (intros x Hx; apply Hincl; right; exact Hx).
  destruct (f (fst c)); simpl; rewrite (IH Hrest); [|reflexivity].
  f_equal. unfold df_cell. rewrite Hdf, (Hco c); [reflexivity|].
  apply Hincl; left; reflexivity.
Qed.

Lemma add_total_spec (metric : string) (df df' : DataFrame) :
  coherent (df_columns df) ->
  add_total metric df = Ok df' ->
  df_index df' = df_index df
  /\ df_columns df'
     = set_column (metric, "Total")
         (values (sum_axis1 (df_index df)
            (map (fun c => (snd (fst c), snd c))
               (filter (fun c => String.eqb metric (fst (fst c))) (df_columns df)))))
         (df_columns df)
  /\ forall i, (i < List.length (df_index df))%nat ->
       nth i (values (sum_axis1 (df_index df)
            (map (fun c => (snd (fst c), snd c))
               (filter (fun c => String.eqb metric (fst (fst c))) (df_columns df)))))
           None
       = Some (nansum (map (fun k => df_cell df k i)
                           (filter (fun k : ColKey => String.eqb metric (fst k)) (df_keys df)))).
Proof.
  intros Hco. unfold add_total, getitem_level0.
  set (sub := filter (fun c => String.eqb metric (fst (fst c))) (df_columns df)).
  assert (Hrow : forall i,
     map (fun c : string * list cell => nth i (snd c) None)
         (map (fun c : ColKey * list cell => (snd (fst c), snd c)) sub)
     = map (fun k => df_cell df k i)
           (filter (fun k : ColKey => String.eqb metric (fst k)) (df_keys df))).
  { intros i. rewrite map_map; simpl. unfold sub, df_keys.
    apply (row_by_key (df_columns df) (fun k : ColKey => String.eqb metric (fst k)) i df);
      auto using incl_refl. }
  destruct sub as [|c0 sub0] eqn:Esub; simpl; [discriminate|].
  fold (map (fun c : ColKey * list cell => (snd (fst c), snd c)) (c0 :: sub0)).
  intros H. apply setitem_ok in H.
  rewrite ensure_valid_index_same in H.
  - destruct H as [Hi Hc]. split; [exact Hi|]. split.
    + rewrite Hc. f_equal. unfold align.
      rewrite labels_sum_axis1, labels_eqb_refl. reflexivity.
    + intros i Hlt. rewrite nth_values_sum_axis1 by exact Hlt. rewrite Hrow. reflexivity.
  - intros Hd. rewrite Hd. reflexivity.
Qed.

Lemma add_total_is_setitem (metric : string) (df df' : DataFrame) :
  add_total metric df = Ok df' ->
  exists s, setitem df (metric, "Total") s (sum_dtype df metric) = Ok df'.
Proof.
  unfold add_total. destruct (getitem_level0 df metric) as [sub|]; simpl; [|discriminate].
  eauto.
Qed.

Lemma filter_tagged (m m' : string) (names : list string) :
  filter (fun k : ColKey => String.eqb m (fst k)) (map (fun p => (m', p)) names)
  = if String.eqb m m' then map (fun p => (m', p)) names else [].
Proof.
  induction names as [|p names IH]; simpl; [destruct (String.eqb m m'); reflexivity|].
  rewrite IH. destruct (String.eqb m m'); reflexivity.
Qed.

Lemma columns_under (metric : string) (names : list string) :
  In metric metrics ->
  filter (fun k : ColKey => String.eqb metric (fst k)) (build_columns true names)
  = map (fun p => (metric, p)) names ++ [(metric, "Total")].
Proof.
  intros Hm. unfold build_columns. rewrite !filter_app, !filter_tagged.
  destruct Hm as [<- | [<- | [<- | []]]]; simpl; rewrite ?app_nil_r; reflexivity.
Qed.

Lemma columns_under_single (metric : string) (names : list string) :
  In metric metrics ->
  filter (fun k : ColKey => String.eqb metric (fst k)) (build_columns false names)
  = map (fun p => (metric, p)) names.
Proof.
  intros Hm. unfold build_columns. rewrite !filter_app, !filter_tagged.
  destruct Hm as [<- | [<- | [<- | []]]]; simpl; rewrite ?app_nil_r; reflexivity.
Qed.

Lemma nansum_plants (df : DataFrame) (metric : string) (names : list string) (i : nat) :
  df_cell df (metric, "Total") i = None ->
  (nansum (map (fun k => df_cell df k i)
               (map (fun p => (metric, p)) names ++ [(metric, "Total")]))
   == sumQ (map (fun p => nan_to_zero (df_cell df (metric, p) i)) names))%Q.
Proof.
  intros Ht. induction names as [|p names IH]; simpl.
  - rewrite Ht; simpl. ring.
  - unfold nansum in IH. rewrite IH. reflexivity.
Qed.

Lemma add_total_step (metric : string) (names : list string) (df df' : DataFrame) :
  coherent (df_columns df) ->
  filter (fun k : ColKey => String.eqb metric (fst k)) (df_keys df)
  = map (fun p => (metric, p)) names ++ [(metric, "Total")] ->
  unfilled (metric, "Total") df ->
  add_total metric df = Ok df' ->
  df_index df' = df_index df
  /\ df_keys df' = df_keys df
  /\ (forall k, key_eqb k (metric, "Total") = false ->
        column k (df_columns df') = column k (df_columns df))
  /\ (forall i, (i < List.length (df_index df))%nat ->
        exists total, df_cell df' (metric, "Total") i = Some total
          /\ (total == sumQ (map (fun p => nan_to_zero (df_cell df (metric, p) i)) names))%Q).
Proof.
  intros Hco Hf Hu H.
  assert (Hin : In (metric, "Total") (df_keys df)).
  { assert (Hin' : In (metric, "Total")
                     (filter (fun k : ColKey => String.eqb metric (fst k)) (df_keys df))).
    { rewrite Hf. apply in_or_app; right; left; reflexivity. }
    apply filter_In in Hin'. tauto. }
  destruct (add_total_is_setitem _ _ _ H) as [s Hs].
  destruct (add_total_spec _ _ _ Hco H) as (Hi & Hc & Hn).
  repeat split.
  - exact Hi.
  - apply (setitem_keys _ _ _ _ Hs Hin).
  - intros k Hk. rewrite Hc. apply column_set_other; exact Hk.
  - intros i Hlt. unfold df_cell at 1. rewrite Hc, column_set_same by exact Hin.
    rewrite (Hn i Hlt), Hf. eexists; split; [reflexivity|].
    apply nansum_plants. apply Hu.
Qed.

Lemma df_cell_column (df df' : DataFrame) (k : ColKey) :
  column k (df_columns df') = column k (df_columns df) ->
  forall i, df_cell df' k i = df_cell df k i.
Proof. intros H i. unfold df_cell. rewrite H. reflexivity. Qed.

(** Lines 98-101 in "all" mode: the three totals are row sums of the plant
    columns, which stay as they were. *)
Lemma add_totals_spec (names : list string) (df df' : DataFrame) :
  coherent (df_columns df) ->
  df_keys df = build_columns true names ->
  ~ In "Total" names ->
  (forall metric, In metric metrics -> unfilled (metric, "Total") df) ->
  add_totals true df = Ok df' ->
  df_index df' = df_index df
  /\ df_keys df' = df_keys df
  /\ (forall k, snd k <> "Total" ->
        column k (df_columns df') = column k (df_columns df))
  /\ (forall metric i, In metric metrics -> (i < List.length (df_index df))%nat ->
        exists total, df_cell df' (metric, "Total") i = Some total
          /\ (total == sumQ (map (fun p => nan_to_zero (df_cell df (metric, p) i)) names))%Q).
Proof.
  intros Hco Hk Hnt Hu. unfold add_totals.
  destruct (add_total "watt" df) as [df1|] eqn:E1; simpl; [|discriminate].
  destruct (add_total "watt_hours" df1) as [df2|] eqn:E2; simpl; [|discriminate].
  intros E3.
  assert (F : forall m d, In m metrics -> df_keys d = df_keys df ->
            filter (fun k : ColKey => String.eqb m (fst k)) (df_keys d)
            = map (fun p => (m, p)) names ++ [(m, "Total")]).
  { intros m d Hm Hd. rewrite Hd, Hk. apply columns_under; exact Hm. }
  assert (M1 : In "watt" metrics) by (simpl; auto).
  assert (M2 : In "watt_hours" metrics) by (simpl; auto).
  assert (M3 : In "watt_hours_cumsum" metrics) by (simpl; auto).
  destruct (add_total_step "watt" names df df1 Hco (F _ df M1 eq_refl) (Hu _ M1) E1)
    as (I1 & K1 & O1 & T1).
  assert (Hco1 : coherent (df_columns df1)).
  { destruct (add_total_is_setitem _ _ _ E1) as [s Hs].
    apply (setitem_coherent _ _ _ _ Hs Hco). }
  assert (U1 : unfilled ("watt_hours", "Total") df1).
  { intros i. rewrite (df_cell_column df df1); [apply Hu; exact M2 | apply O1; reflexivity]. }
  destruct (add_total_step "watt_hours" names df1 df2 Hco1 (F _ df1 M2 K1) U1 E2)
    as (I2 & K2 & O2 & T2).
  assert (Hco2 : coherent (df_columns df2)).
  { destruct (add_total_is_setitem _ _ _ E2) as [s Hs].
    apply (setitem_coherent _ _ _ _ Hs Hco1). }
  assert (U2 : unfilled ("watt_hours_cumsum", "Total") df2).
  { intros i. rewrite (df_cell_column df1 df2), (df_cell_column df df1);
      [apply Hu; exact M3 | apply O1; reflexivity | apply O2; reflexivity]. }
  destruct (add_total_step "watt_hours_cumsum" names df2 df'
              Hco2 (F _ df2 M3 (eq_trans K2 K1)) U2 E3) as (I3 & K3 & O3 & T3).
  assert (Hplant : forall k, snd k <> "Total" ->
            column k (df_columns df') = column k (df_columns df)
            /\ column k (df_columns df2) = column k (df_columns df)
            /\ column k (df_columns df1) = column k (df_columns df)).
  { intros k Hne.
    assert (N : forall m, key_eqb k (m, "Total") = false).
    { intros m. apply key_eqb_neq. intros E. apply Hne. rewrite E. reflexivity. }
    rewrite (O3 k (N _)), (O2 k (N _)), (O1 k (N _)). auto. }
  assert (Hsum : forall (d : DataFrame) m i,
            (forall k, snd k <> "Total" ->
                       column k (df_columns d) = column k (df_columns df)) ->
            map (fun p => nan_to_zero (df_cell d (m, p) i)) names
            = map (fun p => nan_to_zero (df_cell df (m, p) i)) names).
  { intros d m i Hd. apply map_ext_in. intros p Hp.
    rewrite (df_cell_column df d); [reflexivity|]. apply Hd. simpl. congruence. }
  repeat split.
  - congruence.
  - congruence.
  - intros k Hne. apply Hplant; exact Hne.
  - intros m i Hm Hlt. destruct Hm as [<- | [<- | [<- | []]]].
    + destruct (T1 i Hlt) as (t & Ht & Hq). exists t. split; [|exact Hq].
      rewrite (df_cell_column df2 df'), (df_cell_column df1 df2); auto.
    + destruct (T2 i ltac:(rewrite I1; exact Hlt)) as (t & Ht & Hq). exists t. split.
      * rewrite (df_cell_column df2 df'); auto.
      * rewrite Hq, (Hsum df1); [reflexivity|]. intros k Hne. apply Hplant; exact Hne.
    + destruct (T3 i ltac:(rewrite I2, I1; exact Hlt)) as (t & Ht & Hq). exists t.
      split; [exact Ht|].
      rewrite Hq, (Hsum df2); [reflexivity|]. intros k Hne. apply Hplant; exact Hne.
Qed.

(** ** The table the handler starts from *)

Lemma empty_frame_keys (cols : list ColKey) : df_keys (empty_frame cols) = cols.
Proof.
  unfold df_keys, empty_frame; simpl. rewrite map_map; simpl. apply map_id.
Qed.

Lemma empty_frame_well_formed (cols : list ColKey) : well_formed (empty_frame cols).
Proof.
  unfold well_formed, empty_frame; simpl. apply Forall_forall. intros c Hc.
  apply in_map_iff in Hc. destruct Hc as [k [<- _]]. reflexivity.
Qed.

Lemma empty_frame_column (k : ColKey) (cols : list ColKey) :
  column k (df_columns (empty_frame cols)) = if existsb (key_eqb k) cols then Some [] else None.
Proof.
  unfold empty_frame; simpl. induction cols as [|k' cols IH]; simpl; [reflexivity|].
  destruct (key_eqb k k'); simpl; auto.
Qed.

Lemma empty_frame_coherent (cols : list ColKey) :
  coherent (df_columns (empty_frame cols)).
Proof.
  intros c Hc. rewrite empty_frame_column.
  unfold empty_frame in Hc; simpl in Hc. apply in_map_iff in Hc.
  destruct Hc as [k [<- Hk]]; simpl.
  replace (existsb (key_eqb k) cols) with true; [reflexivity|].
  symmetry. apply existsb_exists. exists k. split; [exact Hk | apply key_eqb_refl].
Qed.

Lemma empty_frame_unfilled (k : ColKey) (cols : list ColKey) :
  unfilled k (empty_frame cols).
Proof.
  intros i. unfold df_cell. rewrite empty_frame_column.
  destruct (existsb (key_eqb k) cols); [destruct i|]; reflexivity.
Qed.

Lemma declared_build_columns (all_arg : bool) (names : list string) (p : string) :
  In p names -> declared p (empty_frame (build_columns all_arg names)).
Proof.
  intros Hp m Hm. rewrite empty_frame_keys. unfold build_columns.
  destruct Hm as [<- | [<- | [<- | []]]].
  - apply in_or_app; left. apply in_map; exact Hp.
  - apply in_or_app; right. apply in_or_app; left. apply in_map; exact Hp.
  - apply in_or_app; right. apply in_or_app; right. apply in_or_app; left.
    apply in_map; exact Hp.
Qed.

(** ** The NaN check *)

Lemma existsb_is_nan (col : list cell) :
  existsb is_nan col = true <-> exists i, (i < List.length col)%nat /\ nth i col None = None.
Proof.
  rewrite existsb_exists. split.
  - intros [c [Hin Hc]]. destruct c; [discriminate|].
    destruct (In_nth _ _ None Hin) as [i [Hi Hn]]. eauto.
  - intros [i [Hi Hn]]. exists None. split; [|reflexivity].
    rewrite <- Hn. apply nth_In; exact Hi.
Qed.

Lemma isnull_any_iff (df : DataFrame) : isnull_any df = true <-> has_missing df.
Proof.
  unfold isnull_any, has_missing. rewrite existsb_exists. split.
  - intros [[k col] [Hin Hc]]. simpl in Hc. apply existsb_is_nan in Hc.
    destruct Hc as [i [Hi Hn]]. exists k, col, i. auto.
  - intros (k & col & i & Hin & Hi & Hn). exists (k, col). split; [exact Hin|].
    simpl. apply existsb_is_nan. eauto.
Qed.

Lemma column_in (k : ColKey) (cols : list (ColKey * list cell)) (col : list cell) :
  column k cols = Some col -> In (k, col) cols.
Proof.
  induction cols as [|[k' c] cols IH]; simpl; [discriminate|].
  destruct (key_eqb k k') eqn:E.
  - apply key_eqb_eq in E. intros H; inversion H; subst. left; reflexivity.
  - intros H. right. apply IH; exact H.
Qed.

Lemma no_missing_cell (df : DataFrame) (k : ColKey) (i : nat) :
  isnull_any df = false -> well_formed df -> In k (df_keys df) ->
  (i < List.length (df_index df))%nat ->
  exists v, df_cell df k i = Some v.
Proof.
  intros Hn Hwf Hk Hi.
  destruct (proj2 (column_some_iff k (df_columns df)) Hk) as [col Hcol].
  unfold df_cell. rewrite Hcol.
  pose proof (column_in _ _ _ Hcol) as Hin.
  unfold well_formed in Hwf. rewrite Forall_forall in Hwf.
  pose proof (Hwf _ Hin) as Hlen; simpl in Hlen.
  destruct (nth i col None) as [v|] eqn:Ev; [eauto|].
  exfalso. assert (Hm : isnull_any df = true).
  { apply isnull_any_iff. exists k, col, i. rewrite Hlen. auto. }
  congruence.
Qed.

Lemma check_nan_ok (df df' : DataFrame) :
  check_nan df = Ok df' -> df' = df /\ isnull_any df = false.
Proof.
  unfold check_nan. destruct (isnull_any df); [discriminate|].
  intros H; inversion H; auto.
Qed.

Lemma sum_cells_defined (l : list cell) :
  Forall (fun c => exists v, c = Some v) l ->
  sum_cells l = Some (sumQ (map nan_to_zero l)).
Proof.
  induction 1 as [|c l [v ->] _ IH]; simpl; [reflexivity|].
  rewrite IH. reflexivity.
Qed.

Lemma add_totals_keeps (P : DataFrame -> Prop) (all_arg : bool) (df df' : DataFrame) :
  (forall d metric s d',
      setitem d (metric, "Total") s (sum_dtype d metric) = Ok d' -> P d -> P d') ->
  add_totals all_arg df = Ok df' -> P df -> P df'.
Proof.
  intros Hstep. unfold add_totals. destruct all_arg; [|intros H; inversion H; auto].
  destruct (add_total "watt" df) as [df1|] eqn:E1; simpl; [|discriminate].
  destruct (add_total "watt_hours" df1) as [df2|] eqn:E2; simpl; [|discriminate].
  intros E3 HP.
  destruct (add_total_is_setitem _ _ _ E1) as [s1 H1].
  destruct (add_total_is_setitem _ _ _ E2) as [s2 H2].
  destruct (add_total_is_setitem _ _ _ E3) as [s3 H3].
  eauto.
Qed.

Lemma total_declared (names : list string) (metric : string) :
  In metric metrics -> In (metric, "Total") (build_columns true names).
Proof.
  intros Hm. unfold build_columns. rewrite !app_assoc.
  destruct Hm as [<- | [<- | [<- | []]]].
  - apply in_or_app; right; left; reflexivity.
  - apply in_or_app; left. apply in_or_app; left. apply in_or_app; right; left; reflexivity.
  - apply in_or_app; left. apply in_or_app; right; left; reflexivity.
Qed.

Lemma add_totals_keys (all_arg : bool) (df df' : DataFrame) :
  (all_arg = true -> forall m, In m metrics -> In (m, "Total") (df_keys df)) ->
  add_totals all_arg df = Ok df' -> df_keys df' = df_keys df.
Proof.
  intros Hin. unfold add_totals. destruct all_arg; [|intros H; inversion H; auto].
  specialize (Hin eq_refl).
  destruct (add_total "watt" df) as [df1|] eqn:E1; simpl; [|discriminate].
  destruct (add_total "watt_hours" df1) as [df2|] eqn:E2; simpl; [|discriminate].
  intros E3.
  destruct (add_total_is_setitem _ _ _ E1) as [s1 H1].
  destruct (add_total_is_setitem _ _ _ E2) as [s2 H2].
  destruct (add_total_is_setitem _ _ _ E3) as [s3 H3].
  assert (K1 : df_keys df1 = df_keys df).
  { apply (setitem_keys _ _ _ _ H1). apply Hin; simpl; auto. }
  assert (K2 : df_keys df2 = df_keys df).
  { rewrite <- K1. apply (setitem_keys _ _ _ _ H2). rewrite K1. apply Hin; simpl; auto. }
  rewrite <- K2. apply (setitem_keys _ _ _ _ H3). rewrite K2. apply Hin; simpl; auto.
Qed.

(** ** Running sums *)

Lemma cumsum_from_length (l : list cell) : forall acc,
  List.length (cumsum_from acc l) = List.length l.
Proof.
  induction l as [|[x|] l IH]; intros acc; simpl; auto.
Qed.

Lemma combine_fst_snd {A B} (a : list A) : forall (b : list B),
  List.length a = List.length b ->
  map fst (combine a b) = a /\ map snd (combine a b) = b.
Proof.
  induction a as [|x a IH]; intros [|y b] H; simpl in *; try discriminate; auto.
  destruct (IH b) as [-> ->]; auto.
Qed.

Lemma labels_cumsum {L} (s : Series L) : labels (cumsum s) = labels s.
Proof.
  unfold cumsum. apply combine_fst_snd.
  unfold labels, values. rewrite cumsum_from_length, !length_map. reflexivity.
Qed.

Lemma values_cumsum {L} (s : Series L) : values (cumsum s) = cumsum_from 0%Q (values s).
Proof.
  unfold cumsum. apply combine_fst_snd.
  unfold labels, values. rewrite cumsum_from_length, !length_map. reflexivity.
Qed.

(** Where no value is missing up to position [k], the running sum at [k]
    is the one before plus the value at [k]. *)
Lemma cumsum_from_step (l : list cell) : forall acc k,
  (forall j, (j <= k)%nat -> exists v, nth j l None = Some v) ->
  exists c e,
    nth k (cumsum_from acc l) None = Some c
    /\ nth k l None = Some e
    /\ match k with
       | O => c = (acc + e)%Q
       | S j => exists b, nth j (cumsum_from acc l) None = Some b /\ c = (b + e)%Q
       end.
Proof.
  induction l as [|c0 l IH]; intros acc k Hk.
  - destruct (Hk 0%nat (Nat.le_0_l k)) as [v Hv]. simpl in Hv. discriminate.
  - destruct (Hk 0%nat (Nat.le_0_l k)) as [x Hx]. simpl in Hx. subst c0.
    destruct k as [|k]; simpl.
    + exists (acc + x)%Q, x. auto.
    + destruct (IH (acc + x)%Q k) as (c & e & Hc & He & Hrec).
      { intros j Hj. apply (Hk (S j)). lia. }
      exists c, e. split; [exact Hc|]. split; [exact He|].
      destruct k as [|k]; simpl in *.
      * exists (acc + x)%Q. auto.
      * exact Hrec.
Qed.

(** ** The handler, stage by stage *)

Section HandlerFacts.

Context {Timestamp Interval : Type} (strftime : Timestamp -> string).
Variable plant_name : string.
Variable mngr : PVSystemManager Timestamp.
Variable weather_api : WeatherAPI Timestamp Interval.
Variable start_end : option (StartEndRequest Timestamp).
Variable interval : Interval.

Let names := resolve_plant_names mngr plant_name.
Let all_arg := is_all plant_name.
Let datetimes := build_datetimes weather_api start_end interval.
Let log0 := match start_end with None => [InfoNoStartEnd] | Some _ => [] end.
Let start := mkLocals (empty_frame (build_columns all_arg names)) None log0.

Lemma aggregate_inv st :
  aggregate strftime plant_name mngr weather_api start_end interval = Ok st ->
  exists st0,
    run_plants strftime mngr datetimes plant_name names start = Ok st0
    /\ add_totals all_arg (result_df st0) = Ok (result_df st)
    /\ ac_power_var st = ac_power_var st0
    /\ log st = log st0.
Proof.
  unfold aggregate. fold names all_arg datetimes log0 start.
  destruct (run_plants strftime mngr datetimes plant_name names start) as [st0|];
    simpl; [|discriminate].
  destruct (add_totals all_arg (result_df st0)) as [df|] eqn:E; simpl; [|discriminate].
  intros H; inversion H; subst st; simpl. exists st0. auto.
Qed.

Lemma assemble_inv st :
  assemble strftime plant_name mngr weather_api start_end interval = Ok st ->
  exists st1,
    aggregate strftime plant_name mngr weather_api start_end interval = Ok st1
    /\ result_df st = result_df st1
    /\ isnull_any (result_df st1) = false
    /\ ac_power_var st = ac_power_var st1
    /\ log st = log st1.
Proof.
  unfold assemble.
  destruct (aggregate strftime plant_name mngr weather_api start_end interval)
    as [st1|]; simpl; [|discriminate].
  destruct (check_nan (result_df st1)) as [df|] eqn:E; simpl; [|discriminate].
  intros H; inversion H; subst st; simpl.
  apply check_nan_ok in E. destruct E as [-> Hn]. exists st1. auto.
Qed.

(** The frame when the loop is over. *)
Lemma loop_end st0 :
  run_plants strftime mngr datetimes plant_name names start = Ok st0 ->
  df_keys (result_df st0) = build_columns all_arg names
  /\ well_formed (result_df st0)
  /\ coherent (df_columns (result_df st0))
  /\ (forall k, (forall p, In p names -> get_pv_plant mngr p <> None -> snd k <> p) ->
                unfilled k (result_df st0))
  /\ (forall p pvplant, In p names -> get_pv_plant mngr p = Some pvplant ->
                        plant_written strftime datetimes pvplant p (result_df st0)).
Proof.
  intros Hr.
  assert (Hdecl : forall p, In p names -> declared p (result_df start)).
  { intros p Hp. apply declared_build_columns; exact Hp. }
  split; [|split; [|split; [|split]]].
  - rewrite (run_keys strftime _ _ _ _ _ _ Hdecl Hr). apply empty_frame_keys.
  - apply (run_well_formed strftime _ _ _ _ _ _ Hdecl Hr). apply empty_frame_well_formed.
  - apply (run_coherent strftime _ _ _ _ _ _ Hdecl Hr). apply empty_frame_coherent.
  - intros k Hk. apply (run_unfilled strftime _ _ _ _ _ _ _ Hdecl Hk Hr).
    apply empty_frame_unfilled.
  - intros p pvplant Hp Hf.
    apply (run_written strftime _ _ _ _ _ _ _ _ Hdecl Hr Hf). left; exact Hp.
Qed.

(** The table that passed the NaN check: every declared cell holds a value. *)
Lemma assembled_cells st :
  assemble strftime plant_name mngr weather_api start_end interval = Ok st ->
  df_keys (result_df st) = build_columns all_arg names
  /\ forall k i, In k (build_columns all_arg names) ->
                 (i < List.length (df_index (result_df st)))%nat ->
                 exists v, df_cell (result_df st) k i = Some v.
Proof.
  intros Ha. destruct (assemble_inv _ Ha) as (st1 & Hg & Hdf & Hn & _).
  destruct (aggregate_inv _ Hg) as (st0 & Hr & Ht & _).
  destruct (loop_end _ Hr) as (Hk & Hwf & Hco & _).
  assert (Hk1 : df_keys (result_df st1) = build_columns all_arg names).
  { rewrite <- Hk. apply (add_totals_keys all_arg _ _); [|exact Ht].
    intros Hall m Hm. rewrite Hk, Hall. apply total_declared; exact Hm. }
  assert (Hwf1 : well_formed (result_df st1)).
  { apply (add_totals_keeps well_formed all_arg _ _) in Ht; auto.
    intros d m s d'. apply setitem_well_formed. }
  rewrite Hdf. split; [exact Hk1|].
  intros k i Hin Hi. apply no_missing_cell; auto. rewrite Hk1; exact Hin.
Qed.

(** The columns of a found plant in the table that passed the check. *)
Lemma assembled_plant_columns st p pvplant :
  assemble strftime plant_name mngr weather_api start_end interval = Ok st ->
  In p names -> get_pv_plant mngr p = Some pvplant ->
  (all_arg = true -> p <> "Total") ->
  plant_written strftime datetimes pvplant p (result_df st).
Proof.
  intros Ha Hp Hf Hnt. destruct (assemble_inv _ Ha) as (st1 & Hg & Hdf & _).
  destruct (aggregate_inv _ Hg) as (st0 & Hr & Ht & _).
  destruct (loop_end _ Hr) as (_ & _ & _ & _ & Hw).
  specialize (Hw p pvplant Hp Hf). rewrite Hdf.
  destruct all_arg eqn:Hall.
  - apply (add_totals_keeps (plant_written strftime datetimes pvplant p) true _ _) in Ht;
      auto.
    intros d m s d' Hs (W1 & W2 & W3).
    assert (Hne : p <> "Total") by auto.
    split; [|split]; apply (setitem_keeps_written _ _ _ _ _ _ Hs); auto; other_plant.
  - simpl in Ht. inversion Ht. exact Hw.
Qed.

End HandlerFacts.

(** In "all" mode every [Total] cell is the row sum of the plant columns,
    a missing value counting for nothing. *)
Lemma aggregate_totals
      {Timestamp Interval : Type} (strftime : Timestamp -> string)
      (plant_name : string) (mngr : PVSystemManager Timestamp)
      (weather_api : WeatherAPI Timestamp Interval)
      (start_end : option (StartEndRequest Timestamp)) (interval : Interval)
      (st : Locals) :
  is_all plant_name = true ->
  ~ In "Total" (dict_keys (pv_plants mngr)) ->
  aggregate strftime plant_name mngr weather_api start_end interval = Ok st ->
  forall metric i,
    In metric metrics -> (i < List.length (df_index (result_df st)))%nat ->
    exists total,
      df_cell (result_df st) (metric, "Total") i = Some total
      /\ (total == sumQ (map (fun p => nan_to_zero (df_cell (result_df st) (metric, p) i))
                            (dict_keys (pv_plants mngr))))%Q.
Proof.
  intros Hall Hnt Hg metric i Hm Hi.
  destruct (aggregate_inv strftime _ _ _ _ _ _ Hg) as (st0 & Hr & Ht & _).
  destruct (loop_end strftime _ _ _ _ _ _ Hr) as (Hk & _ & Hco & Hu & _).
  assert (Hnames : resolve_plant_names mngr plant_name = dict_keys (pv_plants mngr)).
  { unfold resolve_plant_names. rewrite Hall. reflexivity. }
  rewrite Hnames in Hk, Hu. rewrite Hall in Hk, Ht. clear Hr Hnames.
  set (names := dict_keys (pv_plants mngr)) in *.
  assert (Hut : forall m, In m metrics -> unfilled (m, "Total") (result_df st0)).
  { intros m _. apply Hu. intros p Hp _ E. apply Hnt. simpl in E. rewrite E. exact Hp. }
  destruct (add_totals_spec names _ _ Hco Hk Hnt Hut Ht) as (Hi0 & _ & Hplant & Htot).
  rewrite Hi0 in Hi.
  destruct (Htot metric i Hm Hi) as (total & Ht1 & Hq).
  exists total. split; [exact Ht1|].
  rewrite Hq.
  assert (E : map (fun p => nan_to_zero (df_cell (result_df st0) (metric, p) i)) names
              = map (fun p => nan_to_zero (df_cell (result_df st) (metric, p) i)) names).
  { apply map_ext_in. intros p Hp.
    rewrite (df_cell_column (result_df st0) (result_df st)); [reflexivity|].
    apply Hplant. simpl. intros E. apply Hnt. rewrite <- E. exact Hp. }
  rewrite E. reflexivity.
Qed.

(* ------------------------------------------------------------------ *)
(** * The claims *)

(** C1.  In "all" mode, once every plant has been handled, the [Total]
    column of each of [watt], [watt_hours], [watt_hours_cumsum] holds, at
    every row of the table, the sum of that row over the plants of the
    registry -- over the plant columns only, the [Total] column itself adds
    nothing.  Stated on the table that passed the NaN check, where every
    term of the sum is defined; plant names do not use the reserved label
    ["Total"]. *)
Theorem total_is_sum_of_plant_columns
        {Timestamp Interval : Type} (strftime : Timestamp -> string)
        (plant_name : string) (mngr : PVSystemManager Timestamp)
        (weather_api : WeatherAPI Timestamp Interval)
        (start_end : option (StartEndRequest Timestamp)) (interval : Interval)
        (st : Locals) :
  is_all plant_name = true ->
  ~ In "Total" (dict_keys (pv_plants mngr)) ->
  assemble strftime plant_name mngr weather_api start_end interval = Ok st ->
  forall metric i,
    In metric metrics -> (i < List.length (df_index (result_df st)))%nat ->
    exists total s,
      df_cell (result_df st) (metric, "Total") i = Some total
      /\ plant_sum (result_df st) metric (dict_keys (pv_plants mngr)) i = Some s
      /\ (total == s)%Q.
Proof.
  intros Hall Hnt Ha metric i Hm Hi.
  destruct (assembled_cells strftime _ _ _ _ _ _ Ha) as [_ Hcells].
  destruct (assemble_inv strftime _ _ _ _ _ _ Ha) as (st1 & Hg & Hdf & _).
  rewrite Hdf in *.
  destruct (aggregate_totals strftime _ _ _ _ _ _ Hall Hnt Hg metric i Hm Hi)
    as (total & Ht & Hq).
  exists total. eexists. split; [exact Ht|]. split.
  - unfold plant_sum. apply sum_cells_defined.
    apply Forall_forall. intros c Hc. apply in_map_iff in Hc.
    destruct Hc as [p [<- Hp]]. apply Hcells; [|exact Hi].
    unfold resolve_plant_names. rewrite Hall.
    unfold build_columns. rewrite !in_app_iff.
    destruct Hm as [<- | [<- | [<- | []]]]; auto using in_map.
  - rewrite Hq, map_map. reflexivity.
Qed.

(** The two energy columns of a handled plant whose energy series carries
    the index of the table. *)
Lemma assembled_energy_columns
      {Timestamp Interval : Type} (strftime : Timestamp -> string)
      (plant_name : string) (mngr : PVSystemManager Timestamp)
      (weather_api : WeatherAPI Timestamp Interval)
      (start_end : option (StartEndRequest Timestamp)) (interval : Interval)
      (st : Locals) (p : string) (pvplant : PVPlantModel Timestamp) :
  assemble strftime plant_name mngr weather_api start_end interval = Ok st ->
  In p (resolve_plant_names mngr plant_name) ->
  get_pv_plant mngr p = Some pvplant ->
  (is_all plant_name = true -> p <> "Total") ->
  labels (energy_series strftime pvplant (build_datetimes weather_api start_end interval))
  = df_index (result_df st) ->
  column ("watt_hours", p) (df_columns (result_df st))
  = Some (values (energy_series strftime pvplant
                    (build_datetimes weather_api start_end interval)))
  /\ column ("watt_hours_cumsum", p) (df_columns (result_df st))
     = Some (cumsum_from 0%Q
               (values (energy_series strftime pvplant
                          (build_datetimes weather_api start_end interval))))
  /\ forall j, (j < List.length (df_index (result_df st)))%nat ->
       exists v, nth j (values (energy_series strftime pvplant
                                  (build_datetimes weather_api start_end interval)))
                       None = Some v.
Proof.
  intros Ha Hp Hf Hnt Hlab.
  destruct (assembled_cells strftime _ _ _ _ _ _ Ha) as [_ Hcells].
  destruct (assembled_plant_columns strftime _ _ _ _ _ _ _ _ Ha Hp Hf Hnt)
    as (_ & [W2 _] & [W3 _]).
  set (T := result_df st) in *.
  set (E := energy_series strftime pvplant
              (build_datetimes weather_api start_end interval)) in *.
  assert (C2 : column ("watt_hours", p) (df_columns T) = Some (values E)).
  { rewrite W2. unfold align. rewrite Hlab, labels_eqb_refl. reflexivity. }
  split; [exact C2|]. split.
  - rewrite W3. unfold align.
    rewrite labels_cumsum, Hlab, labels_eqb_refl, values_cumsum. reflexivity.
  - intros j Hj.
    destruct (Hcells ("watt_hours", p) j) as [v Hv]; [|exact Hj|].
    + unfold build_columns. rewrite !in_app_iff. right; left. apply in_map; exact Hp.
    + unfold df_cell in Hv. rewrite C2 in Hv. eauto.
Qed.

(** C2.  For a plant the loop handled, whose energy series carries the
    index of the table (the series are aligned on the shared timestamps),
    the [watt_hours_cumsum] column is the running sum of the [watt_hours]
    column: at every position it is the value just before (0 before the
    first) plus the energy there, hence the sum of the energies up to
    there.  In "all" mode the plant is not named ["Total"]. *)
Theorem cumsum_is_running_sum
        {Timestamp Interval : Type} (strftime : Timestamp -> string)
        (plant_name : string) (mngr : PVSystemManager Timestamp)
        (weather_api : WeatherAPI Timestamp Interval)
        (start_end : option (StartEndRequest Timestamp)) (interval : Interval)
        (st : Locals) (p : string) (pvplant : PVPlantModel Timestamp) :
  assemble strftime plant_name mngr weather_api start_end interval = Ok st ->
  In p (resolve_plant_names mngr plant_name) ->
  get_pv_plant mngr p = Some pvplant ->
  (is_all plant_name = true -> p <> "Total") ->
  labels (energy_series strftime pvplant (build_datetimes weather_api start_end interval))
  = df_index (result_df st) ->
  forall k, (k < List.length (df_index (result_df st)))%nat ->
    (exists c e before,
        df_cell (result_df st) ("watt_hours_cumsum", p) k = Some c
        /\ df_cell (result_df st) ("watt_hours", p) k = Some e
        /\ cumsum_before (result_df st) p k = Some before
        /\ c = (before + e)%Q)
    /\ cell_eq (df_cell (result_df st) ("watt_hours_cumsum", p) k)
               (sum_upto (result_df st) ("watt_hours", p) k).
Proof.
  intros Ha Hp Hf Hnt Hlab.
  destruct (assembled_energy_columns strftime _ _ _ _ _ _ _ _ Ha Hp Hf Hnt Hlab)
    as (C2 & C3 & Hwh).
  set (T := result_df st) in *.
  set (E := energy_series strftime pvplant
              (build_datetimes weather_api start_end interval)) in *.
  assert (Hrec : forall k, (k < List.length (df_index T))%nat ->
            exists c e before,
              df_cell T ("watt_hours_cumsum", p) k = Some c
              /\ df_cell T ("watt_hours", p) k = Some e
              /\ cumsum_before T p k = Some before
              /\ c = (before + e)%Q).
  { intros k Hk.
    destruct (cumsum_from_step (values E) 0%Q k) as (c & e & Hc & He & Hstep).
    { intros j Hj. apply Hwh. lia. }
    unfold df_cell, cumsum_before. rewrite C2, C3.
    destruct k as [|k].
    - exists c, e, 0%Q. auto.
    - destruct Hstep as (b & Hb & Hcb). exists c, e, b.
      unfold df_cell. rewrite C3. auto. }
  intros k Hk. split; [apply Hrec; exact Hk|].
  induction k as [|k IH].
  - destruct (Hrec 0%nat Hk) as (c & e & b & Hc & He & Hb & Hq).
    simpl in *. rewrite Hc, He. simpl. inversion Hb; subst. ring.
  - destruct (Hrec (S k) Hk) as (c & e & b & Hc & He & Hb & Hq).
    assert (Hk' : (k < List.length (df_index T))%nat) by lia.
    specialize (IH Hk'). simpl in Hb. rewrite Hb in IH.
    simpl. rewrite Hc, He.
    destruct (sum_upto T ("watt_hours", p) k) as [s|]; simpl in *; [|contradiction].
    subst c. rewrite IH. ring.
Qed.

Lemma cell_to_int_raises (dt : dtype) (c : cell) (e : Exception) :
  cell_to_int dt c = Raise e ->
  e = IntCastingNaN \/ e = NaNToInteger \/ e = OverflowError.
Proof.
  destruct dt, c as [q|]; simpl; try discriminate.
  - intros H; inversion H; auto.
  - destruct (in_int64 (truncate q)); [discriminate|]. intros H; inversion H; auto.
  - intros H; inversion H; auto.
Qed.

Lemma cells_to_int_raises (dt : dtype) (l : list cell) (e : Exception) :
  cells_to_int dt l = Raise e ->
  e = IntCastingNaN \/ e = NaNToInteger \/ e = OverflowError.
Proof.
  induction l as [|c l IH]; simpl; [discriminate|].
  destruct (cell_to_int dt c) as [z|e0] eqn:Ec; simpl.
  - destruct (cells_to_int dt l); simpl; [discriminate|].
    intros H; inversion H; subst; auto.
  - intros H; inversion H; subst. apply (cell_to_int_raises _ _ _ Ec).
Qed.

Lemma columns_to_int_raises (dts : list (ColKey * dtype))
      (cols : list (ColKey * list cell)) (e : Exception) :
  columns_to_int dts cols = Raise e ->
  e = IntCastingNaN \/ e = NaNToInteger \/ e = OverflowError.
Proof.
  induction cols as [|[k col] cols IH]; simpl; [discriminate|].
  destruct (cells_to_int (lookup_dtype k dts) col) eqn:E; simpl.
  - destruct (columns_to_int dts cols); simpl; [discriminate|].
    intros H; inversion H; subst; auto.
  - intros H; inversion H; subst. apply (cells_to_int_raises _ _ _ E).
Qed.

Lemma round_astype_int_raises (df : DataFrame) (e : Exception) :
  round_astype_int df = Raise e ->
  e = IntCastingNaN \/ e = NaNToInteger \/ e = OverflowError.
Proof.
  unfold round_astype_int.
  destruct (columns_to_int (df_dtypes df) (df_columns df)) as [cols|e0] eqn:E; simpl;
    [discriminate|].
  intros H; inversion H; subst. apply (columns_to_int_raises _ _ _ E).
Qed.

Lemma respond_raises {Timestamp Interval : Type} (mngr : PVSystemManager Timestamp)
      (interval : Interval) (st : Locals) (e : Exception) :
  respond mngr interval st = Raise e ->
  e = IntCastingNaN \/ e = NaNToInteger \/ e = OverflowError
  \/ e = UnboundLocalError "ac_power" \/ e = IndexError.
Proof.
  unfold respond.
  destruct (round_astype_int (result_df st)) as [ints|e0] eqn:E; simpl.
  - destruct (ac_power_var st) as [[|x s]|]; simpl; intros H; inversion H; auto.
  - intros H; inversion H; subst.
    destruct (round_astype_int_raises _ _ E) as [-> | [-> | ->]]; auto.
Qed.

(** C3.  The NaN check stops the request exactly when some cell of some
    column of the assembled table is missing: [post] then raises the error
    that carries the table and returns no response.  A response is only
    built when no cell is missing, and the check hands on the table as it
    was assembled: no cell is filled in. *)
Theorem nan_check_stops_incomplete_tables
        {Timestamp Interval : Type} (strftime : Timestamp -> string)
        (plant_name : string) (mngr : PVSystemManager Timestamp)
        (weather_api : WeatherAPI Timestamp Interval)
        (start_end : option (StartEndRequest Timestamp)) (interval : Interval)
        (st : Locals) :
  aggregate strftime plant_name mngr weather_api start_end interval = Ok st ->
  (check_nan (result_df st) = Raise (NaNValues (result_df st))
   <-> has_missing (result_df st))
  /\ (post strftime plant_name mngr weather_api start_end interval
      = Raise (NaNValues (result_df st))
      <-> has_missing (result_df st))
  /\ (forall r, post strftime plant_name mngr weather_api start_end interval = Ok r ->
        ~ has_missing (result_df st)
        /\ check_nan (result_df st) = Ok (result_df st)).
Proof.
  intros Hg.
  assert (Hcheck : check_nan (result_df st) = Raise (NaNValues (result_df st))
                   <-> has_missing (result_df st)).
  { rewrite <- isnull_any_iff. unfold check_nan.
    destruct (isnull_any (result_df st)); split; congruence. }
  assert (Hpost : post strftime plant_name mngr weather_api start_end interval
                  = (df <- check_nan (result_df st) ;;
                     respond mngr interval (mkLocals df (ac_power_var st) (log st)))).
  { unfold post, assemble. rewrite Hg; simpl.
    destruct (check_nan (result_df st)); reflexivity. }
  split; [exact Hcheck|]. split.
  - rewrite Hpost. split.
    + intros H. destruct (check_nan (result_df st)) as [df|e] eqn:E; simpl in H.
      * apply respond_raises in H.
        destruct H as [H | [H | [H | [H | H]]]]; discriminate.
      * apply Hcheck. congruence.
    + intros H. apply Hcheck in H. rewrite H. reflexivity.
  - intros r Hr. rewrite Hpost in Hr.
    destruct (check_nan (result_df st)) as [df|e] eqn:E; simpl in Hr; [|discriminate].
    destruct (check_nan_ok _ _ E) as [-> Hn]. split; [|reflexivity].
    rewrite <- isnull_any_iff. congruence.
Qed.

(** C4.  What the handler does for a single plant name the registry does
    not know: the lookup failure is logged and skipped, the table has no
    row, the NaN check has nothing to object to, and building the response
    reads [ac_power], which was never bound.  The request ends in Python's
    [UnboundLocalError], not in a not-found error of the handler's own. *)
Theorem unknown_single_plant_ends_unbound
        {Timestamp Interval : Type} (strftime : Timestamp -> string)
        (plant_name : string) (mngr : PVSystemManager Timestamp)
        (weather_api : WeatherAPI Timestamp Interval)
        (start_end : option (StartEndRequest Timestamp)) (interval : Interval) :
  is_all plant_name = false ->
  get_pv_plant mngr plant_name = None ->
  post strftime plant_name mngr weather_api start_end interval
  = Raise (UnboundLocalError "ac_power").
Proof.
  intros Hall Hf.
  unfold post, assemble, aggregate, resolve_plant_names, run_plants.
  rewrite Hall. simpl for_each. unfold loop_body. rewrite Hf. reflexivity.
Qed.

Lemma dict_get_key {V} (k : string) (d : dict V) :
  In k (dict_keys d) -> exists v, dict_get k d = Some v.
Proof.
  induction d as [|[k' v] d IH]; simpl; [tauto|].
  intros [E | Hin].
  - subst k'. rewrite String.eqb_refl. eauto.
  - destruct (String.eqb k k'); eauto.
Qed.

Lemma run_all_missing {Timestamp : Type} (strftime : Timestamp -> string)
      (mngr : PVSystemManager Timestamp) (datetimes : list Timestamp)
      (plant_name : string) (names : list string) : forall st,
  (forall p, In p names -> get_pv_plant mngr p = None) ->
  exists log',
    run_plants strftime mngr datetimes plant_name names st
    = Ok (mkLocals (result_df st) (ac_power_var st) log').
Proof.
  unfold run_plants.
  induction names as [|x names IH]; intros st Hm; simpl.
  - exists (log st). destruct st; reflexivity.
  - rewrite (body_not_found strftime mngr datetimes plant_name st x)
      by (apply Hm; left; reflexivity).
    simpl. apply (IH (mkLocals _ _ _)). intros p Hp. apply Hm; right; exact Hp.
Qed.

(** C5.  What the handler does when every requested plant fails the
    lookup: the table keeps all its declared columns and has no row, so it
    holds no cell at all; the NaN check passes it, and the request ends in
    [UnboundLocalError] when the response is built. *)
Theorem all_lookups_failed_passes_nan_check
        {Timestamp Interval : Type} (strftime : Timestamp -> string)
        (plant_name : string) (mngr : PVSystemManager Timestamp)
        (weather_api : WeatherAPI Timestamp Interval)
        (start_end : option (StartEndRequest Timestamp)) (interval : Interval) :
  (forall p, In p (resolve_plant_names mngr plant_name) -> get_pv_plant mngr p = None) ->
  exists st,
    aggregate strftime plant_name mngr weather_api start_end interval = Ok st
    /\ df_keys (result_df st)
       = build_columns (is_all plant_name) (resolve_plant_names mngr plant_name)
    /\ df_index (result_df st) = []
    /\ (forall k col, In (k, col) (df_columns (result_df st)) -> col = [])
    /\ check_nan (result_df st) = Ok (result_df st)
    /\ post strftime plant_name mngr weather_api start_end interval
       = Raise (UnboundLocalError "ac_power").
Proof.
  intros Hm.
  set (names := resolve_plant_names mngr plant_name) in *.
  set (cols := build_columns (is_all plant_name) names).
  assert (Hempty : forall k col, In (k, col) (df_columns (empty_frame cols)) -> col = []).
  { intros k col Hin. unfold empty_frame in Hin; simpl in Hin.
    apply in_map_iff in Hin. destruct Hin as [k' [E _]]. inversion E; reflexivity. }
  assert (Hnan : forall df, (forall k col, In (k, col) (df_columns df) -> col = []) ->
                            isnull_any df = false).
  { intros df Hdf. destruct (isnull_any df) eqn:E; [|reflexivity].
    apply isnull_any_iff in E. destruct E as (k & col & i & Hin & Hi & _).
    rewrite (Hdf k col Hin) in Hi. simpl in Hi. lia. }
  assert (Hint : forall dts (cs : list (ColKey * list cell)),
             (forall k col, In (k, col) cs -> col = []) ->
             exists zs, columns_to_int dts cs = Ok zs).
  { intros dts. induction cs as [|[k col] cs IH]; intros Hcs; simpl; [eauto|].
    rewrite (Hcs k col (or_introl eq_refl)); simpl.
    destruct IH as [zs ->]; [|simpl; eauto].
    intros k' col' Hin. apply (Hcs k' col'). right; exact Hin. }
  assert (Hpost : forall st,
             aggregate strftime plant_name mngr weather_api start_end interval = Ok st ->
             (forall k col, In (k, col) (df_columns (result_df st)) -> col = []) ->
             ac_power_var st = None ->
             check_nan (result_df st) = Ok (result_df st)
             /\ post strftime plant_name mngr weather_api start_end interval
                = Raise (UnboundLocalError "ac_power")).
  { intros st Hg Hcols Hp.
    assert (Hc : check_nan (result_df st) = Ok (result_df st)).
    { unfold check_nan. rewrite (Hnan _ Hcols). reflexivity. }
    split; [exact Hc|].
    unfold post, assemble. rewrite Hg; simpl. rewrite Hc; simpl.
    unfold respond, round_astype_int; simpl.
    destruct (Hint (df_dtypes (result_df st)) _ Hcols) as [zs ->]; simpl.
    rewrite Hp. reflexivity. }
  destruct (run_all_missing strftime mngr
              (build_datetimes weather_api start_end interval) plant_name names
              (mkLocals (empty_frame cols) None
                        match start_end with None => [InfoNoStartEnd] | Some _ => [] end)
              Hm) as [log' Hrun].
  simpl in Hrun.
  destruct (is_all plant_name) eqn:Hall.
  - assert (Hnil : names = []).
    { destruct names as [|x rest] eqn:En; [reflexivity|]. exfalso.
      assert (Hx : In x (dict_keys (pv_plants mngr))).
      { unfold names, resolve_plant_names in En. rewrite Hall in En. rewrite En.
        left; reflexivity. }
      destruct (dict_get_key _ _ Hx) as [v Hv].
      specialize (Hm x (or_introl eq_refl)). unfold get_pv_plant in Hm. congruence. }
    assert (Hg : aggregate strftime plant_name mngr weather_api start_end interval
                 = Ok (mkLocals (mkDF [] [(("watt_hours", "Total"), []);
                                          (("watt_hours_cumsum", "Total"), []);
                                          (("watt", "Total"), [])]
                                      [(("watt_hours", "Total"), Object);
                                       (("watt_hours_cumsum", "Total"), Object);
                                       (("watt", "Total"), Object)]) None log')).
    { unfold aggregate. fold names. rewrite Hall. fold cols. rewrite Hrun.
      unfold cols. rewrite Hnil. reflexivity. }
    eexists. split; [exact Hg|]. simpl.
    assert (Hcols : forall k col,
               In (k, col) [(("watt_hours", "Total"), @nil cell);
                            (("watt_hours_cumsum", "Total"), []);
                            (("watt", "Total"), [])] -> col = []).
    { intros k col [H | [H | [H | []]]]; inversion H; reflexivity. }
    split; [unfold cols; rewrite Hnil; reflexivity|].
    split; [reflexivity|]. split; [exact Hcols|].
    apply (Hpost _ Hg); [exact Hcols | reflexivity].
  - assert (Hg : aggregate strftime plant_name mngr weather_api start_end interval
                 = Ok (mkLocals (empty_frame cols) None log')).
    { unfold aggregate. fold names. rewrite Hall. fold cols. rewrite Hrun. reflexivity. }
    eexists. split; [exact Hg|]. simpl.
    split; [apply empty_frame_keys|].
    split; [reflexivity|]. split; [exact Hempty|].
    apply (Hpost _ Hg); [exact Hempty | reflexivity].
Qed.

(** C6, as the code has it.  A plant name the registry does not know is
    contained at that plant: its turn of the loop only logs (the estimate
    line, then the error line) and leaves the frame and [ac_power] as they
    were; the loop over a batch that lists the name ends like the loop over
    the batch without it -- the same frame and [ac_power], or the same
    exception -- so the other plants are handled as usual; and when the
    loop is over the three columns declared for the name before the loop
    are still in the table and hold no value at any row. *)
Theorem lookup_failure_is_skipped
        {Timestamp : Type} (strftime : Timestamp -> string)
        (mngr : PVSystemManager Timestamp) (datetimes : list Timestamp)
        (plant_name pv_plant : string) :
  get_pv_plant mngr pv_plant = None ->
  (forall st,
      loop_body strftime mngr datetimes plant_name st pv_plant
      = Ok (mkLocals (result_df st) (ac_power_var st)
                     (log st ++ [InfoEstimating pv_plant; ErrorNoPVSystem plant_name])))
  /\ (forall before after st,
         same_outcome
           (run_plants strftime mngr datetimes plant_name (before ++ pv_plant :: after) st)
           (run_plants strftime mngr datetimes plant_name (before ++ after) st))
  /\ (forall all_arg names log0 st',
         In pv_plant names ->
         run_plants strftime mngr datetimes plant_name names
                    (mkLocals (empty_frame (build_columns all_arg names)) None log0)
         = Ok st' ->
         forall metric, In metric metrics ->
           In (metric, pv_plant) (df_keys (result_df st'))
           /\ unfilled (metric, pv_plant) (result_df st')).
Proof.
  intros Hf. split; [|split].
  - intros st. apply body_not_found; exact Hf.
  - intros before after st. unfold run_plants. rewrite !for_each_app.
    destruct (for_each (loop_body strftime mngr datetimes plant_name) before st)
      as [st1|e]; simpl; [|reflexivity].
    rewrite (body_not_found strftime mngr datetimes plant_name st1 pv_plant Hf); simpl.
    apply (run_same_data strftime mngr datetimes plant_name after).
    split; reflexivity.
  - intros all_arg names log0 st' Hin Hr metric Hm.
    assert (Hdecl : forall p, In p names ->
              declared p (result_df (mkLocals (empty_frame (build_columns all_arg names))
                                              None log0))).
    { intros p Hp. apply declared_build_columns; exact Hp. }
    split.
    + rewrite (run_keys strftime _ _ _ _ _ _ Hdecl Hr). apply (Hdecl pv_plant Hin metric Hm).
    + apply (run_unfilled strftime mngr datetimes plant_name (metric, pv_plant)
                          names _ st' Hdecl); auto.
      * simpl. intros p _ Hp E. subst p. contradiction.
      * apply empty_frame_unfilled.
Qed.

(** C7.  Without a request body the handler hands the weather API's own
    [start_forecast] and [end_forecast] to its [get_source_dates]; neither
    the current time nor the requested interval enters the window: two
    requests that differ in the interval only ask for the same window. *)
Theorem default_window_is_forecast_window
        {Timestamp Interval : Type} (weather_api : WeatherAPI Timestamp Interval)
        (interval interval' : Interval) :
  source_dates_args weather_api None interval
  = (start_forecast weather_api, end_forecast weather_api, interval)
  /\ build_datetimes weather_api None interval
     = get_source_dates weather_api (start_forecast weather_api)
                        (end_forecast weather_api) interval
  /\ fst (source_dates_args weather_api None interval)
     = fst (source_dates_args weather_api None interval').
Proof. repeat split. Qed.

(** ** Keys of the nested view *)

Lemma dict_keys_set {V} (k : string) (v : V) (d : dict V) :
  dict_keys (dict_set k v d) = add_key (dict_keys d) k.
Proof.
  unfold add_key, dict_keys.
  induction d as [|[k' v'] d IH]; simpl; [reflexivity|].
  destruct (String.eqb k k') eqn:E; simpl; [reflexivity|].
  rewrite IH. destruct (existsb (String.eqb k) (map fst d)); reflexivity.
Qed.

Lemma dict_get_set_same {V} (k : string) (v : V) (d : dict V) :
  dict_get k (dict_set k v d) = Some v.
Proof.
  induction d as [|[k' v'] d IH]; simpl.
  - rewrite String.eqb_refl. reflexivity.
  - destruct (String.eqb k k') eqn:E; simpl; rewrite E; auto.
Qed.

Lemma dict_get_set_other {V} (k k' : string) (v : V) (d : dict V) :
  String.eqb k k' = false -> dict_get k (dict_set k' v d) = dict_get k d.
Proof.
  intros Hne. induction d as [|[k0 v0] d IH]; simpl.
  - rewrite Hne. reflexivity.
  - destruct (String.eqb k' k0) eqn:E; simpl.
    + apply String.eqb_eq in E. subst k0. rewrite Hne. reflexivity.
    + destruct (String.eqb k k0); auto.
Qed.

Lemma nested_outer_keys_from (rows : list (ColKey * list (string * Z))) : forall acc,
  dict_keys (fold_left nest_row rows acc)
  = fold_left add_key (map fst (map fst rows)) (dict_keys acc).
Proof.
  induction rows as [|row rows IH]; intros acc; simpl; [reflexivity|].
  rewrite IH. unfold nest_row. rewrite dict_keys_set. reflexivity.
Qed.

Lemma nested_inner_keys_from (metric : string)
      (rows : list (ColKey * list (string * Z))) : forall acc,
  keys_under metric (fold_left nest_row rows acc)
  = fold_left add_key (plants_under metric (map fst rows)) (keys_under metric acc).
Proof.
  unfold plants_under.
  induction rows as [|row rows IH]; intros acc; simpl; [reflexivity|].
  rewrite IH. unfold keys_under, nest_row.
  destruct (String.eqb metric (fst (fst row))) eqn:E; simpl.
  - apply String.eqb_eq in E. rewrite <- E.
    rewrite dict_get_set_same, dict_keys_set.
    destruct (dict_get metric acc); reflexivity.
  - rewrite dict_get_set_other by exact E. reflexivity.
Qed.

Lemma columns_to_int_keys (dts : list (ColKey * dtype))
      (cols : list (ColKey * list cell)) : forall cols',
  columns_to_int dts cols = Ok cols' -> map fst cols' = map fst cols.
Proof.
  induction cols as [|[k col] cols IH]; simpl; intros cols' H.
  - inversion H; reflexivity.
  - destruct (cells_to_int (lookup_dtype k dts) col) as [zs|]; simpl in H; [|discriminate].
    destruct (columns_to_int dts cols) as [rest|]; simpl in H; [|discriminate].
    inversion H; subst. simpl. f_equal. apply IH. reflexivity.
Qed.

Lemma transpose_keys (f : IntFrame) : map fst (transpose f) = map fst (if_columns f).
Proof. unfold transpose. rewrite map_map. reflexivity. Qed.

Lemma fold_add_key_same (metric : string) (names : list string) : forall acc,
  fold_left add_key (map (fun _ => metric) names) acc
  = match names with [] => acc | _ :: _ => add_key acc metric end.
Proof.
  assert (Hidem : forall acc, add_key (add_key acc metric) metric = add_key acc metric).
  { intros acc. unfold add_key at 2 3.
    destruct (existsb (String.eqb metric) acc) eqn:E.
    - unfold add_key. rewrite E. reflexivity.
    - unfold add_key. rewrite existsb_app; simpl.
      rewrite String.eqb_refl, orb_true_r. reflexivity. }
  induction names as [|x names IH]; intros acc; simpl; [reflexivity|].
  rewrite IH. destruct names; [reflexivity | apply Hidem].
Qed.

Lemma outer_keys_of_columns (all_arg : bool) (names : list string) :
  names <> [] ->
  first_occurrences (map fst (build_columns all_arg names)) = metrics.
Proof.
  intros Hne. unfold first_occurrences, build_columns.
  rewrite !map_app, !map_map; simpl.
  rewrite !fold_left_app, !fold_add_key_same.
  destruct names as [|x names]; [contradiction|].
  destruct all_arg; reflexivity.
Qed.

Lemma plants_under_columns (all_arg : bool) (names : list string) (metric : string) :
  In metric metrics ->
  plants_under metric (build_columns all_arg names)
  = names ++ (if all_arg then ["Total"] else []).
Proof.
  intros Hm. unfold plants_under. destruct all_arg.
  - rewrite columns_under by exact Hm. rewrite map_app, map_map; simpl.
    rewrite map_id. reflexivity.
  - rewrite columns_under_single by exact Hm. rewrite map_map; simpl.
    rewrite map_id, app_nil_r. reflexivity.
Qed.

Lemma post_inv {Timestamp Interval : Type} (strftime : Timestamp -> string)
      (plant_name : string) (mngr : PVSystemManager Timestamp)
      (weather_api : WeatherAPI Timestamp Interval)
      (start_end : option (StartEndRequest Timestamp)) (interval : Interval)
      (r : ClearskyModel Interval) :
  post strftime plant_name mngr weather_api start_end interval = Ok r ->
  exists st ints x s,
    assemble strftime plant_name mngr weather_api start_end interval = Ok st
    /\ round_astype_int (result_df st) = Ok ints
    /\ ac_power_var st = Some (x :: s)
    /\ r = mkModel interval (fst x) (fst (last s x)) (location_tz mngr)
                   (multi_idx_to_nested_dict (transpose ints)).
Proof.
  unfold post.
  destruct (assemble strftime plant_name mngr weather_api start_end interval)
    as [st|] eqn:Ea; simpl; [|discriminate].
  unfold respond.
  destruct (round_astype_int (result_df st)) as [ints|] eqn:Ei; simpl; [|discriminate].
  destruct (ac_power_var st) as [[|x s]|] eqn:Ep; simpl; try discriminate.
  intros H; inversion H. exists st, ints, x, s. auto.
Qed.

Lemma round_astype_int_keys (df : DataFrame) (ints : IntFrame) :
  round_astype_int df = Ok ints -> map fst (if_columns ints) = df_keys df.
Proof.
  unfold round_astype_int.
  destruct (columns_to_int (df_dtypes df) (df_columns df)) as [cols|] eqn:E; simpl;
    [|discriminate].
  intros H; inversion H; subst; simpl.
  apply (columns_to_int_keys _ _ _ E).
Qed.


Lemma last_map {A B} (f : A -> B) (l : list A) (d : A) :
  last (map f l) (f d) = f (last l d).
Proof.
  induction l as [|x l IH]; simpl; [reflexivity|].
  destruct l as [|y l]; simpl in *; [reflexivity | exact IH].
Qed.

(** A response is built from the power series of the plant handled last. *)
Lemma response_from_last_plant
      {Timestamp Interval : Type} (strftime : Timestamp -> string)
      (plant_name : string) (mngr : PVSystemManager Timestamp)
      (weather_api : WeatherAPI Timestamp Interval)
      (start_end : option (StartEndRequest Timestamp)) (interval : Interval)
      (r : ClearskyModel Interval) :
  post strftime plant_name mngr weather_api start_end interval = Ok r ->
  exists p pvplant x s,
    last_processed mngr (resolve_plant_names mngr plant_name) None = Some p
    /\ get_pv_plant mngr p = Some pvplant
    /\ power_series strftime pvplant (build_datetimes weather_api start_end interval)
       = x :: s
    /\ cm_start r = fst x
    /\ cm_end r = fst (last s x).
Proof.
  intros Hp. destruct (post_inv _ _ _ _ _ _ _ Hp) as (st & ints & x & s & Ha & _ & Hv & ->).
  destruct (assemble_inv strftime _ _ _ _ _ _ Ha) as (st1 & Hg & _ & _ & Hv1 & _).
  destruct (aggregate_inv strftime _ _ _ _ _ _ Hg) as (st0 & Hr & _ & Hv0 & _).
  pose proof (run_ac_power strftime _ _ _ _ _ _ None Hr eq_refl) as Hl.
  destruct (last_processed mngr (resolve_plant_names mngr plant_name) None) as [p|].
  - destruct Hl as (pvplant & Hf & Hpow). exists p, pvplant, x, s.
    repeat split; auto. congruence.
  - congruence.
Qed.

(** C8.  The column keys are fixed from the plant names and the "all"
    flag before the loop starts: the plants under [watt], then under
    [watt_hours], then under [watt_hours_cumsum], each in request order,
    and in "all" mode the [Total] keys last, for [watt_hours],
    [watt_hours_cumsum], [watt].  The frame starts with these keys and
    still has them, in this order, when it is checked.  The nested view of
    a response lists the types in the order [watt], [watt_hours],
    [watt_hours_cumsum] and, under each type, the plants in the order of the
    columns of that type (then [Total] in "all" mode), every key at the
    place of its first occurrence. *)
Theorem column_order_is_fixed_up_front
        {Timestamp Interval : Type} (strftime : Timestamp -> string)
        (plant_name : string) (mngr : PVSystemManager Timestamp)
        (weather_api : WeatherAPI Timestamp Interval)
        (start_end : option (StartEndRequest Timestamp)) (interval : Interval)
        (r : ClearskyModel Interval) :
  post strftime plant_name mngr weather_api start_end interval = Ok r ->
  let all_arg := is_all plant_name in
  let names := resolve_plant_names mngr plant_name in
  let cols := build_columns all_arg names in
  cols = map (fun p => ("watt", p)) names
         ++ map (fun p => ("watt_hours", p)) names
         ++ map (fun p => ("watt_hours_cumsum", p)) names
         ++ (if all_arg
             then [("watt_hours", "Total"); ("watt_hours_cumsum", "Total"); ("watt", "Total")]
             else [])
  /\ df_keys (empty_frame cols) = cols
  /\ (exists st,
         assemble strftime plant_name mngr weather_api start_end interval = Ok st
         /\ df_keys (result_df st) = cols)
  /\ dict_keys (cm_result r) = ["watt"; "watt_hours"; "watt_hours_cumsum"]
  /\ (forall metric, In metric metrics ->
        keys_under metric (cm_result r)
        = first_occurrences (names ++ (if all_arg then ["Total"] else []))).
Proof.
  intros Hp all_arg names cols.
  destruct (post_inv _ _ _ _ _ _ _ Hp) as (st & ints & x & s & Ha & Hi & _ & Hr).
  destruct (assembled_cells strftime _ _ _ _ _ _ Ha) as [Hk _].
  fold all_arg names cols in Hk.
  assert (Hrows : map fst (transpose ints) = cols).
  { rewrite transpose_keys, (round_astype_int_keys _ _ Hi). exact Hk. }
  assert (Hne : names <> []).
  { destruct (response_from_last_plant _ _ _ _ _ _ _ Hp) as (p & _ & _ & _ & Hl & _).
    fold names in Hl. intros E. rewrite E in Hl. discriminate. }
  split; [|split; [|split; [|split]]].
  - unfold cols, build_columns. destruct all_arg; reflexivity.
  - apply empty_frame_keys.
  - exists st. auto.
  - rewrite Hr; simpl. unfold multi_idx_to_nested_dict.
    rewrite nested_outer_keys_from, Hrows. apply outer_keys_of_columns; exact Hne.
  - intros metric Hm. rewrite Hr; simpl. unfold multi_idx_to_nested_dict.
    rewrite nested_inner_keys_from, Hrows.
    unfold cols. rewrite plants_under_columns by exact Hm. reflexivity.
Qed.

(** C9.  The [start] and [end] of a response are the first and the last
    timestamp, as strings, of the power series of the plant the loop
    handled last -- the last requested name the registry knows -- whatever
    window was asked for. *)
Theorem start_end_come_from_last_plant
        {Timestamp Interval : Type} (strftime : Timestamp -> string)
        (plant_name : string) (mngr : PVSystemManager Timestamp)
        (weather_api : WeatherAPI Timestamp Interval)
        (start_end : option (StartEndRequest Timestamp)) (interval : Interval)
        (r : ClearskyModel Interval) :
  post strftime plant_name mngr weather_api start_end interval = Ok r ->
  exists p pvplant e rest,
    last_processed mngr (resolve_plant_names mngr plant_name) None = Some p
    /\ get_pv_plant mngr p = Some pvplant
    /\ ac_power (clearsky_run pvplant (build_datetimes weather_api start_end interval))
       = e :: rest
    /\ cm_start r = strftime (fst e)
    /\ cm_end r = strftime (fst (last rest e)).
Proof.
  intros Hp.
  destruct (response_from_last_plant _ _ _ _ _ _ _ Hp)
    as (p & pvplant & x & s & Hl & Hf & Hs & Hstart & Hend).
  unfold power_series, relabel in Hs.
  destruct (ac_power (clearsky_run pvplant
                        (build_datetimes weather_api start_end interval)))
    as [|e rest] eqn:Ea; simpl in Hs; [discriminate|].
  inversion Hs; subst x s. exists p, pvplant, e, rest.
  split; [exact Hl|]. split; [exact Hf|]. split; [exact Ea|]. split.
  - rewrite Hstart. reflexivity.
  - rewrite Hend.
    rewrite (last_map (fun e0 => (strftime (fst e0), snd e0)) rest e). reflexivity.
Qed.

(** ** Sums over plants and over time *)

Lemma sumQ_map_ext {A} (f g : A -> Q) (l : list A) :
  (forall x, In x l -> (f x == g x)%Q) -> (sumQ (map f l) == sumQ (map g l))%Q.
Proof.
  induction l as [|x l IH]; intros H; simpl; [reflexivity|].
  rewrite (H x (or_introl eq_refl)), IH; [reflexivity|].
  intros y Hy. apply H; right; exact Hy.
Qed.

Lemma sumQ_map_plus {A} (f g : A -> Q) (l : list A) :
  (sumQ (map (fun x => f x + g x) l) == sumQ (map f l) + sumQ (map g l))%Q.
Proof.
  induction l as [|x l IH]; simpl; [ring|]. rewrite IH. ring.
Qed.

Lemma sum_to_ext (f g : nat -> Q) (k : nat) :
  (forall j, (j <= k)%nat -> (f j == g j)%Q) -> (sum_to f k == sum_to g k)%Q.
Proof.
  induction k as [|k IH]; intros H; simpl.
  - apply H; lia.
  - rewrite IH, (H (S k)); [reflexivity | lia |]. intros j Hj. apply H; lia.
Qed.

(** Summing the running sums of the plants is the running sum of the sums
    over the plants. *)
Lemma sum_exchange {A} (f : A -> nat -> Q) (l : list A) (k : nat) :
  (sumQ (map (fun x => sum_to (f x) k) l)
   == sum_to (fun j => sumQ (map (fun x => f x j) l)) k)%Q.
Proof.
  induction k as [|k IH]; simpl; [reflexivity|].
  rewrite sumQ_map_plus, IH. reflexivity.
Qed.

Lemma cumsum_from_sum_to (l : list cell) (acc : Q) (k : nat) :
  (forall j, (j <= k)%nat -> exists v, nth j l None = Some v) ->
  exists c, nth k (cumsum_from acc l) None = Some c
            /\ (c == acc + sum_to (fun j => nan_to_zero (nth j l None)) k)%Q.
Proof.
  induction k as [|k IH]; intros H.
  - destruct (cumsum_from_step l acc 0 H) as (c & e & Hc & He & Hq).
    exists c. split; [exact Hc|]. simpl. rewrite He, Hq. reflexivity.
  - destruct (cumsum_from_step l acc (S k) H) as (c & e & Hc & He & b & Hb & Hq).
    destruct IH as (b' & Hb' & Hq'); [intros j Hj; apply H; lia|].
    exists c. split; [exact Hc|]. simpl. rewrite He; simpl.
    assert (b = b') by congruence. subst b' c. rewrite Hq'. ring.
Qed.

Lemma sum_upto_defined (df : DataFrame) (key : ColKey) (k : nat) :
  (forall j, (j <= k)%nat -> exists v, df_cell df key j = Some v) ->
  exists s, sum_upto df key k = Some s
            /\ (s == sum_to (fun j => nan_to_zero (df_cell df key j)) k)%Q.
Proof.
  induction k as [|k IH]; intros H; simpl.
  - destruct (H 0%nat (le_n 0)) as [v ->]; simpl. eexists; split; [reflexivity|]. ring.
  - destruct IH as (s & -> & Hs); [intros j Hj; apply H; lia|].
    destruct (H (S k) (le_n _)) as [v ->]; simpl.
    eexists; split; [reflexivity|]. rewrite Hs. ring.
Qed.

(** C10, as the code has it.  In "all" mode, in the table that passed the
    NaN check and before it is rounded, the [Total] column of
    [watt_hours_cumsum] is the running sum of the [Total] column of
    [watt_hours], when the energy series of every plant carries the index of
    the table and no plant is named ["Total"].  (The response holds the
    rounded columns, for which this fails.) *)
Theorem total_cumsum_is_running_sum_before_rounding
        {Timestamp Interval : Type} (strftime : Timestamp -> string)
        (plant_name : string) (mngr : PVSystemManager Timestamp)
        (weather_api : WeatherAPI Timestamp Interval)
        (start_end : option (StartEndRequest Timestamp)) (interval : Interval)
        (st : Locals) :
  is_all plant_name = true ->
  ~ In "Total" (dict_keys (pv_plants mngr)) ->
  assemble strftime plant_name mngr weather_api start_end interval = Ok st ->
  (forall p pvplant,
      get_pv_plant mngr p = Some pvplant ->
      labels (energy_series strftime pvplant
                (build_datetimes weather_api start_end interval))
      = df_index (result_df st)) ->
  forall k, (k < List.length (df_index (result_df st)))%nat ->
    cell_eq (df_cell (result_df st) ("watt_hours_cumsum", "Total") k)
            (sum_upto (result_df st) ("watt_hours", "Total") k).
Proof.
  intros Hall Hnt Ha Hlab k Hk.
  destruct (assemble_inv strftime _ _ _ _ _ _ Ha) as (st1 & Hg & Hdf & _).
  set (T := result_df st) in *.
  set (names := dict_keys (pv_plants mngr)).
  assert (Hnames : resolve_plant_names mngr plant_name = names).
  { unfold resolve_plant_names. rewrite Hall. reflexivity. }
  assert (Htot : forall metric j, In metric metrics -> (j < List.length (df_index T))%nat ->
            exists total, df_cell T (metric, "Total") j = Some total
              /\ (total == sumQ (map (fun p => nan_to_zero (df_cell T (metric, p) j))
                                    names))%Q).
  { intros metric j Hm Hj. rewrite Hdf in *.
    apply (aggregate_totals strftime _ _ _ _ _ _ Hall Hnt Hg metric j Hm Hj). }
  assert (Hplant : forall p, In p names ->
            (nan_to_zero (df_cell T ("watt_hours_cumsum", p) k)
             == sum_to (fun j => nan_to_zero (df_cell T ("watt_hours", p) j)) k)%Q).
  { intros p Hp.
    destruct (dict_get_key _ _ Hp) as [pvplant Hf].
    assert (Hne : is_all plant_name = true -> p <> "Total").
    { intros _ E. apply Hnt. rewrite <- E. exact Hp. }
    rewrite <- Hnames in Hp.
    destruct (assembled_energy_columns strftime _ _ _ _ _ _ _ _ Ha Hp Hf Hne
                                       (Hlab p pvplant Hf)) as (C2 & C3 & Hwh).
    destruct (cumsum_from_sum_to _ 0%Q k (fun j Hj => Hwh j ltac:(fold T; lia)))
      as (c & Hc & Hq).
    unfold df_cell. fold T in C2, C3. rewrite C2, C3, Hc. simpl. rewrite Hq. ring. }
  destruct (Htot "watt_hours_cumsum" k ltac:(simpl; auto) Hk) as (tc & Htc & Hqc).
  destruct (sum_upto_defined T ("watt_hours", "Total") k) as (s & Hs & Hqs).
  { intros j Hj. destruct (Htot "watt_hours" j ltac:(simpl; auto) ltac:(lia)) as (t & Ht & _).
    eauto. }
  rewrite Htc, Hs. simpl.
  rewrite Hqc, Hqs.
  rewrite (sumQ_map_ext _ _ names Hplant), sum_exchange.
  apply sum_to_ext. intros j Hj.
  destruct (Htot "watt_hours" j ltac:(simpl; auto) ltac:(lia)) as (t & Ht & Hqt).
  rewrite Ht. simpl. rewrite Hqt. reflexivity.
Qed.

(* ------------------------------------------------------------------ *)
(** * The claims on concrete requests *)

Lemma default_window_of_weather :
  source_dates_args weather None H1 = (0, 2, H1)%nat
  /\ source_dates_args weather None M15 = (0, 2, M15)%nat.
Proof. split; reflexivity. Qed.

Lemma all_request_assembles :
  assemble hour_stamp "All" two_plants weather None H1 = Ok all_table.
Proof. vm_compute. reflexivity. Qed.

Lemma all_request_responds :
  post hour_stamp "All" two_plants weather None H1 = Ok all_response.
Proof. vm_compute. reflexivity. Qed.

Lemma total_is_sum_of_plant_columns_witness :
  exists total s,
    df_cell (result_df all_table) ("watt", "Total") 1 = Some total
    /\ plant_sum (result_df all_table) "watt" ["A"; "B"] 1 = Some s
    /\ (total == s)%Q.
Proof.
  apply (total_is_sum_of_plant_columns hour_stamp "All" two_plants weather None H1
                                       all_table).
  - reflexivity.
  - simpl. intros [H | [H | []]]; discriminate.
  - vm_compute. reflexivity.
  - simpl. auto.
  - simpl. lia.
Defined.

Lemma cumsum_is_running_sum_witness :
  (exists c e before,
      df_cell (result_df all_table) ("watt_hours_cumsum", "B") 1 = Some c
      /\ df_cell (result_df all_table) ("watt_hours", "B") 1 = Some e
      /\ cumsum_before (result_df all_table) "B" 1 = Some before
      /\ c = (before + e)%Q)
  /\ cell_eq (df_cell (result_df all_table) ("watt_hours_cumsum", "B") 1)
             (sum_upto (result_df all_table) ("watt_hours", "B") 1).
Proof.
  apply (cumsum_is_running_sum hour_stamp "All" two_plants weather None H1
                               all_table "B" plant_B).
  - vm_compute. reflexivity.
  - simpl. auto.
  - reflexivity.
  - intros _. discriminate.
  - reflexivity.
  - simpl. lia.
Defined.

Lemma nan_check_stops_incomplete_tables_witness :
  post hour_stamp "G" gappy weather None H1 = Raise (NaNValues (result_df gappy_table)).
Proof.
  apply (nan_check_stops_incomplete_tables hour_stamp "G" gappy weather None H1
                                           gappy_table).
  - vm_compute. reflexivity.
  - exists ("watt", "G"), [q 100 1; None], 1%nat.
    split; [left; reflexivity|]. split; [simpl; lia | reflexivity].
Defined.

Lemma unknown_single_plant_ends_unbound_witness :
  post hour_stamp "Ghost" one_plant weather None H1
  = Raise (UnboundLocalError "ac_power").
Proof.
  apply (unknown_single_plant_ends_unbound hour_stamp "Ghost" one_plant weather None H1).
  - reflexivity.
  - reflexivity.
Defined.

Lemma all_lookups_failed_passes_nan_check_witness :
  exists st,
    aggregate hour_stamp "Ghost" one_plant weather None H1 = Ok st
    /\ df_keys (result_df st)
       = build_columns (is_all "Ghost") (resolve_plant_names one_plant "Ghost")
    /\ df_index (result_df st) = []
    /\ (forall k col, In (k, col) (df_columns (result_df st)) -> col = [])
    /\ check_nan (result_df st) = Ok (result_df st)
    /\ post hour_stamp "Ghost" one_plant weather None H1
       = Raise (UnboundLocalError "ac_power").
Proof.
  apply (all_lookups_failed_passes_nan_check hour_stamp "Ghost" one_plant weather None H1).
  simpl. intros p [<- | []]. reflexivity.
Defined.

Lemma lookup_failure_is_skipped_witness :
  same_outcome
    (run_plants hour_stamp two_plants [0; 1] "All" (["A"] ++ "Ghost" :: ["B"])
                (mkLocals (empty_frame (build_columns true ["A"; "Ghost"; "B"])) None []))
    (run_plants hour_stamp two_plants [0; 1] "All" (["A"] ++ ["B"])
                (mkLocals (empty_frame (build_columns true ["A"; "Ghost"; "B"])) None [])).
Proof.
  apply (lookup_failure_is_skipped hour_stamp two_plants [0; 1] "All" "Ghost").
  reflexivity.
Defined.

(** C6 fails as stated.  For the single unknown name ["Ghost"] the three
    columns of the name are in the table the loop leaves, and the request
    does not end in a response.  For the batch ["A"; "Ghost"] in "all" mode,
    run from the frame the handler declares for it, the columns of
    ["Ghost"] are in the table as well, without values, and the NaN check
    rejects the table. *)
Lemma unknown_plant_columns_stay_in_table :
  (exists st,
      aggregate hour_stamp "Ghost" one_plant weather None H1 = Ok st
      /\ df_keys (result_df st)
         = [("watt", "Ghost"); ("watt_hours", "Ghost"); ("watt_hours_cumsum", "Ghost")]
      /\ is_ok (post hour_stamp "Ghost" one_plant weather None H1) = false)
  /\ (exists st df,
         run_plants hour_stamp one_plant [0; 1] "All" ["A"; "Ghost"]
                    (mkLocals (empty_frame (build_columns true ["A"; "Ghost"])) None [])
         = Ok st
         /\ In ("watt", "Ghost") (df_keys (result_df st))
         /\ column ("watt", "Ghost") (df_columns (result_df st)) = Some [None; None]
         /\ add_totals true (result_df st) = Ok df
         /\ check_nan df = Raise (NaNValues df)).
Proof.
  split.
  - eexists. split; [vm_compute; reflexivity|]. simpl.
    split; reflexivity.
  - eexists. eexists. split; [vm_compute; reflexivity|].
    split; [simpl; auto|]. split; [reflexivity|].
    split; vm_compute; reflexivity.
Qed.

Lemma column_order_is_fixed_up_front_witness :
  dict_keys (cm_result all_response) = ["watt"; "watt_hours"; "watt_hours_cumsum"]
  /\ keys_under "watt" (cm_result all_response) = ["A"; "B"; "Total"]
  /\ build_columns true ["A"; "B"]
     = [("watt", "A"); ("watt", "B");
        ("watt_hours", "A"); ("watt_hours", "B");
        ("watt_hours_cumsum", "A"); ("watt_hours_cumsum", "B");
        ("watt_hours", "Total"); ("watt_hours_cumsum", "Total"); ("watt", "Total")].
Proof.
  pose proof (column_order_is_fixed_up_front
                hour_stamp "All" two_plants weather None H1 all_response
                ltac:(vm_compute; reflexivity)) as (Hcols & _ & _ & Hout & Hin).
  split; [exact Hout|]. split.
  - apply (Hin "watt"). simpl. auto.
  - exact Hcols.
Defined.

Lemma late_request_responds :
  post hour_stamp "L" late weather (Some (mkStartEnd 5 7)) H1 = Ok late_response.
Proof. vm_compute. reflexivity. Qed.

Lemma late_first_request_responds :
  post hour_stamp "All" late_first weather (Some (mkStartEnd 5 7)) H1
  = Ok late_first_response.
Proof. vm_compute. reflexivity. Qed.

Lemma start_end_come_from_last_plant_witness :
  exists p pvplant e rest,
    last_processed late_first (resolve_plant_names late_first "All") None = Some p
    /\ get_pv_plant late_first p = Some pvplant
    /\ ac_power (clearsky_run pvplant
                   (build_datetimes weather (Some (mkStartEnd 5 7)) H1)) = e :: rest
    /\ cm_start late_first_response = hour_stamp (fst e)
    /\ cm_end late_first_response = hour_stamp (fst (last rest e)).
Proof.
  apply (start_end_come_from_last_plant hour_stamp "All" late_first weather
                                        (Some (mkStartEnd 5 7)) H1 late_first_response).
  vm_compute. reflexivity.
Defined.

(** On that request the plant handled last is A, registered second; its
    power series has the two rows of hours 5 and 6, and the response
    starts at hour 5 and ends at hour 6 -- where the table, whose rows come
    from plant L, has the row of hour 6 only. *)
Lemma late_first_start_end :
  last_processed late_first (resolve_plant_names late_first "All") None = Some "A"
  /\ labels (power_series hour_stamp plant_A
                (build_datetimes weather (Some (mkStartEnd 5 7)) H1)) = [t5; t6]
  /\ cm_start late_first_response = t5
  /\ cm_end late_first_response = t6
  /\ df_index (result_df late_first_table) = [t6].
Proof. repeat split; vm_compute; reflexivity. Qed.

(** C2 fails as stated.  On the answered request over plants L and A the
    table has the row of hour 6 only; plant A, which the loop handled,
    has the energy 1/2 in that row and the cumulative energy 1, the
    running sum of its own series over hours 5 and 6: the cumulative
    value of the first row is not "0 plus the energy of the row".  The
    response shows the same: 0 under [watt_hours], 1 under
    [watt_hours_cumsum]. *)
Lemma misaligned_cumsum_is_not_running_sum :
  post hour_stamp "All" late_first weather (Some (mkStartEnd 5 7)) H1
  = Ok late_first_response
  /\ assemble hour_stamp "All" late_first weather (Some (mkStartEnd 5 7)) H1
     = Ok late_first_table
  /\ In "A" (resolve_plant_names late_first "All")
  /\ get_pv_plant late_first "A" = Some plant_A
  /\ (exists c e before,
        df_cell (result_df late_first_table) ("watt_hours_cumsum", "A") 0 = Some c
        /\ df_cell (result_df late_first_table) ("watt_hours", "A") 0 = Some e
        /\ cumsum_before (result_df late_first_table) "A" 0 = Some before
        /\ (c == 1)%Q /\ (e == 1 # 2)%Q /\ before = 0%Q
        /\ ~ (c == before + e)%Q)
  /\ ~ cell_eq (df_cell (result_df late_first_table) ("watt_hours_cumsum", "A") 0)
               (sum_upto (result_df late_first_table) ("watt_hours", "A") 0)
  /\ response_values (cm_result late_first_response) "watt_hours" "A" = [0]%Z
  /\ response_values (cm_result late_first_response) "watt_hours_cumsum" "A" = [1]%Z.
Proof.
  split; [vm_compute; reflexivity|].
  split; [vm_compute; reflexivity|].
  split; [simpl; auto|].
  split; [reflexivity|].
  split.
  - exists (4 # 4)%Q, (1 # 2)%Q, 0%Q.
    repeat split; try reflexivity; vm_compute; discriminate.
  - split; [vm_compute; discriminate|]. split; reflexivity.
Qed.

(** C10 fails on the response: with one plant whose energies are 1/2 and
    1/2, the response lists [0, 0] under [watt_hours]/[Total] and [0, 1]
    under [watt_hours_cumsum]/[Total]. *)
Lemma rounded_totals_are_not_running_sums :
  post hour_stamp "all" one_plant weather None H1 = Ok half_response
  /\ response_values (cm_result half_response) "watt_hours" "Total" = [0; 0]%Z
  /\ response_values (cm_result half_response) "watt_hours_cumsum" "Total" = [0; 1]%Z
  /\ response_values (cm_result half_response) "watt_hours_cumsum" "Total"
     <> running_sums 0 (response_values (cm_result half_response) "watt_hours" "Total").
Proof.
  split; [vm_compute; reflexivity|].
  split; [reflexivity|]. split; [reflexivity|].
  vm_compute. discriminate.
Qed.

Lemma total_cumsum_is_running_sum_before_rounding_witness :
  cell_eq (df_cell (result_df all_table) ("watt_hours_cumsum", "Total") 1)
          (sum_upto (result_df all_table) ("watt_hours", "Total") 1).
Proof.
  apply (total_cumsum_is_running_sum_before_rounding
           hour_stamp "All" two_plants weather None H1 all_table).
  - reflexivity.
  - simpl. intros [H | [H | []]]; discriminate.
  - vm_compute. reflexivity.
  - intros p pvplant Hf. unfold get_pv_plant in Hf. simpl in Hf.
    destruct (String.eqb p "A"); [inversion Hf; reflexivity|].
    destruct (String.eqb p "B"); [inversion Hf; reflexivity | discriminate].
  - simpl. lia.
Defined.

(* ------------------------------------------------------------------ *)
(** * Further properties of the handler *)

(** ** The log *)

Lemma run_log {Timestamp : Type} (strftime : Timestamp -> string)
      (mngr : PVSystemManager Timestamp) (datetimes : list Timestamp)
      (plant_name : string) (names : list string) : forall st st',
  run_plants strftime mngr datetimes plant_name names st = Ok st' ->
  log st' = log st ++ loop_log mngr plant_name names.
Proof.
  unfold run_plants.
  induction names as [|x names IH]; intros st st' Hr; simpl in Hr.
  - inversion Hr; subst. simpl. rewrite app_nil_r. reflexivity.
  - destruct (loop_body strftime mngr datetimes plant_name st x) as [st1|] eqn:Hb;
      simpl in Hr; [|discriminate].
    rewrite (IH _ _ Hr). unfold loop_log; simpl. fold (loop_log mngr plant_name names).
    destruct (get_pv_plant mngr x) as [pvplant|] eqn:Hf.
    + destruct (body_found strftime _ _ _ _ _ _ _ Hf Hb) as (_ & _ & _ & _ & _ & _ & Hl).
      rewrite Hl, <- app_assoc. reflexivity.
    + rewrite (body_not_found strftime _ _ _ _ _ Hf) in Hb.
      inversion Hb; subst st1; simpl. rewrite <- app_assoc. reflexivity.
Qed.

(** X1.  What a request that reaches the NaN check has logged: the line
    about the missing body when there is none, then, for every requested
    name in order, the estimate line and, when the registry does not know the
    name, the error line -- which carries the [plant_name] of the request,
    not the name that was looked up. *)
Theorem request_log
        {Timestamp Interval : Type} (strftime : Timestamp -> string)
        (plant_name : string) (mngr : PVSystemManager Timestamp)
        (weather_api : WeatherAPI Timestamp Interval)
        (start_end : option (StartEndRequest Timestamp)) (interval : Interval)
        (st : Locals) :
  aggregate strftime plant_name mngr weather_api start_end interval = Ok st ->
  log st = first_log start_end
           ++ loop_log mngr plant_name (resolve_plant_names mngr plant_name).
Proof.
  intros Hg.
  destruct (aggregate_inv strftime _ _ _ _ _ _ Hg) as (st0 & Hr & _ & _ & Hl).
  rewrite Hl, (run_log _ _ _ _ _ _ _ Hr). reflexivity.
Qed.

Lemma loop_log_all_found {Timestamp : Type} (mngr : PVSystemManager Timestamp)
      (plant_name : string) (names : list string) :
  (forall p, In p names -> exists pvplant, get_pv_plant mngr p = Some pvplant) ->
  loop_log mngr plant_name names = map InfoEstimating names.
Proof.
  induction names as [|x names IH]; intros H; [reflexivity|].
  unfold loop_log; simpl. fold (loop_log mngr plant_name names).
  destruct (H x (or_introl eq_refl)) as [pvplant ->]. simpl.
  rewrite IH; [reflexivity|]. intros p Hp. apply H; right; exact Hp.
Qed.

(** With the registry lookup read as a lookup in [pv_plants]: in "all"
    mode the requested names are the keys of the registry, so every lookup
    succeeds, the branch that catches the [KeyError] is never taken and the
    log has one estimate line per plant and no error line. *)
Theorem all_mode_lookups_succeed
        {Timestamp Interval : Type} (strftime : Timestamp -> string)
        (plant_name : string) (mngr : PVSystemManager Timestamp)
        (weather_api : WeatherAPI Timestamp Interval)
        (start_end : option (StartEndRequest Timestamp)) (interval : Interval) :
  is_all plant_name = true ->
  (forall p, In p (resolve_plant_names mngr plant_name) ->
             exists pvplant, get_pv_plant mngr p = Some pvplant)
  /\ (forall st,
         aggregate strftime plant_name mngr weather_api start_end interval = Ok st ->
         log st = first_log start_end ++ map InfoEstimating (dict_keys (pv_plants mngr))).
Proof.
  intros Hall.
  assert (Hnames : resolve_plant_names mngr plant_name = dict_keys (pv_plants mngr)).
  { unfold resolve_plant_names. rewrite Hall. reflexivity. }
  assert (Hfound : forall p, In p (resolve_plant_names mngr plant_name) ->
                             exists pvplant, get_pv_plant mngr p = Some pvplant).
  { intros p Hp. rewrite Hnames in Hp. apply dict_get_key; exact Hp. }
  split; [exact Hfound|].
  intros st Hg.
  destruct (aggregate_inv strftime _ _ _ _ _ _ Hg) as (st0 & Hr & _ & _ & Hl).
  rewrite Hl, (run_log _ _ _ _ _ _ _ Hr); simpl.
  rewrite (loop_log_all_found _ _ _ Hfound), Hnames. reflexivity.
Qed.

(** ** The rows of the table *)

Lemma add_total_index (metric : string) (df df' : DataFrame) :
  add_total metric df = Ok df' -> df_index df' = df_index df.
Proof.
  unfold add_total.
  destruct (getitem_level0 df metric) as [sub|]; simpl; [|discriminate].
  intros H. rewrite (setitem_index _ _ _ _ H), labels_sum_axis1.
  destruct (df_index df); reflexivity.
Qed.

Lemma add_totals_index (all_arg : bool) (df df' : DataFrame) :
  add_totals all_arg df = Ok df' -> df_index df' = df_index df.
Proof.
  unfold add_totals. destruct all_arg; [|intros H; inversion H; reflexivity].
  destruct (add_total "watt" df) as [df1|] eqn:E1; simpl; [|discriminate].
  destruct (add_total "watt_hours" df1) as [df2|] eqn:E2; simpl; [|discriminate].
  intros E3.
  rewrite (add_total_index _ _ _ E3), (add_total_index _ _ _ E2).
  apply (add_total_index _ _ _ E1).
Qed.

Lemma setitem_index_settled (df : DataFrame) {dt : dtype} key s df' :
  setitem df key s dt = Ok df' -> df_index df <> [] -> df_index df' = df_index df.
Proof.
  intros H Hne. rewrite (setitem_index _ _ _ _ H).
  destruct (df_index df); [contradiction | reflexivity].
Qed.

(** X2.  The rows of the table are the timestamps of the first series
    written into it: when the names before a plant are unknown to the
    registry and that plant's power series is not empty, the index of the
    table is the index of that power series, whatever the later plants
    return.  In "all" mode no plant is called ["Total"], so that every
    column key of the frame labels one column. *)
Theorem table_index_from_first_plant
        {Timestamp Interval : Type} (strftime : Timestamp -> string)
        (plant_name : string) (mngr : PVSystemManager Timestamp)
        (weather_api : WeatherAPI Timestamp Interval)
        (start_end : option (StartEndRequest Timestamp)) (interval : Interval)
        (st : Locals) (skipped rest : list string) (p : string)
        (pvplant : PVPlantModel Timestamp) :
  aggregate strftime plant_name mngr weather_api start_end interval = Ok st ->
  (is_all plant_name = true -> ~ In "Total" (dict_keys (pv_plants mngr))) ->
  resolve_plant_names mngr plant_name = skipped ++ p :: rest ->
  (forall x, In x skipped -> get_pv_plant mngr x = None) ->
  get_pv_plant mngr p = Some pvplant ->
  power_series strftime pvplant (build_datetimes weather_api start_end interval) <> [] ->
  df_index (result_df st)
  = labels (power_series strftime pvplant
              (build_datetimes weather_api start_end interval)).
Proof.
  intros Hg _ Hnames Hskip Hf Hne.
  destruct (aggregate_inv strftime _ _ _ _ _ _ Hg) as (st0 & Hr & Ht & _).
  rewrite (add_totals_index _ _ _ Ht).
  set (datetimes := build_datetimes weather_api start_end interval) in *.
  set (P := power_series strftime pvplant datetimes) in *.
  remember (mkLocals
              (empty_frame (build_columns (is_all plant_name)
                                          (resolve_plant_names mngr plant_name)))
              None
              match start_end with None => [InfoNoStartEnd] | Some _ => [] end) as start.
  assert (Hdecl : forall x, In x (resolve_plant_names mngr plant_name) ->
                            declared x (result_df start)).
  { intros x Hx. subst start. apply declared_build_columns; exact Hx. }
  rewrite Hnames in Hr, Hdecl. unfold run_plants in Hr. rewrite for_each_app in Hr.
  destruct (run_all_missing strftime mngr datetimes plant_name skipped start Hskip)
    as [log' Hs].
  unfold run_plants in Hs. rewrite Hs in Hr. simpl in Hr.
  set (st1 := mkLocals (result_df start) (ac_power_var start) log') in *.
  destruct (loop_body strftime mngr datetimes plant_name st1 p) as [st2|] eqn:Hb;
    simpl in Hr; [|discriminate].
  assert (Hp : declared p (result_df st1)).
  { apply Hdecl. apply in_or_app; right; left; reflexivity. }
  destruct (body_found strftime _ _ _ _ _ _ _ Hf Hb) as (df1 & df2 & E1 & E2 & E3 & _).
  assert (I1 : df_index df1 = labels P).
  { rewrite (setitem_index _ _ _ _ E1). subst start. reflexivity. }
  assert (N1 : df_index df1 <> []).
  { rewrite I1. intros E. apply labels_nil in E. contradiction. }
  assert (I2 : df_index df2 = labels P).
  { rewrite (setitem_index_settled _ _ _ _ E2 N1). exact I1. }
  assert (I3 : df_index (result_df st2) = labels P).
  { rewrite (setitem_index_settled _ _ _ _ E3); [exact I2|]. rewrite I2, <- I1. exact N1. }
  rewrite <- I3.
  apply (run_index strftime mngr datetimes plant_name rest st2 st0).
  - intros x Hx. unfold declared.
    rewrite (body_keys strftime _ _ _ st1 p st2 Hp Hb).
    apply Hdecl. apply in_or_app; right; right; exact Hx.
  - exact Hr.
  - rewrite I3, <- I1. exact N1.
Qed.

Lemma nth_align (s : Series string) (index : list string) (i : nat) :
  (i < List.length index)%nat ->
  nth i (align s index) None = aligned_cell s index i.
Proof.
  intros Hi. unfold align, aligned_cell.
  destruct (labels_eqb (labels s) index); [reflexivity|].
  rewrite (nth_indep _ None (series_get "" s)) by (rewrite length_map; exact Hi).
  apply (map_nth (fun l => series_get l s)).
Qed.

(** The three columns of a found plant in the table with its totals. *)
Lemma aggregate_plant_columns
      {Timestamp Interval : Type} (strftime : Timestamp -> string)
      (plant_name : string) (mngr : PVSystemManager Timestamp)
      (weather_api : WeatherAPI Timestamp Interval)
      (start_end : option (StartEndRequest Timestamp)) (interval : Interval)
      (st : Locals) (p : string) (pvplant : PVPlantModel Timestamp) :
  aggregate strftime plant_name mngr weather_api start_end interval = Ok st ->
  In p (resolve_plant_names mngr plant_name) ->
  get_pv_plant mngr p = Some pvplant ->
  (is_all plant_name = true -> p <> "Total") ->
  plant_written strftime (build_datetimes weather_api start_end interval) pvplant p
                (result_df st).
Proof.
  intros Hg Hp Hf Hnt.
  destruct (aggregate_inv strftime _ _ _ _ _ _ Hg) as (st0 & Hr & Ht & _).
  destruct (loop_end strftime _ _ _ _ _ _ Hr) as (_ & _ & _ & _ & Hw).
  specialize (Hw p pvplant Hp Hf).
  destruct (is_all plant_name) eqn:Hall.
  - apply (add_totals_keeps
             (plant_written strftime (build_datetimes weather_api start_end interval)
                            pvplant p) true _ _) in Ht; auto.
    intros d m s d' Hs (W1 & W2 & W3).
    assert (Hne : p <> "Total") by auto.
    split; [|split]; apply (setitem_keeps_written _ _ _ _ _ _ Hs); auto; other_plant.
  - simpl in Ht. inversion Ht. exact Hw.
Qed.

(** X3.  What the table holds for a plant the loop handled: at every row,
    the [watt] cell is the plant's power series aligned on the index of the
    table, the [watt_hours] cell its energy series, and the
    [watt_hours_cumsum] cell the running sum of the whole energy series,
    taken before the alignment.  A timestamp of the table the series lacks
    gives NaN; a timestamp of the series the table lacks is dropped. *)
Theorem table_holds_aligned_series
        {Timestamp Interval : Type} (strftime : Timestamp -> string)
        (plant_name : string) (mngr : PVSystemManager Timestamp)
        (weather_api : WeatherAPI Timestamp Interval)
        (start_end : option (StartEndRequest Timestamp)) (interval : Interval)
        (st : Locals) (p : string) (pvplant : PVPlantModel Timestamp) :
  aggregate strftime plant_name mngr weather_api start_end interval = Ok st ->
  In p (resolve_plant_names mngr plant_name) ->
  get_pv_plant mngr p = Some pvplant ->
  (is_all plant_name = true -> p <> "Total") ->
  forall i, (i < List.length (df_index (result_df st)))%nat ->
    df_cell (result_df st) ("watt", p) i
    = aligned_cell (power_series strftime pvplant
                      (build_datetimes weather_api start_end interval))
                   (df_index (result_df st)) i
    /\ df_cell (result_df st) ("watt_hours", p) i
       = aligned_cell (energy_series strftime pvplant
                         (build_datetimes weather_api start_end interval))
                      (df_index (result_df st)) i
    /\ df_cell (result_df st) ("watt_hours_cumsum", p) i
       = aligned_cell (cumsum (energy_series strftime pvplant
                                 (build_datetimes weather_api start_end interval)))
                      (df_index (result_df st)) i.
Proof.
  intros Hg Hp Hf Hnt i Hi.
  destruct (aggregate_plant_columns strftime _ _ _ _ _ _ _ _ Hg Hp Hf Hnt)
    as ([W1 _] & [W2 _] & [W3 _]).
  unfold df_cell. rewrite W1, W2, W3, !nth_align by exact Hi. auto.
Qed.

Lemma series_get_some_in (l : string) (s : Series string) (v : Q) :
  series_get l s = Some v -> In l (labels s).
Proof.
  induction s as [|[l' c] s IH]; simpl; [discriminate|].
  destruct (String.eqb l l') eqn:E.
  - apply String.eqb_eq in E. auto.
  - intros H. right. apply IH; exact H.
Qed.

Lemma aligned_cell_some_in (s : Series string) (index : list string) (i : nat) (v : Q) :
  (i < List.length index)%nat ->
  aligned_cell s index i = Some v -> In (nth i index "") (labels s).
Proof.
  intros Hi. unfold aligned_cell.
  destruct (labels_eqb (labels s) index) eqn:E.
  - apply labels_eqb_eq in E. intros _. rewrite E. apply nth_In; exact Hi.
  - apply series_get_some_in.
Qed.

(** X4.  A request only succeeds when the series of every plant it handled
    cover the rows of the table: each timestamp of the table is a timestamp
    of the plant's power series and of its energy series. *)
Theorem checked_table_is_covered_by_every_plant
        {Timestamp Interval : Type} (strftime : Timestamp -> string)
        (plant_name : string) (mngr : PVSystemManager Timestamp)
        (weather_api : WeatherAPI Timestamp Interval)
        (start_end : option (StartEndRequest Timestamp)) (interval : Interval)
        (st : Locals) (p : string) (pvplant : PVPlantModel Timestamp) :
  assemble strftime plant_name mngr weather_api start_end interval = Ok st ->
  In p (resolve_plant_names mngr plant_name) ->
  get_pv_plant mngr p = Some pvplant ->
  (is_all plant_name = true -> p <> "Total") ->
  incl (df_index (result_df st))
       (labels (power_series strftime pvplant
                  (build_datetimes weather_api start_end interval)))
  /\ incl (df_index (result_df st))
          (labels (energy_series strftime pvplant
                     (build_datetimes weather_api start_end interval))).
Proof.
  intros Ha Hp Hf Hnt.
  destruct (assembled_cells strftime _ _ _ _ _ _ Ha) as [_ Hcells].
  destruct (assembled_plant_columns strftime _ _ _ _ _ _ _ _ Ha Hp Hf Hnt)
    as ([W1 _] & [W2 _] & _).
  assert (Hin : forall m, In m metrics ->
            In (m, p) (build_columns (is_all plant_name)
                                     (resolve_plant_names mngr plant_name))).
  { intros m Hm. unfold build_columns. rewrite !in_app_iff.
    destruct Hm as [<- | [<- | [<- | []]]]; auto using in_map. }
  split; intros l Hl; destruct (In_nth _ _ "" Hl) as (i & Hi & Hn); rewrite <- Hn.
  - destruct (Hcells ("watt", p) i (Hin "watt" ltac:(simpl; auto)) Hi) as [v Hv].
    unfold df_cell in Hv. rewrite W1, nth_align in Hv by exact Hi.
    apply (aligned_cell_some_in _ _ _ _ Hi Hv).
  - destruct (Hcells ("watt_hours", p) i (Hin "watt_hours" ltac:(simpl; auto)) Hi)
      as [v Hv].
    unfold df_cell in Hv. rewrite W2, nth_align in Hv by exact Hi.
    apply (aligned_cell_some_in _ _ _ _ Hi Hv).
Qed.

(** ** The exceptions a request can end in *)

Lemma setitem_raises (df : DataFrame) {dt : dtype} key s (e : Exception) :
  setitem df key s dt = Raise e -> e = DuplicateLabels.
Proof.
  unfold setitem, reindex_for_setitem.
  destruct (labels_eqb _ _ || _); simpl; [discriminate|].
  destruct (is_unique (labels s)); simpl; [discriminate|].
  intros H; inversion H; reflexivity.
Qed.

Lemma run_raises {Timestamp : Type} (strftime : Timestamp -> string)
      (mngr : PVSystemManager Timestamp) (datetimes : list Timestamp)
      (plant_name : string) (names : list string) (e : Exception) : forall st,
  run_plants strftime mngr datetimes plant_name names st = Raise e ->
  e = DuplicateLabels.
Proof.
  unfold run_plants.
  induction names as [|x names IH]; intros st Hr; simpl in Hr; [discriminate|].
  destruct (loop_body strftime mngr datetimes plant_name st x) as [st1|e1] eqn:Hb;
    simpl in Hr; [apply (IH _ Hr)|].
  inversion Hr; subst e1. clear Hr. unfold loop_body in Hb.
  destruct (get_pv_plant mngr x) as [pvplant|]; [|discriminate].
  destruct (setitem (result_df st) _ _ _) as [df1|e1] eqn:E1; simpl in Hb;
    [|inversion Hb; subst; apply (setitem_raises _ _ _ _ E1)].
  destruct (setitem df1 _ _ _) as [df2|e2] eqn:E2; simpl in Hb;
    [|inversion Hb; subst; apply (setitem_raises _ _ _ _ E2)].
  destruct (setitem df2 _ _ _) as [df3|e3] eqn:E3; simpl in Hb;
    [discriminate | inversion Hb; subst; apply (setitem_raises _ _ _ _ E3)].
Qed.

Lemma add_total_succeeds (metric : string) (df : DataFrame) :
  In (metric, "Total") (df_keys df) -> exists df', add_total metric df = Ok df'.
Proof.
  intros Hin. unfold add_total.
  destruct (getitem_level0 df metric) as [sub|e] eqn:Eg.
  - cbn [bind]. unfold setitem. cbv zeta.
    rewrite ensure_valid_index_same by (intros Hd; rewrite Hd; reflexivity).
    unfold reindex_for_setitem. rewrite labels_sum_axis1, labels_eqb_refl.
    cbn [orb bind]. eauto.
  - exfalso. unfold getitem_level0 in Eg.
    unfold df_keys in Hin. apply in_map_iff in Hin.
    destruct Hin as [[[m pl] col] [Hk Hc]]. simpl in Hk. inversion Hk; subst m pl.
    match type of Eg with
    | context [filter ?f ?l] =>
        assert (Hc' : In (metric, "Total", col) (filter f l))
          by (apply filter_In; split; [exact Hc|]; simpl; apply String.eqb_refl);
        destruct (filter f l); [contradiction | discriminate]
    end.
Qed.

Lemma add_totals_succeeds (all_arg : bool) (df : DataFrame) :
  (all_arg = true -> forall m, In m metrics -> In (m, "Total") (df_keys df)) ->
  exists df', add_totals all_arg df = Ok df'.
Proof.
  intros Hin. unfold add_totals. destruct all_arg; [|eauto].
  specialize (Hin eq_refl).
  destruct (add_total_succeeds "watt" df) as [df1 E1]; [apply Hin; simpl; auto|].
  destruct (add_total_is_setitem _ _ _ E1) as [s1 H1].
  assert (K1 : df_keys df1 = df_keys df).
  { apply (setitem_keys _ _ _ _ H1). apply Hin; simpl; auto. }
  destruct (add_total_succeeds "watt_hours" df1) as [df2 E2];
    [rewrite K1; apply Hin; simpl; auto|].
  destruct (add_total_is_setitem _ _ _ E2) as [s2 H2].
  assert (K2 : df_keys df2 = df_keys df).
  { rewrite <- K1. apply (setitem_keys _ _ _ _ H2). rewrite K1. apply Hin; simpl; auto. }
  destruct (add_total_succeeds "watt_hours_cumsum" df2) as [df3 E3];
    [rewrite K2; apply Hin; simpl; auto|].
  rewrite E1; simpl. rewrite E2; simpl. eauto.
Qed.

Lemma aggregate_raises
      {Timestamp Interval : Type} (strftime : Timestamp -> string)
      (plant_name : string) (mngr : PVSystemManager Timestamp)
      (weather_api : WeatherAPI Timestamp Interval)
      (start_end : option (StartEndRequest Timestamp)) (interval : Interval)
      (e : Exception) :
  aggregate strftime plant_name mngr weather_api start_end interval = Raise e ->
  e = DuplicateLabels.
Proof.
  unfold aggregate.
  destruct (run_plants strftime mngr (build_datetimes weather_api start_end interval)
                       plant_name (resolve_plant_names mngr plant_name) _)
    as [st0|e0] eqn:Hr; simpl.
  - destruct (loop_end strftime _ _ _ _ _ _ Hr) as (Hk & _).
    destruct (add_totals_succeeds (is_all plant_name) (result_df st0)) as [df' ->].
    + intros Hall m Hm. rewrite Hk, Hall. apply total_declared; exact Hm.
    + simpl. discriminate.
  - intros H; inversion H; subst. apply (run_raises _ _ _ _ _ _ _ Hr).
Qed.

(** How a request ends, by the stage that ends it. *)
Lemma post_cases
      {Timestamp Interval : Type} (strftime : Timestamp -> string)
      (plant_name : string) (mngr : PVSystemManager Timestamp)
      (weather_api : WeatherAPI Timestamp Interval)
      (start_end : option (StartEndRequest Timestamp)) (interval : Interval) :
  post strftime plant_name mngr weather_api start_end interval = Raise DuplicateLabels
  \/ exists st,
       aggregate strftime plant_name mngr weather_api start_end interval = Ok st
       /\ (post strftime plant_name mngr weather_api start_end interval
           = Raise (NaNValues (result_df st))
           \/ (isnull_any (result_df st) = false
               /\ post strftime plant_name mngr weather_api start_end interval
                  = match round_astype_int (result_df st) with
                    | Raise e => Raise e
                    | Ok ints =>
                        match ac_power_var st with
                        | None => Raise (UnboundLocalError "ac_power")
                        | Some [] => Raise IndexError
                        | Some (x :: s) =>
                            Ok (mkModel interval (fst x) (fst (last s x))
                                        (location_tz mngr)
                                        (multi_idx_to_nested_dict (transpose ints)))
                        end
                    end)).
Proof.
  unfold post, assemble.
  destruct (aggregate strftime plant_name mngr weather_api start_end interval)
    as [st|e] eqn:Hg; simpl.
  - right. exists st. split; [reflexivity|].
    unfold check_nan. destruct (isnull_any (result_df st)) eqn:Hn; simpl; [left; auto|].
    right. split; [reflexivity|]. unfold respond; simpl.
    destruct (round_astype_int (result_df st)); simpl; [|reflexivity].
    destruct (ac_power_var st) as [[|x s]|]; reflexivity.
  - left. rewrite (aggregate_raises _ _ _ _ _ _ _ Hg). reflexivity.
Qed.

Lemma last_processed_is_none {Timestamp : Type} (mngr : PVSystemManager Timestamp)
      (names : list string) : forall before,
  last_processed mngr names before = None ->
  before = None /\ forall p, In p names -> get_pv_plant mngr p = None.
Proof.
  unfold last_processed.
  induction names as [|x names IH]; intros before H; simpl in *.
  - split; [exact H | tauto].
  - destruct (IH _ H) as [Hb Hn].
    destruct (get_pv_plant mngr x) eqn:Hf; [discriminate|].
    split; [exact Hb|]. intros p [<- | Hp]; auto.
Qed.

(** [ac_power] when the table is assembled. *)
Lemma aggregate_ac_power
      {Timestamp Interval : Type} (strftime : Timestamp -> string)
      (plant_name : string) (mngr : PVSystemManager Timestamp)
      (weather_api : WeatherAPI Timestamp Interval)
      (start_end : option (StartEndRequest Timestamp)) (interval : Interval)
      (st : Locals) :
  aggregate strftime plant_name mngr weather_api start_end interval = Ok st ->
  match last_processed mngr (resolve_plant_names mngr plant_name) None with
  | Some p => exists pvplant,
                get_pv_plant mngr p = Some pvplant
                /\ ac_power_var st
                   = Some (power_series strftime pvplant
                             (build_datetimes weather_api start_end interval))
  | None => ac_power_var st = None
  end.
Proof.
  intros Hg.
  destruct (aggregate_inv strftime _ _ _ _ _ _ Hg) as (st0 & Hr & _ & Hv & _).
  rewrite Hv.
  apply (run_ac_power strftime _ _ _ _ _ _ None Hr eq_refl).
Qed.

(** X6.  A request that ends in [UnboundLocalError] asked only for names
    the registry does not know: as soon as one requested name is known,
    [ac_power] is bound when the response is built. *)
Theorem unbound_local_means_no_known_plant
        {Timestamp Interval : Type} (strftime : Timestamp -> string)
        (plant_name : string) (mngr : PVSystemManager Timestamp)
        (weather_api : WeatherAPI Timestamp Interval)
        (start_end : option (StartEndRequest Timestamp)) (interval : Interval) :
  post strftime plant_name mngr weather_api start_end interval
  = Raise (UnboundLocalError "ac_power") ->
  forall p, In p (resolve_plant_names mngr plant_name) -> get_pv_plant mngr p = None.
Proof.
  intros Hp.
  destruct (post_cases strftime plant_name mngr weather_api start_end interval)
    as [H | (st & Hg & [H | [Hn H]])]; rewrite H in Hp; try discriminate.
  destruct (round_astype_int (result_df st)) as [ints|e] eqn:Ei.
  2: { inversion Hp; subst e.
       destruct (round_astype_int_raises _ _ Ei) as [E | [E | E]]; discriminate. }
  pose proof (aggregate_ac_power strftime _ _ _ _ _ _ Hg) as Hl.
  destruct (last_processed mngr (resolve_plant_names mngr plant_name) None)
    as [q|] eqn:El.
  - destruct Hl as (pvplant & _ & Hv). rewrite Hv in Hp.
    destruct (power_series strftime pvplant _) as [|x s]; discriminate.
  - apply (last_processed_is_none _ _ _ El).
Qed.

(** X7.  A request that ends in [IndexError] had its table pass the NaN
    check, and the plant it handled last returned a power series without
    any timestamp. *)
Theorem index_error_means_empty_power_series
        {Timestamp Interval : Type} (strftime : Timestamp -> string)
        (plant_name : string) (mngr : PVSystemManager Timestamp)
        (weather_api : WeatherAPI Timestamp Interval)
        (start_end : option (StartEndRequest Timestamp)) (interval : Interval) :
  post strftime plant_name mngr weather_api start_end interval = Raise IndexError ->
  exists st p pvplant,
    assemble strftime plant_name mngr weather_api start_end interval = Ok st
    /\ last_processed mngr (resolve_plant_names mngr plant_name) None = Some p
    /\ get_pv_plant mngr p = Some pvplant
    /\ power_series strftime pvplant (build_datetimes weather_api start_end interval)
       = [].
Proof.
  intros Hp.
  destruct (post_cases strftime plant_name mngr weather_api start_end interval)
    as [H | (st & Hg & [H | [Hn H]])]; rewrite H in Hp; try discriminate.
  destruct (round_astype_int (result_df st)) as [ints|e] eqn:Ei.
  2: { inversion Hp; subst e.
       destruct (round_astype_int_raises _ _ Ei) as [E | [E | E]]; discriminate. }
  pose proof (aggregate_ac_power strftime _ _ _ _ _ _ Hg) as Hl.
  assert (Ha : assemble strftime plant_name mngr weather_api start_end interval
               = Ok (mkLocals (result_df st) (ac_power_var st) (log st))).
  { unfold assemble. rewrite Hg; simpl. unfold check_nan. rewrite Hn. reflexivity. }
  destruct (last_processed mngr (resolve_plant_names mngr plant_name) None)
    as [q|] eqn:El.
  - destruct Hl as (pvplant & Hf & Hv). rewrite Hv in Hp.
    exists (mkLocals (result_df st) (ac_power_var st) (log st)), q, pvplant.
    split; [exact Ha|]. split; [reflexivity|]. split; [exact Hf|].
    destruct (power_series strftime pvplant _) as [|x s]; [reflexivity | discriminate].
  - rewrite Hl in Hp. discriminate.
Qed.

(** ** When a column assignment fails *)

Lemma setitem_raises_not_unique (df : DataFrame) {dt : dtype} key s (e : Exception) :
  setitem df key s dt = Raise e ->
  is_unique (labels s) = false
  /\ labels_eqb (labels s) (df_index (ensure_valid_index df s)) = false.
Proof.
  unfold setitem, reindex_for_setitem.
  destruct (labels_eqb _ _); simpl; [discriminate|].
  destruct (_ =? _)%nat; simpl; [discriminate|].
  destruct (is_unique (labels s)); simpl; [discriminate|]. auto.
Qed.

Lemma run_raises_at {Timestamp : Type} (strftime : Timestamp -> string)
      (mngr : PVSystemManager Timestamp) (datetimes : list Timestamp)
      (plant_name : string) (names : list string) (e : Exception) : forall st,
  run_plants strftime mngr datetimes plant_name names st = Raise e ->
  exists p pvplant,
    In p names /\ get_pv_plant mngr p = Some pvplant
    /\ (is_unique (labels (power_series strftime pvplant datetimes)) = false
        \/ is_unique (labels (energy_series strftime pvplant datetimes)) = false).
Proof.
  unfold run_plants.
  induction names as [|x names IH]; intros st Hr; simpl in Hr; [discriminate|].
  destruct (loop_body strftime mngr datetimes plant_name st x) as [st1|e1] eqn:Hb;
    simpl in Hr.
  - destruct (IH _ Hr) as (p & pvplant & Hp & H). exists p, pvplant.
    split; [right; exact Hp | exact H].
  - clear Hr IH. unfold loop_body in Hb.
    destruct (get_pv_plant mngr x) as [pvplant|] eqn:Hf; [|discriminate].
    exists x, pvplant. split; [left; reflexivity|]. split; [exact Hf|].
    destruct (setitem (result_df st) _ _ _) as [df1|e2] eqn:E1; simpl in Hb;
      [|left; apply (setitem_raises_not_unique _ _ _ _ E1)].
    destruct (setitem df1 _ _ _) as [df2|e3] eqn:E2; simpl in Hb;
      [|right; apply (setitem_raises_not_unique _ _ _ _ E2)].
    destruct (setitem df2 _ _ _) as [df3|e4] eqn:E3; simpl in Hb; [discriminate|].
    right. rewrite <- (labels_cumsum (energy_series strftime pvplant datetimes)).
    apply (setitem_raises_not_unique _ _ _ _ E3).
Qed.

Lemma post_duplicate_labels
      {Timestamp Interval : Type} (strftime : Timestamp -> string)
      (plant_name : string) (mngr : PVSystemManager Timestamp)
      (weather_api : WeatherAPI Timestamp Interval)
      (start_end : option (StartEndRequest Timestamp)) (interval : Interval) :
  post strftime plant_name mngr weather_api start_end interval = Raise DuplicateLabels ->
  exists e,
    run_plants strftime mngr (build_datetimes weather_api start_end interval)
               plant_name (resolve_plant_names mngr plant_name)
               (mkLocals (empty_frame (build_columns (is_all plant_name)
                                         (resolve_plant_names mngr plant_name)))
                         None (first_log start_end))
    = Raise e.
Proof.
  intros Hp. unfold post, assemble, aggregate in Hp. cbv zeta in Hp.
  fold (first_log start_end) in Hp.
  destruct (run_plants strftime mngr _ plant_name _ _) as [st0|e] eqn:Hr; [|eauto].
  exfalso. simpl in Hp.
  destruct (loop_end strftime _ _ _ _ _ _ Hr) as (Hk & _).
  destruct (add_totals_succeeds (is_all plant_name) (result_df st0)) as [df' Ht].
  { intros Hall m Hm. rewrite Hk, Hall. apply total_declared; exact Hm. }
  rewrite Ht in Hp. simpl in Hp. unfold check_nan in Hp.
  destruct (isnull_any df') eqn:Hn; simpl in Hp; [discriminate|].
  unfold respond in Hp; simpl in Hp.
  destruct (round_astype_int df') as [ints|e] eqn:Ei; simpl in Hp.
  - destruct (ac_power_var st0) as [[|x s]|]; simpl in Hp; discriminate.
  - inversion Hp; subst e.
    destruct (round_astype_int_raises _ _ Ei) as [E | [E | E]]; discriminate.
Qed.

(** X8.  The only failure of the loop is pandas refusing to align a
    series: a request that ends this way asked for a plant that is known
    and whose power or energy series carries a timestamp twice. *)
Theorem duplicate_labels_error_means_repeated_timestamp
        {Timestamp Interval : Type} (strftime : Timestamp -> string)
        (plant_name : string) (mngr : PVSystemManager Timestamp)
        (weather_api : WeatherAPI Timestamp Interval)
        (start_end : option (StartEndRequest Timestamp)) (interval : Interval) :
  post strftime plant_name mngr weather_api start_end interval = Raise DuplicateLabels ->
  exists p pvplant,
    In p (resolve_plant_names mngr plant_name)
    /\ get_pv_plant mngr p = Some pvplant
    /\ (is_unique (labels (power_series strftime pvplant
                             (build_datetimes weather_api start_end interval))) = false
        \/ is_unique (labels (energy_series strftime pvplant
                                (build_datetimes weather_api start_end interval))) = false).
Proof.
  intros Hp. destruct (post_duplicate_labels strftime _ _ _ _ _ Hp) as [e Hr].
  apply (run_raises_at strftime _ _ _ _ _ _ Hr).
Qed.

(** ** Rounding *)

(** [round_half_even q] is an integer nearest to [q], the even one of the
    two when [q] lies half-way. *)
Lemma round_half_even_spec (q : Q) :
  (- Zpos (Qden q) <= 2 * (round_half_even q * Zpos (Qden q) - Qnum q) <= Zpos (Qden q))%Z
  /\ ((2 * Z.abs (round_half_even q * Zpos (Qden q) - Qnum q))%Z = Zpos (Qden q) ->
      Z.even (round_half_even q) = true).
Proof.
  unfold round_half_even.
  set (n := Qnum q). set (d := Zpos (Qden q)).
  assert (Hd : (0 < d)%Z) by (unfold d; lia).
  pose proof (Z.div_mod n d ltac:(lia)) as Hdm.
  pose proof (Z.mod_pos_bound n d Hd) as Hr.
  set (f := (n / d)%Z) in *. set (r := (n mod d)%Z) in *.
  assert (Hf : (f * d - n = - r)%Z) by lia.
  assert (Hf1 : ((f + 1) * d - n = d - r)%Z) by lia.
  destruct (Z.compare_spec (2 * r) d) as [C|C|C].
  - destruct (Z.even f) eqn:Ev.
    + rewrite Hf. split; [lia|]. intros _. exact Ev.
    + rewrite Hf1. split; [lia|]. intros _. rewrite Z.even_add, Ev. reflexivity.
  - rewrite Hf. split; [lia|]. intros H. exfalso.
    rewrite Z.abs_opp, Z.abs_eq in H; lia.
  - rewrite Hf1. split; [lia|]. intros H. exfalso.
    rewrite Z.abs_eq in H; lia.
Qed.

Lemma round_half_even_monotone (p q : Q) :
  (p <= q)%Q -> (round_half_even p <= round_half_even q)%Z.
Proof.
  intros Hle. unfold Qle in Hle.
  destruct (round_half_even_spec p) as [[Hp1 Hp2] Hpe].
  destruct (round_half_even_spec q) as [[Hq1 Hq2] Hqe].
  set (z1 := round_half_even p) in *. set (z2 := round_half_even q) in *.
  set (n1 := Qnum p) in *. set (n2 := Qnum q) in *.
  set (d1 := Zpos (Qden p)) in *. set (d2 := Zpos (Qden q)) in *.
  assert (H1 : (0 < d1)%Z) by (unfold d1; lia).
  assert (H2 : (0 < d2)%Z) by (unfold d2; lia).
  destruct (Z_le_gt_dec z1 z2) as [|Hgt]; [assumption|exfalso].
  assert (A : (2 * (z1 * d1 - n1) * d2 <= d1 * d2)%Z) by nia.
  assert (B : (- (d1 * d2) <= 2 * (z2 * d2 - n2) * d1)%Z) by nia.
  assert (C : (2 * (z1 * d1 - n1) = d1)%Z) by nia.
  assert (D : (2 * (z2 * d2 - n2) = - d2)%Z) by nia.
  assert (E : (z1 = z2 + 1)%Z) by nia.
  assert (Ev1 : Z.even z1 = true) by (apply Hpe; rewrite Z.abs_eq; lia).
  assert (Ev2 : Z.even z2 = true) by (apply Hqe; rewrite Z.abs_neq; lia).
  rewrite E, Z.even_add, Ev2 in Ev1. discriminate.
Qed.

Lemma round_half_even_near (q : Q) :
  (inject_Z (round_half_even q) - (1 # 2) <= q
   /\ q <= inject_Z (round_half_even q) + (1 # 2))%Q.
Proof.
  destruct (round_half_even_spec q) as [[H1 H2] _].
  destruct q as [n d]. cbn [Qnum Qden] in H1, H2.
  set (z := round_half_even (n # d)) in *.
  unfold Qle, Qminus, Qplus, Qopp, inject_Z; cbn [Qnum Qden]. split; lia.
Qed.

(** ** The dtypes of the columns, and line 108 *)

Lemma lookup_dtype_set_same (key : ColKey) (dt : dtype) (dts : list (ColKey * dtype)) :
  lookup_dtype key (set_dtype key dt dts) = dt.
Proof.
  unfold set_dtype.
  destruct (existsb (fun c => key_eqb key (fst c)) dts) eqn:E.
  - induction dts as [|[k d] dts IH]; simpl in *; [discriminate|].
    destruct (key_eqb key k) eqn:Ek; simpl; rewrite Ek; [reflexivity|].
    apply IH. exact E.
  - induction dts as [|[k d] dts IH]; simpl in *.
    + rewrite key_eqb_refl. reflexivity.
    + destruct (key_eqb key k) eqn:Ek; simpl in E; [discriminate|]. apply IH; exact E.
Qed.

Lemma lookup_dtype_set_other (k key : ColKey) (dt : dtype) (dts : list (ColKey * dtype)) :
  key_eqb k key = false ->
  lookup_dtype k (set_dtype key dt dts) = lookup_dtype k dts.
Proof.
  intros Hne. unfold set_dtype.
  destruct (existsb (fun c => key_eqb key (fst c)) dts).
  - induction dts as [|[k0 d] dts IH]; simpl; [reflexivity|].
    destruct (key_eqb key k0) eqn:Ek; simpl.
    + apply key_eqb_eq in Ek. subst k0. rewrite Hne. exact IH.
    + rewrite IH. reflexivity.
  - induction dts as [|[k0 d] dts IH]; simpl.
    + rewrite Hne. reflexivity.
    + rewrite IH. reflexivity.
Qed.

Lemma in_keys_set_dtype (k key : ColKey) (dt : dtype) (dts : list (ColKey * dtype)) :
  In k (map fst dts) -> In k (map fst (set_dtype key dt dts)).
Proof.
  intros Hin. unfold set_dtype.
  destruct (existsb (fun c => key_eqb key (fst c)) dts).
  - rewrite map_map.
    replace (map (fun c : ColKey * dtype =>
                    fst (if key_eqb key (fst c) then (fst c, dt) else c)) dts)
      with (map fst dts); [exact Hin|].
    apply map_ext. intros c. destruct (key_eqb key (fst c)); reflexivity.
  - rewrite map_app. apply in_or_app. left; exact Hin.
Qed.

Lemma lookup_dtype_in (key : ColKey) (dts : list (ColKey * dtype)) :
  In key (map fst dts) -> In (key, lookup_dtype key dts) dts.
Proof.
  induction dts as [|[k d] dts IH]; simpl; [tauto|].
  intros Hin. destruct (key_eqb key k) eqn:Ek.
  - apply key_eqb_eq in Ek. subst k. left; reflexivity.
  - right. apply IH. destruct Hin as [E | Hin]; [|exact Hin].
    subst k. rewrite key_eqb_refl in Ek. discriminate.
Qed.

Lemma setitem_dtypes (df : DataFrame) key s dt df' :
  setitem df key s dt = Ok df' -> df_dtypes df' = set_dtype key dt (df_dtypes df).
Proof.
  unfold setitem.
  destruct (reindex_for_setitem s (ensure_valid_index df s)) as [vals|e]; simpl;
    [|discriminate].
  intros H; inversion H; subst df'; simpl.
  unfold ensure_valid_index. destruct (df_index df), s; reflexivity.
Qed.

Lemma setitem_dtype_same (df : DataFrame) key s dt df' :
  setitem df key s dt = Ok df' -> dtype_of df' key = dt.
Proof.
  intros H. unfold dtype_of. rewrite (setitem_dtypes _ _ _ _ _ H).
  apply lookup_dtype_set_same.
Qed.

Lemma setitem_dtype_other (df : DataFrame) key s dt df' (k : ColKey) :
  setitem df key s dt = Ok df' -> key_eqb k key = false ->
  dtype_of df' k = dtype_of df k.
Proof.
  intros H Hne. unfold dtype_of. rewrite (setitem_dtypes _ _ _ _ _ H).
  apply lookup_dtype_set_other; exact Hne.
Qed.

Lemma setitem_keeps_total_object (df : DataFrame) key s dt df' :
  setitem df key s dt = Ok df' -> snd key <> "Total" ->
  total_object df -> total_object df'.
Proof.
  intros H Hne Ht m Hm. destruct (Ht m Hm) as [Hin Hd]. split.
  - rewrite (setitem_dtypes _ _ _ _ _ H). apply in_keys_set_dtype; exact Hin.
  - rewrite (setitem_dtype_other _ _ _ _ _ _ H); [exact Hd|].
    apply key_eqb_neq. intros E. apply Hne. rewrite <- E. reflexivity.
Qed.

Lemma setitem_keeps_plant_float64 (df : DataFrame) key s dt df' (p : string) :
  setitem df key s dt = Ok df' -> snd key <> p ->
  plant_float64 p df -> plant_float64 p df'.
Proof.
  intros H Hne Hp m Hm.
  rewrite (setitem_dtype_other _ _ _ _ _ _ H); [apply Hp; exact Hm|].
  apply key_eqb_neq. intros E. apply Hne. rewrite <- E. reflexivity.
Qed.

(** The sum over the columns of one type is of dtype [object] while the
    [Total] column of that type is. *)
Lemma sum_dtype_object (df : DataFrame) (metric : string) :
  In (metric, "Total") (map fst (df_dtypes df)) ->
  dtype_of df (metric, "Total") = Object ->
  sum_dtype df metric = Object.
Proof.
  intros Hin Hd. unfold sum_dtype.
  destruct (forallb _ _) eqn:E; [|reflexivity]. exfalso.
  rewrite forallb_forall in E.
  pose proof (lookup_dtype_in _ _ Hin) as He. fold (dtype_of df (metric, "Total")) in He.
  rewrite Hd in He.
  assert (H : is_float64 (snd ((metric, "Total"), Object)) = true).
  { apply E. apply filter_In. split; [exact He|]. simpl. apply String.eqb_refl. }
  discriminate.
Qed.

Lemma add_total_keeps_total_object (df : DataFrame) (metric : string) s df' :
  setitem df (metric, "Total") s (sum_dtype df metric) = Ok df' ->
  total_object df -> total_object df'.
Proof.
  intros H Ht m Hm. destruct (Ht m Hm) as [Hin Hd]. split.
  - rewrite (setitem_dtypes _ _ _ _ _ H). apply in_keys_set_dtype; exact Hin.
  - destruct (String.eqb m metric) eqn:E.
    + apply String.eqb_eq in E. subst m.
      rewrite (setitem_dtype_same _ _ _ _ _ H). apply sum_dtype_object; assumption.
    + rewrite (setitem_dtype_other _ _ _ _ _ _ H); [exact Hd|].
      apply key_eqb_neq. intros K. inversion K; subst.
      rewrite String.eqb_refl in E. discriminate.
Qed.

Lemma lookup_dtype_object (k : ColKey) (cols : list ColKey) :
  lookup_dtype k (map (fun c => (c, Object)) cols) = Object.
Proof.
  induction cols as [|c cols IH]; simpl; [reflexivity|].
  destruct (key_eqb k c); [reflexivity | exact IH].
Qed.

Lemma empty_frame_total_object (names : list string) :
  total_object (empty_frame (build_columns true names)).
Proof.
  intros m Hm. split.
  - unfold empty_frame; simpl. rewrite map_map; simpl. rewrite map_id.
    apply total_declared; exact Hm.
  - apply lookup_dtype_object.
Qed.

(** One turn of the loop for a known plant leaves its three columns of
    dtype [float64]. *)
Lemma body_float64 {Timestamp : Type} (strftime : Timestamp -> string)
      (mngr : PVSystemManager Timestamp) (datetimes : list Timestamp)
      (plant_name : string) (st : Locals) (x : string)
      (pvplant : PVPlantModel Timestamp) (st' : Locals) :
  get_pv_plant mngr x = Some pvplant ->
  loop_body strftime mngr datetimes plant_name st x = Ok st' ->
  plant_float64 x (result_df st').
Proof.
  intros Hf Hb.
  destruct (body_found strftime _ _ _ _ _ _ _ Hf Hb) as (df1 & df2 & E1 & E2 & E3 & _).
  intros m [<- | [<- | [<- | []]]].
  - rewrite (setitem_dtype_other _ _ _ _ _ _ E3) by reflexivity.
    rewrite (setitem_dtype_other _ _ _ _ _ _ E2) by reflexivity.
    apply (setitem_dtype_same _ _ _ _ _ E1).
  - rewrite (setitem_dtype_other _ _ _ _ _ _ E3) by reflexivity.
    apply (setitem_dtype_same _ _ _ _ _ E2).
  - apply (setitem_dtype_same _ _ _ _ _ E3).
Qed.

(** A property of the dtypes that an assignment to another plant's column
    keeps is kept by a turn of the loop for that plant. *)
Lemma body_keeps_dtypes {Timestamp : Type} (strftime : Timestamp -> string)
      (mngr : PVSystemManager Timestamp) (datetimes : list Timestamp)
      (plant_name : string) (P : DataFrame -> Prop) (st : Locals) (x : string)
      (st' : Locals) :
  (forall df metric s df',
      setitem df (metric, x) s Float64 = Ok df' -> P df -> P df') ->
  loop_body strftime mngr datetimes plant_name st x = Ok st' ->
  P (result_df st) -> P (result_df st').
Proof.
  intros Hstep Hb HP.
  destruct (get_pv_plant mngr x) as [pvplant|] eqn:Hf.
  - destruct (body_found strftime _ _ _ _ _ _ _ Hf Hb) as (df1 & df2 & E1 & E2 & E3 & _).
    apply (Hstep _ _ _ _ E3). apply (Hstep _ _ _ _ E2). apply (Hstep _ _ _ _ E1). exact HP.
  - rewrite (body_not_found strftime _ _ _ _ _ Hf) in Hb.
    inversion Hb; subst st'. exact HP.
Qed.

Lemma run_float64 {Timestamp : Type} (strftime : Timestamp -> string)
      (mngr : PVSystemManager Timestamp) (datetimes : list Timestamp)
      (plant_name : string) (names : list string) :
  forall st st' p pvplant,
    run_plants strftime mngr datetimes plant_name names st = Ok st' ->
    get_pv_plant mngr p = Some pvplant ->
    In p names \/ plant_float64 p (result_df st) ->
    plant_float64 p (result_df st').
Proof.
  unfold run_plants.
  induction names as [|x names IH]; intros st st' p pvplant Hr Hf Hp; simpl in Hr.
  - inversion Hr; subst. destruct Hp as [[]|Hp]; exact Hp.
  - destruct (loop_body strftime mngr datetimes plant_name st x) as [st1|] eqn:Hb;
      simpl in Hr; [|discriminate].
    apply (IH st1 st' p pvplant Hr Hf).
    destruct (string_dec p x) as [->|Hne].
    + right. apply (body_float64 strftime _ _ _ _ _ _ _ Hf Hb).
    + destruct Hp as [[E|Hp]|Hp]; [congruence | left; exact Hp | right].
      apply (body_keeps_dtypes strftime mngr datetimes plant_name
               (plant_float64 p) st x st1); [|exact Hb | exact Hp].
      intros df m s df' Hs. apply (setitem_keeps_plant_float64 _ _ _ _ _ _ Hs).
      simpl. congruence.
Qed.

Lemma run_total_object {Timestamp : Type} (strftime : Timestamp -> string)
      (mngr : PVSystemManager Timestamp) (datetimes : list Timestamp)
      (plant_name : string) (names : list string) :
  ~ In "Total" names ->
  forall st st',
    run_plants strftime mngr datetimes plant_name names st = Ok st' ->
    total_object (result_df st) -> total_object (result_df st').
Proof.
  unfold run_plants.
  induction names as [|x names IH]; intros Hnt st st' Hr Ht; simpl in Hr.
  - inversion Hr; subst. exact Ht.
  - destruct (loop_body strftime mngr datetimes plant_name st x) as [st1|] eqn:Hb;
      simpl in Hr; [|discriminate].
    apply (IH (fun H => Hnt (or_intror H)) st1 st' Hr).
    apply (body_keeps_dtypes strftime mngr datetimes plant_name total_object st x st1);
      [|exact Hb | exact Ht].
    intros df m s df' Hs. apply (setitem_keeps_total_object _ _ _ _ _ Hs).
    simpl. intros E. apply Hnt. left. exact E.
Qed.

(** The dtypes of the table with its totals: the columns of a plant the
    loop handled are [float64]; the [Total] columns, summed over a frame
    that holds the still empty [Total] column of dtype [object], are
    [object]. *)
Lemma aggregate_dtypes
      {Timestamp Interval : Type} (strftime : Timestamp -> string)
      (plant_name : string) (mngr : PVSystemManager Timestamp)
      (weather_api : WeatherAPI Timestamp Interval)
      (start_end : option (StartEndRequest Timestamp)) (interval : Interval)
      (st : Locals) :
  aggregate strftime plant_name mngr weather_api start_end interval = Ok st ->
  (forall p pvplant,
      In p (resolve_plant_names mngr plant_name) ->
      get_pv_plant mngr p = Some pvplant ->
      (is_all plant_name = true -> p <> "Total") ->
      plant_float64 p (result_df st))
  /\ (is_all plant_name = true ->
      ~ In "Total" (dict_keys (pv_plants mngr)) ->
      total_object (result_df st)).
Proof.
  intros Hg.
  destruct (aggregate_inv strftime _ _ _ _ _ _ Hg) as (st0 & Hr & Ht & _).
  split.
  - intros p pvplant Hp Hf Hne.
    pose proof (run_float64 strftime _ _ _ _ _ _ p pvplant Hr Hf (or_introl Hp)) as H0.
    destruct (is_all plant_name) eqn:Hall.
    + apply (add_totals_keeps (plant_float64 p) true _ _) in Ht; auto.
      intros d m s d' Hs. apply (setitem_keeps_plant_float64 _ _ _ _ _ _ Hs).
      simpl. intros E. apply Hne; auto.
    + simpl in Ht. inversion Ht. exact H0.
  - intros Hall Hnt. rewrite Hall in Ht.
    assert (Hnames : resolve_plant_names mngr plant_name = dict_keys (pv_plants mngr)).
    { unfold resolve_plant_names. rewrite Hall. reflexivity. }
    rewrite Hnames, Hall in Hr.
    apply (add_totals_keeps total_object true _ _) in Ht; auto.
    + intros d m s d'. apply add_total_keeps_total_object.
    + apply (run_total_object strftime _ _ _ _ Hnt _ _ Hr).
      apply empty_frame_total_object.
Qed.

(** The rounded frame, cell by cell. *)
Lemma cells_to_int_nth (dt : dtype) (l : list cell) : forall zs i c,
  cells_to_int dt l = Ok zs -> nth_error l i = Some c ->
  exists z, cell_to_int dt c = Ok z /\ nth_error zs i = Some z.
Proof.
  induction l as [|c0 l IH]; intros zs i c H Hi; [destruct i; discriminate|].
  simpl in H.
  destruct (cell_to_int dt c0) as [z0|] eqn:E0; simpl in H; [|discriminate].
  destruct (cells_to_int dt l) as [zs'|] eqn:El; simpl in H; [|discriminate].
  inversion H; subst zs. destruct i as [|i]; simpl in *.
  - inversion Hi; subst c0. eauto.
  - apply (IH zs' i c eq_refl Hi).
Qed.

Lemma columns_to_int_column (dts : list (ColKey * dtype))
      (cols : list (ColKey * list cell)) : forall cols' key col,
  columns_to_int dts cols = Ok cols' ->
  column key cols = Some col ->
  exists zs, int_column key cols' = Some zs
             /\ cells_to_int (lookup_dtype key dts) col = Ok zs.
Proof.
  induction cols as [|[k c] cols IH]; intros cols' key col H Hc; simpl in *;
    [discriminate|].
  destruct (cells_to_int (lookup_dtype k dts) c) as [zs|] eqn:Ec; simpl in H;
    [|discriminate].
  destruct (columns_to_int dts cols) as [rest|] eqn:Er; simpl in H; [|discriminate].
  inversion H; subst cols'. simpl.
  destruct (key_eqb key k) eqn:Ek.
  - apply key_eqb_eq in Ek. subst k. inversion Hc; subst c. eauto.
  - apply (IH rest key col eq_refl Hc).
Qed.

Lemma cast_cell (df : DataFrame) (ints : IntFrame) (key : ColKey) (i : nat) (v : Q) :
  round_astype_int df = Ok ints ->
  df_cell df key i = Some v ->
  exists z, cell_to_int (dtype_of df key) (Some v) = Ok z
            /\ if_cell ints key i = Some z.
Proof.
  unfold round_astype_int. intros H Hv.
  destruct (columns_to_int (df_dtypes df) (df_columns df)) as [cols|] eqn:Ec;
    simpl in H; [|discriminate].
  inversion H; subst ints. unfold if_cell, df_cell in *; simpl.
  destruct (column key (df_columns df)) as [col|] eqn:Hc; [|discriminate].
  destruct (columns_to_int_column _ _ _ _ _ Ec Hc) as (zs & -> & Hz).
  assert (Hi : nth_error col i = Some (Some v)).
  { destruct (nth_error col i) as [c|] eqn:E.
    - pose proof (nth_error_nth col i None E) as Hn. f_equal. congruence.
    - apply nth_error_None in E. rewrite nth_overflow in Hv by exact E. discriminate. }
  apply (cells_to_int_nth _ _ _ _ _ Hz Hi).
Qed.

(** A float64 cell whose rounding fits [int64] comes out rounded. *)
Lemma cast_float64_cell (df : DataFrame) (ints : IntFrame) (key : ColKey) (i : nat)
      (v : Q) :
  round_astype_int df = Ok ints ->
  dtype_of df key = Float64 ->
  df_cell df key i = Some v ->
  in_int64 (round_half_even v) = true ->
  if_cell ints key i = Some (round_half_even v).
Proof.
  intros H Hd Hv Hr. destruct (cast_cell _ _ _ _ _ H Hv) as (z & Hz & ->).
  rewrite Hd in Hz. simpl in Hz. rewrite Hr in Hz. congruence.
Qed.

(** An object cell comes out truncated, and fits [int64]. *)
Lemma cast_object_cell (df : DataFrame) (ints : IntFrame) (key : ColKey) (i : nat)
      (v : Q) :
  round_astype_int df = Ok ints ->
  dtype_of df key = Object ->
  df_cell df key i = Some v ->
  in_int64 (truncate v) = true /\ if_cell ints key i = Some (truncate v).
Proof.
  intros H Hd Hv. destruct (cast_cell _ _ _ _ _ H Hv) as (z & Hz & ->).
  rewrite Hd in Hz. simpl in Hz.
  destruct (in_int64 (truncate v)); [|discriminate]. split; congruence.
Qed.

(** [int(x)] cuts the fraction: the result lies between 0 and [x], less
    than 1 away from [x]. *)
Lemma truncate_spec (q : Q) :
  ((0 <= q -> inject_Z (truncate q) <= q /\ q < inject_Z (truncate q) + 1)
   /\ (q <= 0 -> inject_Z (truncate q) - 1 < q /\ q <= inject_Z (truncate q)))%Q.
Proof.
  destruct q as [n d]. unfold truncate, Qle, Qlt, Qminus.
  unfold Qplus, Qopp, inject_Z. cbn [Qnum Qden]. rewrite ?Z.mul_1_r.
  assert (Hd : (0 < Zpos d)%Z) by lia.
  pose proof (Z.quot_rem' n (Zpos d)) as Hqr.
  set (t := (n ÷ Z.pos d)%Z) in *. set (r := Z.rem n (Z.pos d)) in *.
  split; intros Hs.
  - assert (Hn : (0 <= n)%Z) by lia.
    pose proof (Z.rem_bound_pos n (Zpos d) Hn Hd) as H. fold r in H. split; nia.
  - assert (Hn : (n <= 0)%Z) by lia.
    pose proof (Z.rem_bound_pos_neg n (Zpos d) Hd Hn) as H. fold r in H. split; nia.
Qed.

(** X11.  What line 108 does to a table that passed the check, by the
    kind of column.  The columns of a plant the loop handled are of dtype
    [float64]: [round(0)] takes each of their cells to the nearest
    integer, the even one from half-way, and the cell comes out as that
    integer when it fits [int64].  The [Total] columns of an all-plants
    request are of dtype [object]: [round(0)] leaves them alone and
    [astype(int)] cuts the fraction of each cell, so that a [Total]
    lies between 0 and the sum it stands for, less than 1 away from it.
    (In "all" mode no plant is called ["Total"].) *)
Theorem plant_cells_are_rounded_total_cells_are_truncated
        {Timestamp Interval : Type} (strftime : Timestamp -> string)
        (plant_name : string) (mngr : PVSystemManager Timestamp)
        (weather_api : WeatherAPI Timestamp Interval)
        (start_end : option (StartEndRequest Timestamp)) (interval : Interval)
        (st : Locals) (ints : IntFrame) :
  assemble strftime plant_name mngr weather_api start_end interval = Ok st ->
  round_astype_int (result_df st) = Ok ints ->
  (is_all plant_name = true -> ~ In "Total" (dict_keys (pv_plants mngr))) ->
  forall metric i,
    In metric metrics -> (i < List.length (df_index (result_df st)))%nat ->
    (forall p pvplant,
        In p (resolve_plant_names mngr plant_name) ->
        get_pv_plant mngr p = Some pvplant ->
        exists v,
          df_cell (result_df st) (metric, p) i = Some v
          /\ (inject_Z (round_half_even v) - (1 # 2) <= v
              /\ v <= inject_Z (round_half_even v) + (1 # 2))%Q
          /\ (in_int64 (round_half_even v) = true ->
              if_cell ints (metric, p) i = Some (round_half_even v)))
    /\ (is_all plant_name = true ->
        exists v,
          df_cell (result_df st) (metric, "Total") i = Some v
          /\ if_cell ints (metric, "Total") i = Some (truncate v)
          /\ in_int64 (truncate v) = true
          /\ (0 <= v -> inject_Z (truncate v) <= v /\ v < inject_Z (truncate v) + 1)%Q
          /\ (v <= 0 -> inject_Z (truncate v) - 1 < v /\ v <= inject_Z (truncate v))%Q).
Proof.
  intros Ha Hi Hnt metric i Hm Hlt.
  destruct (assembled_cells strftime _ _ _ _ _ _ Ha) as [_ Hcells].
  destruct (assemble_inv strftime _ _ _ _ _ _ Ha) as (st1 & Hg & Hdf & _).
  destruct (aggregate_dtypes strftime _ _ _ _ _ _ Hg) as [Hfl Hob].
  rewrite <- Hdf in Hfl, Hob.
  split.
  - intros p pvplant Hp Hf.
    assert (Hne : is_all plant_name = true -> p <> "Total").
    { intros Hall E. apply (Hnt Hall). subst p. unfold resolve_plant_names in Hp.
      rewrite Hall in Hp. exact Hp. }
    destruct (Hcells (metric, p) i) as [v Hv]; [|exact Hlt|].
    { unfold build_columns. rewrite !in_app_iff.
      destruct Hm as [<- | [<- | [<- | []]]]; auto using in_map. }
    exists v. split; [exact Hv|]. split; [apply round_half_even_near|].
    intros Hr. apply (cast_float64_cell _ _ _ _ _ Hi); [|exact Hv | exact Hr].
    apply (Hfl p pvplant Hp Hf Hne metric Hm).
  - intros Hall.
    destruct (Hcells (metric, "Total") i) as [v Hv]; [|exact Hlt|].
    { rewrite Hall. apply total_declared; exact Hm. }
    exists v. split; [exact Hv|].
    destruct (cast_object_cell _ _ _ _ _ Hi (proj2 (Hob Hall (Hnt Hall) metric Hm)) Hv)
      as [Hr Hc].
    split; [exact Hc|]. split; [exact Hr|]. apply truncate_spec.
Qed.

(** The cumulative column of a handled plant, step by step, in the table
    that passed the check. *)
Lemma assembled_cumsum_steps
      {Timestamp Interval : Type} (strftime : Timestamp -> string)
      (plant_name : string) (mngr : PVSystemManager Timestamp)
      (weather_api : WeatherAPI Timestamp Interval)
      (start_end : option (StartEndRequest Timestamp)) (interval : Interval)
      (st : Locals) (p : string) (pvplant : PVPlantModel Timestamp) :
  assemble strftime plant_name mngr weather_api start_end interval = Ok st ->
  In p (resolve_plant_names mngr plant_name) ->
  get_pv_plant mngr p = Some pvplant ->
  (is_all plant_name = true -> p <> "Total") ->
  labels (energy_series strftime pvplant (build_datetimes weather_api start_end interval))
  = df_index (result_df st) ->
  forall k, (k < List.length (df_index (result_df st)))%nat ->
    exists c e before,
      df_cell (result_df st) ("watt_hours_cumsum", p) k = Some c
      /\ df_cell (result_df st) ("watt_hours", p) k = Some e
      /\ cumsum_before (result_df st) p k = Some before
      /\ c = (before + e)%Q
      /\ nth k (values (energy_series strftime pvplant
                          (build_datetimes weather_api start_end interval))) None
         = Some e.
Proof.
  intros Ha Hp Hf Hnt Hlab k Hk.
  destruct (assembled_energy_columns strftime _ _ _ _ _ _ _ _ Ha Hp Hf Hnt Hlab)
    as (C2 & C3 & Hwh).
  set (T := result_df st) in *.
  set (E := energy_series strftime pvplant
              (build_datetimes weather_api start_end interval)) in *.
  destruct (cumsum_from_step (values E) 0%Q k) as (c & e & Hc & He & Hstep).
  { intros j Hj. apply Hwh. lia. }
  unfold df_cell, cumsum_before. rewrite C2, C3.
  destruct k as [|k].
  - exists c, e, 0%Q. auto.
  - destruct Hstep as (b & Hb & Hcb). exists c, e, b.
    unfold df_cell. rewrite C3. auto.
Qed.

(** X14.  When a handled plant reports no negative energy and its
    cumulative energies, rounded, fit [int64], its cumulative energy in
    the rounded table never decreases from one row to the next, and is not
    negative.  (The plant's energy series carries the index of the
    table.) *)
Theorem rounded_cumsum_never_decreases
        {Timestamp Interval : Type} (strftime : Timestamp -> string)
        (plant_name : string) (mngr : PVSystemManager Timestamp)
        (weather_api : WeatherAPI Timestamp Interval)
        (start_end : option (StartEndRequest Timestamp)) (interval : Interval)
        (st : Locals) (ints : IntFrame) (p : string)
        (pvplant : PVPlantModel Timestamp) :
  assemble strftime plant_name mngr weather_api start_end interval = Ok st ->
  round_astype_int (result_df st) = Ok ints ->
  In p (resolve_plant_names mngr plant_name) ->
  get_pv_plant mngr p = Some pvplant ->
  (is_all plant_name = true -> p <> "Total") ->
  labels (energy_series strftime pvplant (build_datetimes weather_api start_end interval))
  = df_index (result_df st) ->
  (forall j v,
      nth j (values (energy_series strftime pvplant
                       (build_datetimes weather_api start_end interval))) None = Some v ->
      (0 <= v)%Q) ->
  (forall k v,
      df_cell (result_df st) ("watt_hours_cumsum", p) k = Some v ->
      in_int64 (round_half_even v) = true) ->
  forall k, (k < List.length (df_index (result_df st)))%nat ->
    exists before c,
      int_cumsum_before ints p k = Some before
      /\ if_cell ints ("watt_hours_cumsum", p) k = Some c
      /\ (before <= c)%Z
      /\ (0 <= c)%Z.
Proof.
  intros Ha Hi Hp Hf Hnt Hlab Hpos Hfit.
  destruct (assemble_inv strftime _ _ _ _ _ _ Ha) as (st1 & Hg & Hdf & _).
  destruct (aggregate_dtypes strftime _ _ _ _ _ _ Hg) as [Hfl _].
  rewrite <- Hdf in Hfl.
  assert (Hd : dtype_of (result_df st) ("watt_hours_cumsum", p) = Float64).
  { apply (Hfl p pvplant Hp Hf Hnt). simpl; auto. }
  assert (Hcast : forall k v,
             df_cell (result_df st) ("watt_hours_cumsum", p) k = Some v ->
             if_cell ints ("watt_hours_cumsum", p) k = Some (round_half_even v)).
  { intros k v Hv. apply (cast_float64_cell _ _ _ _ _ Hi Hd Hv). apply (Hfit k v Hv). }
  assert (Hstep : forall k, (k < List.length (df_index (result_df st)))%nat ->
            exists before c,
              int_cumsum_before ints p k = Some before
              /\ if_cell ints ("watt_hours_cumsum", p) k = Some c
              /\ (before <= c)%Z).
  { intros k Hk.
    destruct (assembled_cumsum_steps strftime _ _ _ _ _ _ _ _ Ha Hp Hf Hnt Hlab k Hk)
      as (c & e & b & Hc & He & Hb & Hq & Hv).
    exists (round_half_even b), (round_half_even c).
    split.
    { destruct k as [|k]; simpl in *.
      - inversion Hb; subst b. reflexivity.
      - apply Hcast. exact Hb. }
    split; [apply Hcast; exact Hc|].
    apply round_half_even_monotone. pose proof (Hpos k e Hv). rewrite Hq. lra. }
  intros k Hk. destruct (Hstep k Hk) as (b & c & Hb & Hc & Hle).
  exists b, c. split; [exact Hb|]. split; [exact Hc|]. split; [exact Hle|].
  clear Hb Hle. revert c Hc. induction k as [|k IH]; intros c Hc.
  - destruct (Hstep 0%nat Hk) as (b0 & c0 & Hb0 & Hc0 & Hle0).
    simpl in Hb0. inversion Hb0; subst b0. congruence.
  - destruct (Hstep (S k) Hk) as (b1 & c1 & Hb1 & Hc1 & Hle1).
    simpl in Hb1. assert (Hk' : (k < List.length (df_index (result_df st)))%nat) by lia.
    pose proof (IH Hk' b1 Hb1). assert (c1 = c) by congruence. lia.
Qed.

(** ** The further properties on concrete requests *)

Lemma request_log_witness :
  log single_table = [InfoNoStartEnd; InfoEstimating "A"].
Proof.
  apply (request_log hour_stamp "A" one_plant weather None H1 single_table).
  vm_compute. reflexivity.
Defined.

Lemma table_index_from_first_plant_witness :
  df_index (result_df all_table) = [t0; t1].
Proof.
  apply (table_index_from_first_plant hour_stamp "All" two_plants weather None H1
                                      all_table [] ["B"] "A" plant_A).
  - vm_compute. reflexivity.
  - intros _. simpl. intros [H | [H | []]]; discriminate.
  - reflexivity.
  - simpl. tauto.
  - reflexivity.
  - vm_compute. discriminate.
Defined.

Lemma table_holds_aligned_series_witness :
  df_cell (result_df all_table) ("watt", "B") 1 = q 150 1
  /\ df_cell (result_df all_table) ("watt_hours", "B") 1 = q 3 2
  /\ df_cell (result_df all_table) ("watt_hours_cumsum", "B") 1
     = aligned_cell (cumsum (energy_series hour_stamp plant_B
                               (build_datetimes weather None H1)))
                    (df_index (result_df all_table)) 1.
Proof.
  apply (table_holds_aligned_series hour_stamp "All" two_plants weather None H1
                                    all_table "B" plant_B).
  - vm_compute. reflexivity.
  - simpl. auto.
  - reflexivity.
  - intros _. discriminate.
  - simpl. lia.
Defined.

Lemma checked_table_is_covered_by_every_plant_witness :
  incl (df_index (result_df all_table)) [t0; t1]
  /\ incl (df_index (result_df all_table)) [t0; t1].
Proof.
  apply (checked_table_is_covered_by_every_plant hour_stamp "All" two_plants weather
                                                 None H1 all_table "B" plant_B).
  - vm_compute. reflexivity.
  - simpl. auto.
  - reflexivity.
  - intros _. discriminate.
Defined.

Lemma unbound_local_means_no_known_plant_witness :
  get_pv_plant one_plant "Ghost" = None.
Proof.
  apply (unbound_local_means_no_known_plant hour_stamp "Ghost" one_plant weather
                                            None H1).
  - vm_compute. reflexivity.
  - simpl. auto.
Defined.

Lemma index_error_means_empty_power_series_witness :
  exists st p pvplant,
    assemble hour_stamp "E" silent weather None H1 = Ok st
    /\ last_processed silent (resolve_plant_names silent "E") None = Some p
    /\ get_pv_plant silent p = Some pvplant
    /\ power_series hour_stamp pvplant (build_datetimes weather None H1) = [].
Proof.
  apply (index_error_means_empty_power_series hour_stamp "E" silent weather None H1).
  vm_compute. reflexivity.
Defined.

Lemma duplicate_labels_error_means_repeated_timestamp_witness :
  exists p pvplant,
    In p (resolve_plant_names stuck "All")
    /\ get_pv_plant stuck p = Some pvplant
    /\ (is_unique (labels (power_series hour_stamp pvplant
                             (build_datetimes weather None H1))) = false
        \/ is_unique (labels (energy_series hour_stamp pvplant
                                (build_datetimes weather None H1))) = false).
Proof.
  apply (duplicate_labels_error_means_repeated_timestamp hour_stamp "All" stuck weather
                                                         None H1).
  vm_compute. reflexivity.
Defined.

Lemma plant_cells_are_rounded_total_cells_are_truncated_witness :
  (forall p pvplant,
      In p (resolve_plant_names late_first "All") ->
      get_pv_plant late_first p = Some pvplant ->
      exists v,
        df_cell (result_df late_first_table) ("watt_hours", p) 0 = Some v
        /\ (inject_Z (round_half_even v) - (1 # 2) <= v
            /\ v <= inject_Z (round_half_even v) + (1 # 2))%Q
        /\ (in_int64 (round_half_even v) = true ->
            if_cell late_first_ints ("watt_hours", p) 0 = Some (round_half_even v)))
  /\ (is_all "All" = true ->
      exists v,
        df_cell (result_df late_first_table) ("watt_hours", "Total") 0 = Some v
        /\ if_cell late_first_ints ("watt_hours", "Total") 0 = Some (truncate v)
        /\ in_int64 (truncate v) = true
        /\ (0 <= v -> inject_Z (truncate v) <= v /\ v < inject_Z (truncate v) + 1)%Q
        /\ (v <= 0 -> inject_Z (truncate v) - 1 < v /\ v <= inject_Z (truncate v))%Q).
Proof.
  apply (plant_cells_are_rounded_total_cells_are_truncated
           hour_stamp "All" late_first weather (Some (mkStartEnd 5 7)) H1
           late_first_table late_first_ints).
  - vm_compute. reflexivity.
  - vm_compute. reflexivity.
  - intros _. simpl. intros [H | [H | []]]; discriminate.
  - simpl. auto.
  - simpl. lia.
Defined.

(** On that request the [Total] energy 3/2 comes out as 1, where rounding
    would give 2, next to plant A's 1/2, which comes out as 0. *)
Lemma late_first_total_is_truncated :
  df_cell (result_df late_first_table) ("watt_hours", "Total") 0 = Some (3 # 2)%Q
  /\ if_cell late_first_ints ("watt_hours", "Total") 0 = Some 1%Z
  /\ round_half_even (3 # 2) = 2%Z
  /\ if_cell late_first_ints ("watt_hours", "A") 0 = Some 0%Z.
Proof. repeat split; vm_compute; reflexivity. Qed.

Lemma rounded_cumsum_never_decreases_witness :
  exists before c,
    int_cumsum_before all_ints "B" 1 = Some before
    /\ if_cell all_ints ("watt_hours_cumsum", "B") 1 = Some c
    /\ (before <= c)%Z
    /\ (0 <= c)%Z.
Proof.
  apply (rounded_cumsum_never_decreases
           hour_stamp "All" two_plants weather None H1 all_table all_ints "B" plant_B).
  - vm_compute. reflexivity.
  - vm_compute. reflexivity.
  - simpl. auto.
  - reflexivity.
  - intros _. discriminate.
  - reflexivity.
  - intros [|[|j]] v H; vm_compute in H.
    + inversion H; subst. discriminate.
    + inversion H; subst. discriminate.
    + destruct j; discriminate.
  - intros [|[|k]] v H; vm_compute in H.
    + inversion H; subst. reflexivity.
    + inversion H; subst. reflexivity.
    + destruct k; discriminate.
  - simpl. lia.
Defined.
